(** * Hydra TLB-shootdown micro-benchmarks: functional model and properties

    The four C programs (microbenchmark1.c .. microbenchmark4.c) share one
    harness: pinned threads, a ready/go/stop barrier built from three
    volatile words, a timed loop of memory-management system calls, and a
    textual report.  This file embeds

    - the thread bodies ([worker], [spinner], the three workloads) as
      programs of a small state monad whose state holds the thread's own
      [data] record and the trace of the operations it performed, the
      answers of the operating system being read from an oracle [env];
    - the driver's thread-creation phase and its aggregation/report phase as
      pure functions;
    - the barrier as an interleaving transition system over the three
      shared words.

    C [int] values are integers of [Z]; where [main] computes with the
    option value [spinners_per_node] the 32-bit wrap-around is written
    out ([int_wrap]), and a store past the end of an array [main]
    allocated is an outcome of its own ([Overrun]).  [uint64_t] counters
    wrap modulo [2^64].  A [cpu_set_t] holds the CPU numbers below
    [CPU_SETSIZE] only.  [double] seconds are idealised as exact
    rationals of [Q], with the IEEE results of a division by zero kept
    apart ([dbl]): of a value of the program an element of [Q] gives the
    sign, the order and whether it is zero, and its digits only up to
    rounding. *)

From Stdlib Require Import String.
From Stdlib Require Import ZArith List Bool Lia QArith.
Import ListNotations.
Local Open Scope Z_scope.

Set Implicit Arguments.

(* ------------------------------------------------------------------ *)
(** ** Machine data *)

Definition INT_MAX : Z := 2147483647.
Definition INT_MIN : Z := -2147483648.

(** The value of an [int] expression whose mathematical value is [z]:
    32 bits, two's complement. *)
Definition int_wrap (z : Z) : Z := (z + 2 ^ 31) mod 2 ^ 32 - 2 ^ 31.

(** [cpu_set_t] has [CPU_SETSIZE] bits. *)
Definition CPU_SETSIZE : Z := 1024.

(** [CPU_ZERO(&cpuset); CPU_SET(c, &cpuset);]: the macro leaves the set
    alone when [c] is not below [CPU_SETSIZE]. *)
Definition cpu_set_of (c : Z) : list Z :=
  if (0 <=? c) && (c <? CPU_SETSIZE) then [c] else [].

(** [uint64_t] addition, as in [data->ops += k]. *)
Definition u64_add (a b : Z) : Z := (a + b) mod 2 ^ 64.

(** [(void * ) -1] *)
Definition MAP_FAILED : Z := -1.

Record timespec := mkTimespec { tv_sec : Z; tv_nsec : Z }.

(** [(end.tv_sec - start.tv_sec) + (end.tv_nsec - start.tv_nsec) / 1e9] *)
Definition elapsed_between (start end_ : timespec) : Q :=
  (inject_Z (tv_sec end_ - tv_sec start)
   + inject_Z (tv_nsec end_ - tv_nsec start) / inject_Z 1000000000)%Q.

(** A [double] that results from a division: finite, infinite or NaN. *)
Inductive dbl := Finite (q : Q) | PosInf | NegInf | NaN.

(** IEEE division of two finite values: [x / 0.0] is an infinity or, for
    [0.0 / 0.0], NaN; it never traps. *)
Definition fdiv (a b : Q) : dbl :=
  if Qeq_bool b 0 then
    if Qeq_bool a 0 then NaN
    else if Qle_bool 0 a then PosInf else NegInf
  else Finite (a / b)%Q.

Inductive prot := PROT_READ | PROT_READ_WRITE.

(** ** NUMA topology (libnuma) *)

(** [node_to_cpus n] is [None] when [numa_node_to_cpus] fails, and
    otherwise the CPU mask of the node; bit [i] is
    [numa_bitmask_isbitset(cpus, i)]. *)
Record topology := mkTopology {
  numa_available : bool;
  numa_num_configured_nodes : Z;
  numa_num_configured_cpus : Z;
  numa_node_to_cpus : Z -> option Z
}.

(** [0, 1, ..., n-1]: the values of [i] in [for (int i = 0; i < n; i++)]. *)
Definition zrange (n : Z) : list Z := map Z.of_nat (seq 0 (Z.to_nat n)).

(** ** Operations a thread performs *)

Inductive event :=
| EvSetaffinity (cpuset : list Z)            (* sched_setaffinity(0, .., &cpuset) *)
| EvMmap (hint len res : Z)                  (* mmap(hint, len, RW, PRIVATE|ANON, -1, 0) = res *)
| EvMemset (addr byte len : Z)
| EvStore (addr byte : Z)                    (* one volatile byte store *)
| EvMprotect (addr len : Z) (p : prot)
| EvMunmap (addr len : Z)
| EvPerror (msg : string)
| EvReadyInc                                 (* __sync_fetch_and_add(&ready_count, 1) *)
| EvReadGo (v : bool)                        (* one evaluation of [!go] *)
| EvReadStop (v : bool)                      (* one evaluation of [!stop_spinners] *)
| EvPause                                    (* the pause instruction *)
| EvSpinCount (v : Z)                        (* data->spin_count++ stores v *)
| EvClock (t : timespec).                    (* clock_gettime(CLOCK_MONOTONIC, ..) *)

(** What the rest of the machine answers to one thread. *)
Record env := mkEnv {
  topo : topology;
  mmap_result : nat -> Z;      (* result of the thread's n-th mmap call *)
  clock : nat -> timespec;     (* result of its n-th clock_gettime call *)
  go_polls : nat;              (* polls of [go] that read 0 before one reads 1 *)
  stop_polls : nat             (* polls of [stop_spinners] that read 0 before one reads 1 *)
}.

(** ** The thread monad *)

Record st (D : Type) := mkSt {
  data : D;                    (* the record [arg] points to *)
  trace : list event;          (* operations so far, oldest first *)
  mmaps : nat;                 (* mmap calls so far *)
  clocks : nat                 (* clock_gettime calls so far *)
}.

Definition M (D A : Type) : Type := env -> st D -> A * st D.

Definition ret {D A} (a : A) : M D A := fun _ s => (a, s).

Definition bind {D A B} (m : M D A) (f : A -> M D B) : M D B :=
  fun e s => let (a, s') := m e s in f a e s'.

Declare Scope thread_scope.
Delimit Scope thread_scope with thread.
Notation "x <- m ;; k" := (bind m (fun x => k))
  (at level 61, m at next level, right associativity) : thread_scope.
Notation "m ;; k" := (bind m (fun _ => k))
  (at level 61, right associativity) : thread_scope.
Local Open Scope thread_scope.

Definition emit {D} (ev : event) : M D unit :=
  fun _ s => (tt, mkSt (data s) (trace s ++ [ev]) (mmaps s) (clocks s)).

Definition get_data {D} : M D D := fun _ s => (data s, s).

Definition modify_data {D} (f : D -> D) : M D unit :=
  fun _ s => (tt, mkSt (f (data s)) (trace s) (mmaps s) (clocks s)).

Definition ask {D} : M D env := fun e s => (e, s).

Definition mmap {D} (hint len : Z) : M D Z :=
  fun e s =>
    let r := mmap_result e (mmaps s) in
    (r, mkSt (data s) (trace s ++ [EvMmap hint len r]) (S (mmaps s)) (clocks s)).

Definition clock_gettime {D} : M D timespec :=
  fun e s =>
    let t := clock e (clocks s) in
    (t, mkSt (data s) (trace s ++ [EvClock t]) (mmaps s) (S (clocks s))).

(** [for (int i = 0; i < n; i++) body], where [body] answers [false] on
    [break]. *)
Fixpoint for_from {D} (fuel : nat) (i : Z) (body : Z -> M D bool) : M D unit :=
  match fuel with
  | O => ret tt
  | S fuel' =>
      continue <- body i ;;
      if continue : bool then for_from fuel' (i + 1) body else ret tt
  end.

Definition for_loop {D} (n : Z) (body : Z -> M D bool) : M D unit :=
  for_from (Z.to_nat n) 0 body.

(** [while (!go) pause;] for a thread that sees [go] at its
    [go_polls]-th-plus-one poll. *)
Fixpoint poll_go_from {D} (k : nat) : M D unit :=
  match k with
  | O => emit (EvReadGo true)
  | S k' => emit (EvReadGo false) ;; emit EvPause ;; poll_go_from k'
  end.

Definition wait_for_go {D} : M D unit :=
  e <- ask ;; poll_go_from (go_polls e).

Definition start_state {D} (d : D) : st D := mkSt d [] O O.

(** The final state of a thread body run on [d]. *)
Definition exec {D A} (m : M D A) (e : env) (d : D) : st D :=
  snd (m e (start_state d)).

(* ------------------------------------------------------------------ *)
(** ** microbenchmark1.c and microbenchmark2.c *)

Module Bench1.

Record worker_data_t := mkWorker {
  node : Z;
  region : Z;
  elapsed_sec : Q;
  ops : Z
}.

Definition set_region (r : Z) (d : worker_data_t) : worker_data_t :=
  mkWorker (node d) r (elapsed_sec d) (ops d).
Definition set_elapsed (t : Q) (d : worker_data_t) : worker_data_t :=
  mkWorker (node d) (region d) t (ops d).
Definition add_ops (k : Z) (d : worker_data_t) : worker_data_t :=
  mkWorker (node d) (region d) (elapsed_sec d) (u64_add (ops d) k).

(** The first CPU of the mask below [ncpus], for the loop of [pin_to_node]
    that stops at the first set bit. *)
Definition first_cpu (mask ncpus : Z) : list Z :=
  match filter (Z.testbit mask) (zrange ncpus) with
  | [] => []
  | c :: _ => cpu_set_of c
  end.

Definition pin_to_node (n : Z) : M worker_data_t unit :=
  e <- ask ;;
  match numa_node_to_cpus (topo e) n with
  | None => ret tt
  | Some cpus =>
      emit (EvSetaffinity (first_cpu cpus (numa_num_configured_cpus (topo e))))
  end.

Section Worker.
(** [NUM_OPS] is 20000 in microbenchmark1.c and 10000 in
    microbenchmark2.c; the region is 8 MB in the first and
    [size_kb * 1024] in the second. *)
Variables NUM_OPS REGION_SIZE : Z.

Definition worker : M worker_data_t unit :=
  d <- get_data ;;
  pin_to_node (node d) ;;
  r <- mmap 0 REGION_SIZE ;;
  modify_data (set_region r) ;;
  if r =? MAP_FAILED then
    emit (EvPerror "mmap")
  else
    emit (EvMemset r 171 REGION_SIZE) ;;
    emit EvReadyInc ;;
    wait_for_go ;;
    start <- clock_gettime ;;
    for_loop NUM_OPS (fun _ =>
      emit (EvMprotect r REGION_SIZE PROT_READ) ;;
      emit (EvMprotect r REGION_SIZE PROT_READ_WRITE) ;;
      modify_data (add_ops 2) ;;
      ret true) ;;
    end_ <- clock_gettime ;;
    modify_data (set_elapsed (elapsed_between start end_)) ;;
    emit (EvMunmap r REGION_SIZE).
End Worker.

(** [NUM_OPS] and [REGION_SIZE] of microbenchmark1.c. *)
Definition NUM_OPS : Z := 20000.
Definition REGION_SIZE : Z := 8 * 1024 * 1024.

(** [data = calloc(..)], then [data[i].node = i; data[i].ops = 0]. *)
Definition initial_data (i : Z) : worker_data_t := mkWorker i 0 0 0.

Record totals := mkTotals { total_ops : Z; max_time : Q }.

(** One iteration of the join loop of [main] (lines 137-144), after
    [pthread_join] has returned for worker [d]. *)
Definition join_one (acc : totals) (d : worker_data_t) : totals :=
  mkTotals (u64_add (total_ops acc) (ops d))
           (if Qle_bool (elapsed_sec d) (max_time acc)
            then max_time acc else elapsed_sec d).

(** [total_ops = 0; max_time = 0;] followed by the join loop over
    [data[0 .. num_nodes-1]]. *)
Definition main_aggregate (data : list worker_data_t) : totals :=
  fold_left join_one data (mkTotals 0 0).

(** ["Throughput: %.0f ops/sec"], [total_ops / max_time]. *)
Definition main_throughput (t : totals) : dbl :=
  fdiv (inject_Z (total_ops t)) (max_time t).

End Bench1.

(* ------------------------------------------------------------------ *)
(** ** microbenchmark3.c *)

Module Bench3.

Definition WORKER_NODE : Z := 0.

Record spinner_data_t := mkSpinner {
  id : Z;
  node : Z;
  cpu : Z;
  spin_count : Z
}.

Record worker_data_t := mkWorker {
  region : Z;
  elapsed_sec : Q;
  ops : Z
}.

Definition set_region (r : Z) (d : worker_data_t) : worker_data_t :=
  mkWorker r (elapsed_sec d) (ops d).
Definition set_elapsed (t : Q) (d : worker_data_t) : worker_data_t :=
  mkWorker (region d) t (ops d).
Definition add_ops (k : Z) (d : worker_data_t) : worker_data_t :=
  mkWorker (region d) (elapsed_sec d) (u64_add (ops d) k).
Definition set_spin_count (v : Z) (d : spinner_data_t) : spinner_data_t :=
  mkSpinner (id d) (node d) (cpu d) v.

(** The loop of [get_cpu_for_node]: [i] runs over the remaining [fuel]
    CPU numbers, [count] is the number of set bits passed so far. *)
Fixpoint scan_cpus (cpus index : Z) (fuel : nat) (i count : Z) : Z :=
  match fuel with
  | O => -1
  | S fuel' =>
      if Z.testbit cpus i then
        if count =? index then i
        else scan_cpus cpus index fuel' (i + 1) (count + 1)
      else scan_cpus cpus index fuel' (i + 1) count
  end.

Definition get_cpu_for_node (t : topology) (n index : Z) : Z :=
  match numa_node_to_cpus t n with
  | None => -1
  | Some cpus =>
      scan_cpus cpus index (Z.to_nat (numa_num_configured_cpus t)) 0 0
  end.

Definition pin_to_cpu {D} (c : Z) : M D unit :=
  emit (EvSetaffinity (cpu_set_of c)).

Definition pin_to_node_first_cpu {D} (n : Z) : M D unit :=
  e <- ask ;;
  let c := get_cpu_for_node (topo e) n 0 in
  if 0 <=? c then pin_to_cpu c else ret tt.

(** [while (!stop_spinners) { data->spin_count++; pause; }] for a spinner
    that sees the stop flag at its [k]-th-plus-one poll. *)
Fixpoint spin_from (k : nat) : M spinner_data_t unit :=
  match k with
  | O => emit (EvReadStop true)
  | S k' =>
      emit (EvReadStop false) ;;
      d <- get_data ;;
      modify_data (set_spin_count (u64_add (spin_count d) 1)) ;;
      emit (EvSpinCount (u64_add (spin_count d) 1)) ;;
      emit EvPause ;;
      spin_from k'
  end.

Definition spinner : M spinner_data_t unit :=
  d <- get_data ;;
  pin_to_cpu (cpu d) ;;
  emit EvReadyInc ;;
  wait_for_go ;;
  e <- ask ;;
  spin_from (stop_polls e).

Section Worker.
Variables NUM_OPS REGION_SIZE : Z.

Definition worker : M worker_data_t unit :=
  pin_to_node_first_cpu WORKER_NODE ;;
  r <- mmap 0 REGION_SIZE ;;
  modify_data (set_region r) ;;
  if r =? MAP_FAILED then
    emit (EvPerror "mmap")
  else
    emit (EvMemset r 171 REGION_SIZE) ;;
    emit EvReadyInc ;;
    wait_for_go ;;
    start <- clock_gettime ;;
    for_loop NUM_OPS (fun _ =>
      emit (EvMprotect r REGION_SIZE PROT_READ) ;;
      emit (EvMprotect r REGION_SIZE PROT_READ_WRITE) ;;
      modify_data (add_ops 2) ;;
      ret true) ;;
    end_ <- clock_gettime ;;
    modify_data (set_elapsed (elapsed_between start end_)) ;;
    emit (EvMunmap r REGION_SIZE).
End Worker.

Definition NUM_OPS : Z := 20000.
Definition REGION_SIZE : Z := 64 * 1024.

(** *** The thread-creation phase of [main] *)

(** [idx], and the entries [spinner_data[0 .. idx-1]] whose threads were
    created, in index order. *)
Record creation := mkCreation { idx : Z; created : list spinner_data_t }.

(** What [main] holds when it enters the ready-wait loop. *)
Record launch := mkLaunch {
  total_spinners : Z;
  expected_ready : Z;
  spinner_data : list spinner_data_t
}.

(** What a stretch of [main] comes to: it goes on with a value, it
    returns from [main] with an exit status, or it stores past the end of
    an array it allocated, after which the program has no defined
    behaviour. *)
Inductive outcome (A : Type) :=
| Next (a : A)
| Exit (status : Z)
| Overrun.
Arguments Exit {A} status.
Arguments Overrun {A}.

(** A [for] loop over [l] whose body may leave [main]. *)
Fixpoint for_each {X} (l : list Z) (body : Z -> X -> outcome X) (x : X)
  : outcome X :=
  match l with
  | [] => Next x
  | i :: l' =>
      match body i x with
      | Next x' => for_each l' body x'
      | Exit status => Exit status
      | Overrun => Overrun
      end
  end.

Section Main.
Variable t : topology.
Variable spinners_per_node : Z.
(** Whether the [pthread_create] call that would start thread number
    [n] of the run succeeds. *)
Variable pthread_create_ok : Z -> bool.

(** Body of the inner loop (lines 212-227).  [spinner_threads] and
    [spinner_data] were allocated with [capacity] entries; the stores
    into [spinner_data[idx]] come before the [pthread_create]. *)
Definition try_spinner (capacity n s : Z) (c : creation) : outcome creation :=
  let cpu := get_cpu_for_node t n s in
  if cpu <? 0 then Next c
  else if capacity <=? idx c then Overrun
  else if pthread_create_ok (idx c)
       then Next (mkCreation (idx c + 1)
                    (created c ++ [mkSpinner (idx c) n cpu 0]))
       else Exit 1.

(** Lines 207-229. *)
Definition create_spinners (capacity : Z) : outcome creation :=
  for_each (zrange (numa_num_configured_nodes t))
    (fun n c =>
       if n =? WORKER_NODE then Next c
       else for_each (zrange spinners_per_node) (try_spinner capacity n) c)
    (mkCreation 0 []).

(** [total_spinners = spinners_per_node * (num_nodes - 1)] (line 187),
    the value printed first. *)
Definition initial_total_spinners : Z :=
  int_wrap (spinners_per_node * (numa_num_configured_nodes t - 1)).

(** [main] from the NUMA check to the creation of the worker thread
    (lines 179-238): the exit status, or the counts with which the
    ready-wait loop is entered. *)
Definition main_create_threads : outcome launch :=
  if negb (numa_available t) then Exit 1
  else
    let total0 := initial_total_spinners in
    let expected0 := int_wrap (total0 + 1) in
    let spawned :=
      if 0 <? total0 then
        match create_spinners total0 with
        | Next c => Next (mkLaunch (idx c) (int_wrap (idx c + 1)) (created c))
        | Exit status => Exit status
        | Overrun => Overrun
        end
      else Next (mkLaunch total0 expected0 [])
    in
    match spawned with
    | Next l =>
        if pthread_create_ok (Z.of_nat (length (spinner_data l)))
        then Next l else Exit 1
    | Exit status => Exit status
    | Overrun => Overrun
    end.
End Main.

(** *** The report of [main] (lines 264-273) *)

Record report := mkReport {
  rep_ops : Z;
  rep_wall : Q;
  rep_throughput : dbl;
  rep_latency : dbl
}.

Definition main_report (w : worker_data_t) : report :=
  mkReport (ops w) (elapsed_sec w)
           (fdiv (inject_Z (ops w)) (elapsed_sec w))
           (fdiv (elapsed_sec w * inject_Z 1000000)%Q (inject_Z (ops w))).

(** [worker_data_t worker_data = {0};] *)
Definition initial_worker_data : worker_data_t := mkWorker 0 0 0.

End Bench3.

(* ------------------------------------------------------------------ *)
(** ** microbenchmark4.c *)

(** [get_cpu_for_node], [pin_to_cpu], [pin_to_node_first_cpu], [spinner],
    the two records, the thread-creation phase of [main] and its report
    have the same text in microbenchmark4.c as in microbenchmark3.c (the
    creation loop only lacks the warning on standard error); they are
    taken from [Bench3]. *)
Module Bench4.
Import Bench3.

Inductive op_type_t := OP_MPROTECT | OP_MUNMAP | OP_MMAP_FULL.

Section Workloads.
Variables NUM_OPS REGION_SIZE : Z.

Definition do_mprotect_workload : M worker_data_t unit :=
  r <- mmap 0 REGION_SIZE ;;
  modify_data (set_region r) ;;
  if r =? MAP_FAILED then
    emit (EvPerror "mmap")
  else
    emit (EvMemset r 171 REGION_SIZE) ;;
    start <- clock_gettime ;;
    for_loop NUM_OPS (fun _ =>
      emit (EvMprotect r REGION_SIZE PROT_READ) ;;
      emit (EvMprotect r REGION_SIZE PROT_READ_WRITE) ;;
      modify_data (add_ops 2) ;;
      ret true) ;;
    end_ <- clock_gettime ;;
    modify_data (set_elapsed (elapsed_between start end_)) ;;
    emit (EvMunmap r REGION_SIZE).

(** One iteration of the loop of [do_munmap_workload] (lines 158-169). *)
Definition munmap_iteration (_ : Z) : M worker_data_t bool :=
  d <- get_data ;;
  let addr := region d in
  emit (EvMunmap addr REGION_SIZE) ;;
  r <- mmap addr REGION_SIZE ;;
  modify_data (set_region r) ;;
  if r =? MAP_FAILED then
    emit (EvPerror "mmap in loop") ;;
    ret false
  else
    modify_data (add_ops 1) ;;
    ret true.

Definition do_munmap_workload : M worker_data_t unit :=
  r <- mmap 0 REGION_SIZE ;;
  modify_data (set_region r) ;;
  if r =? MAP_FAILED then
    emit (EvPerror "mmap")
  else
    emit (EvMemset r 171 REGION_SIZE) ;;
    start <- clock_gettime ;;
    for_loop NUM_OPS munmap_iteration ;;
    end_ <- clock_gettime ;;
    modify_data (set_elapsed (elapsed_between start end_)) ;;
    d <- get_data ;;
    if region d =? MAP_FAILED then ret tt
    else emit (EvMunmap (region d) REGION_SIZE).

(** One iteration of the loop of [do_mmap_full_workload] (lines 183-197). *)
Definition mmap_full_iteration (_ : Z) : M worker_data_t bool :=
  r <- mmap 0 REGION_SIZE ;;
  modify_data (set_region r) ;;
  if r =? MAP_FAILED then
    emit (EvPerror "mmap in loop") ;;
    ret false
  else
    emit (EvStore r 171) ;;
    emit (EvStore (r + (REGION_SIZE - 1)) 205) ;;
    emit (EvMunmap r REGION_SIZE) ;;
    modify_data (add_ops 1) ;;
    ret true.

Definition do_mmap_full_workload : M worker_data_t unit :=
  start <- clock_gettime ;;
  for_loop NUM_OPS mmap_full_iteration ;;
  end_ <- clock_gettime ;;
  modify_data (set_elapsed (elapsed_between start end_)).

(** [operation] is the global selected on the command line. *)
Definition worker (operation : op_type_t) : M worker_data_t unit :=
  pin_to_node_first_cpu WORKER_NODE ;;
  emit EvReadyInc ;;
  wait_for_go ;;
  match operation with
  | OP_MPROTECT => do_mprotect_workload
  | OP_MUNMAP => do_munmap_workload
  | OP_MMAP_FULL => do_mmap_full_workload
  end.
End Workloads.

Definition NUM_OPS : Z := 10000.
Definition REGION_SIZE : Z := 64 * 1024.

End Bench4.

(* ------------------------------------------------------------------ *)
(** ** Classification of the operations of a trace *)

(** Memory-management system calls. *)
Definition is_mm_syscall (ev : event) : bool :=
  match ev with
  | EvMmap _ _ _ | EvMprotect _ _ _ | EvMunmap _ _ => true
  | _ => false
  end.

(** Writes to memory that other threads read: of the three barrier words
    a participant only ever writes [ready_count]. *)
Definition is_shared_write (ev : event) : bool :=
  match ev with
  | EvReadyInc => true
  | _ => false
  end.

(** Set-up work: affinity binding, region allocation, fault-in. *)
Definition is_setup (ev : event) : bool :=
  match ev with
  | EvSetaffinity _ | EvMmap _ _ _ | EvMemset _ _ _ => true
  | _ => false
  end.

Definition is_mprotect (ev : event) : bool :=
  match ev with
  | EvMprotect _ _ _ => true
  | _ => false
  end.

Definition is_ready_inc (ev : event) : bool :=
  match ev with
  | EvReadyInc => true
  | _ => false
  end.

Definition is_clock (ev : event) : bool :=
  match ev with
  | EvClock _ => true
  | _ => false
  end.

Definition is_go_seen (ev : event) : bool :=
  match ev with
  | EvReadGo true => true
  | _ => false
  end.

Definition is_munmap (ev : event) : bool :=
  match ev with
  | EvMunmap _ _ => true
  | _ => false
  end.


(** The part of a trace before the first operation satisfying [p], and the
    part after it. *)
Fixpoint before (p : event -> bool) (tr : list event) : list event :=
  match tr with
  | [] => []
  | ev :: tr' => if p ev then [] else ev :: before p tr'
  end.

Fixpoint after (p : event -> bool) (tr : list event) : list event :=
  match tr with
  | [] => []
  | ev :: tr' => if p ev then tr' else after p tr'
  end.

(** "All set-up precedes the ready increment, and the timed section starts
    right after [go] is seen": the thread increments [ready_count], no
    operation after the increment and before the first clock reading is
    set-up work, and the operation that follows the poll that saw [go] is
    that clock reading. *)
Definition setup_before_ready (tr : list event) : bool :=
  existsb is_ready_inc tr
  && forallb (fun ev => negb (is_setup ev))
       (before is_clock (after is_ready_inc tr)).

Definition timed_loop_follows_go (tr : list event) : bool :=
  match after is_go_seen tr with
  | EvClock _ :: _ => true
  | _ => false
  end.

(** The values stored into [spin_count], in order. *)
Fixpoint spin_values (tr : list event) : list Z :=
  match tr with
  | [] => []
  | EvSpinCount v :: tr' => v :: spin_values tr'
  | _ :: tr' => spin_values tr'
  end.

(** A list of integers that never decreases. *)
Fixpoint nondecreasing (l : list Z) : Prop :=
  match l with
  | [] => True
  | x :: l' =>
      match l' with
      | [] => True
      | y :: _ => x <= y /\ nondecreasing l'
      end
  end.

(** What a spinner does between seeing [go] and seeing [stop]. *)
Definition is_spin_step (ev : event) : bool :=
  match ev with
  | EvReadStop _ | EvSpinCount _ | EvPause => true
  | _ => false
  end.

(* ------------------------------------------------------------------ *)
(** ** The ready/go/stop barrier as a transition system

    One step is one access to the shared words [ready_count], [go] and
    [stop_spinners] by the driver ([main]) or by one participant, taken in
    any interleaving; the thread-local work between two accesses is folded
    into the step that follows it. *)

Module Barrier.

Inductive role := Worker | Spinner.

(** Where a participant stands. *)
Inductive tpc :=
| Setup        (* created, has not yet executed __sync_fetch_and_add *)
| Polling      (* has incremented ready_count, is in [while (!go)] *)
| Running      (* has left the poll loop: timed loop, or spin loop *)
| Returned     (* its thread function returned after the main loop *)
| Failed.      (* worker: returned on MAP_FAILED, before the increment *)

Record thread := mkThread { t_role : role; t_pc : tpc }.

(** Where [main] stands. *)
Inductive dpc :=
| Creating (todo : list role)   (* the pthread_create calls still to make *)
| ReadyWait                     (* while (ready_count < expected) usleep(1000); *)
| Arming                        (* has left that loop, is about to set go = 1 *)
| JoinWorkers                   (* pthread_join on the worker(s) *)
| Stopping                      (* is about to set stop_spinners = 1 *)
| JoinSpinners                  (* pthread_join on the spinners *)
| Finished
| Exited.                       (* return 1 after a failed pthread_create *)

Record config := mkConfig {
  cfg_roles : list role;   (* the threads [main] creates, in order *)
  cfg_expected : Z;        (* [num_nodes], or [expected_ready] *)
  cfg_prealloc : bool;     (* the worker maps its region before the increment *)
  cfg_stop : bool          (* [main] has a stop phase (benchmarks 3 and 4) *)
}.

Record state := mkState {
  ready_count : Z;
  go : bool;
  stop_spinners : bool;
  threads : list thread;
  driver : dpc
}.

Definition init (cfg : config) : state :=
  mkState 0 false false [] (Creating (cfg_roles cfg)).

(** [Driver ok]: [main] takes its next step, [ok] telling whether a
    [pthread_create] made in it succeeds.  [Thread i ok]: participant [i]
    takes its next step, [ok] telling whether an [mmap] made in it
    succeeds. *)
Inductive action := Driver (create_ok : bool) | Thread (i : nat) (mmap_ok : bool).

Definition finished (t : thread) : bool :=
  match t_pc t with
  | Returned | Failed => true
  | _ => false
  end.

Definition is_worker (t : thread) : bool :=
  match t_role t with
  | Worker => true
  | Spinner => false
  end.

(** The next step of a participant: its new position and what it adds to
    [ready_count]. *)
Definition thread_step (cfg : config) (mmap_ok : bool) (s : state) (t : thread)
  : thread * Z :=
  match t_pc t with
  | Setup =>
      match t_role t with
      | Worker =>
          if cfg_prealloc cfg && negb mmap_ok
          then (mkThread Worker Failed, 0)
          else (mkThread Worker Polling, 1)
      | Spinner => (mkThread Spinner Polling, 1)
      end
  | Polling =>
      if go s then (mkThread (t_role t) Running, 0) else (t, 0)
  | Running =>
      match t_role t with
      | Worker => (mkThread Worker Returned, 0)
      | Spinner =>
          if stop_spinners s then (mkThread Spinner Returned, 0) else (t, 0)
      end
  | Returned | Failed => (t, 0)
  end.

Fixpoint set_nth (i : nat) (t : thread) (l : list thread) : list thread :=
  match l, i with
  | [], _ => []
  | _ :: l', O => t :: l'
  | x :: l', S i' => x :: set_nth i' t l'
  end.

Definition with_driver (d : dpc) (s : state) : state :=
  mkState (ready_count s) (go s) (stop_spinners s) (threads s) d.

Definition driver_step (cfg : config) (create_ok : bool) (s : state) : state :=
  match driver s with
  | Creating [] => with_driver ReadyWait s
  | Creating (r :: todo) =>
      if create_ok
      then mkState (ready_count s) (go s) (stop_spinners s)
                   (threads s ++ [mkThread r Setup]) (Creating todo)
      else with_driver Exited s
  | ReadyWait =>
      if ready_count s <? cfg_expected cfg then s else with_driver Arming s
  | Arming =>
      mkState (ready_count s) true (stop_spinners s) (threads s) JoinWorkers
  | JoinWorkers =>
      if forallb (fun t => implb (is_worker t) (finished t)) (threads s)
      then with_driver (if cfg_stop cfg then Stopping else Finished) s
      else s
  | Stopping =>
      mkState (ready_count s) (go s) true (threads s) JoinSpinners
  | JoinSpinners =>
      if forallb finished (threads s) then with_driver Finished s else s
  | Finished | Exited => s
  end.

Definition step (cfg : config) (a : action) (s : state) : state :=
  match a with
  | Driver ok => driver_step cfg ok s
  | Thread i ok =>
      match nth_error (threads s) i with
      | None => s
      | Some t =>
          let (t', inc) := thread_step cfg ok s t in
          mkState (ready_count s + inc) (go s) (stop_spinners s)
                  (set_nth i t' (threads s)) (driver s)
      end
  end.

(** The state after a schedule, a list of actions taken from left to
    right. *)
Definition run (cfg : config) (sched : list action) (s : state) : state :=
  fold_left (fun s a => step cfg a s) sched s.

(** A participant that has begun its main loop. *)
Definition in_main_loop (t : thread) : bool :=
  match t_pc t with
  | Running | Returned => true
  | _ => false
  end.

(** A participant that has executed its ready increment. *)
Definition incremented (t : thread) : bool :=
  match t_pc t with
  | Polling | Running | Returned => true
  | _ => false
  end.

Definition has_failed (t : thread) : bool :=
  match t_pc t with
  | Failed => true
  | _ => false
  end.

(** Some worker has returned on a failed initial [mmap]. *)
Definition worker_failed (s : state) : bool := existsb has_failed (threads s).

(** *** The four programs *)

(** microbenchmark1.c and microbenchmark2.c: [num_nodes] workers, no
    spinner, no stop phase; [main] waits for [ready_count >= num_nodes]. *)
Definition bench1_config (num_nodes : Z) : config :=
  mkConfig (repeat Worker (Z.to_nat num_nodes)) num_nodes true false.

(** microbenchmark3.c: the spinners of [spinner_data], then the worker. *)
Definition bench3_config (l : Bench3.launch) : config :=
  mkConfig (map (fun _ => Spinner) (Bench3.spinner_data l) ++ [Worker])
           (Bench3.expected_ready l) true true.

(** microbenchmark4.c: as microbenchmark3.c, but the worker maps its
    region only after the barrier. *)
Definition bench4_config (l : Bench3.launch) : config :=
  mkConfig (map (fun _ => Spinner) (Bench3.spinner_data l) ++ [Worker])
           (Bench3.expected_ready l) false true.

End Barrier.

(* ------------------------------------------------------------------ *)
(** ** The operations of the pieces of a thread body *)

(** The operations of the poll loop [while (!go) pause;]. *)
Definition go_poll_events (e : env) : list event :=
  concat (repeat [EvReadGo false; EvPause] (go_polls e)) ++ [EvReadGo true].

(** The operations of [n] iterations of the protection-toggle loop. *)
Definition toggle_events (r len : Z) (n : Z) : list event :=
  concat (repeat [EvMprotect r len PROT_READ; EvMprotect r len PROT_READ_WRITE]
                 (Z.to_nat n)).

(** The operations of [pin_to_node] (microbenchmark1.c, 2.c). *)
Definition pin_to_node_events (e : env) (n : Z) : list event :=
  match numa_node_to_cpus (topo e) n with
  | None => []
  | Some cpus =>
      [EvSetaffinity (Bench1.first_cpu cpus (numa_num_configured_cpus (topo e)))]
  end.

(** The operations of [pin_to_node_first_cpu] (microbenchmark3.c, 4.c). *)
Definition pin_first_cpu_events (e : env) (n : Z) : list event :=
  if 0 <=? Bench3.get_cpu_for_node (topo e) n 0
  then [EvSetaffinity (cpu_set_of (Bench3.get_cpu_for_node (topo e) n 0))]
  else [].

(** The timed section of the protection-toggle workload. *)
Definition timed_toggle_events (e : env) (r len n : Z) : list event :=
  [EvClock (clock e 0%nat)] ++ toggle_events r len n
  ++ [EvClock (clock e 1%nat); EvMunmap r len].

(** The operations of the microbenchmark4.c worker before its workload. *)
Definition worker4_prologue (e : env) : list event :=
  pin_first_cpu_events e Bench3.WORKER_NODE ++ [EvReadyInc] ++ go_poll_events e.

(** The operations of the spin loop of a spinner whose counter holds [c]
    and that sees the stop flag at its [k]-th-plus-one poll. *)
Fixpoint spin_events (c : Z) (k : nat) : list event :=
  match k with
  | O => [EvReadStop true]
  | S k' =>
      EvReadStop false :: EvSpinCount (u64_add c 1) :: EvPause
      :: spin_events (u64_add c 1) k'
  end.

(** The operations of the pre-allocation of a region that maps at [r]. *)
Definition prealloc_events (len r : Z) : list event :=
  [EvMmap 0 len r; EvMemset r 171 len].

(** Thread bodies only ever append to the trace. *)
Definition extends {D A} (m : M D A) : Prop :=
  forall e s, exists evs, trace (snd (m e s)) = trace s ++ evs.

(** The sum of the operation counts of the workers of microbenchmark1.c. *)
Definition sum_of_ops (ds : list Bench1.worker_data_t) : Z :=
  fold_right Z.add 0 (map Bench1.ops ds).

(** The array [data] of microbenchmark1.c once every worker has been
    joined, in a run that passed the barrier; worker [i] ran against
    [envs i]. *)
Definition joined_data (num_nodes : Z) (envs : Z -> env)
  : list Bench1.worker_data_t :=
  map (fun i => data (exec (Bench1.worker Bench1.NUM_OPS Bench1.REGION_SIZE)
                           (envs i) (Bench1.initial_data i)))
      (zrange num_nodes).

(** The loop indices [s < spinners_per_node] at which node [n] has a CPU,
    that is, at which the creation loop of [main] does not [continue]. *)
Definition cpu_slots (t : topology) (spinners_per_node n : Z) : list Z :=
  filter (fun s => 0 <=? Bench3.get_cpu_for_node t n s) (zrange spinners_per_node).

(** The pairs (node, s) at which [main] creates a spinner, in loop order. *)
Definition spinner_slots (t : topology) (spinners_per_node : Z) : list (Z * Z) :=
  flat_map (fun n => if n =? Bench3.WORKER_NODE then []
                     else map (pair n) (cpu_slots t spinners_per_node n))
           (zrange (numa_num_configured_nodes t)).

(** The entries [spinner_data[i], spinner_data[i+1], ..] written for a list
    of such pairs. *)
Fixpoint slot_entries (t : topology) (i : Z) (slots : list (Z * Z))
  : list Bench3.spinner_data_t :=
  match slots with
  | [] => []
  | (n, s) :: rest =>
      Bench3.mkSpinner i n (Bench3.get_cpu_for_node t n s) 0
      :: slot_entries t (i + 1) rest
  end.

(** Two nodes with one CPU each: CPU 0 on node 0, CPU 1 on node 1. *)
Definition small_topology : topology :=
  mkTopology true 2 2
    (fun n => if n =? 0 then Some 1 else if n =? 1 then Some 2 else None).

(** Four nodes with one CPU each: CPU [n] on node [n]. *)
Definition four_node_topology : topology :=
  mkTopology true 4 4
    (fun n => if (0 <=? n) && (n <? 4) then Some (2 ^ n) else None).

(** ** Invariant of the barrier *)

(** The number of participants that have executed their ready increment,
    and the number of workers that returned on a failed mapping. *)
Definition increments (l : list Barrier.thread) : Z :=
  fold_right (fun t acc => (if Barrier.incremented t then 1 else 0) + acc) 0 l.

Definition failures (l : list Barrier.thread) : Z :=
  fold_right (fun t acc => (if Barrier.has_failed t then 1 else 0) + acc) 0 l.

(** The [pthread_create] calls [main] has still to make. *)
Definition pending (d : Barrier.dpc) : nat :=
  match d with
  | Barrier.Creating todo => length todo
  | _ => O
  end.

(** [main] has set [go]. *)
Definition past_arming (d : Barrier.dpc) : bool :=
  match d with
  | Barrier.JoinWorkers | Barrier.Stopping | Barrier.JoinSpinners
  | Barrier.Finished => true
  | _ => false
  end.

Record barrier_inv (cfg : Barrier.config) (s : Barrier.state) : Prop := {
  inv_go : Barrier.go s = true ->
           Barrier.cfg_expected cfg <= Barrier.ready_count s;
  inv_arming : Barrier.driver s = Barrier.Arming ->
               Barrier.cfg_expected cfg <= Barrier.ready_count s;
  inv_past : past_arming (Barrier.driver s) = true -> Barrier.go s = true;
  inv_main : forall t, In t (Barrier.threads s) ->
                       Barrier.in_main_loop t = true -> Barrier.go s = true;
  inv_count : Barrier.ready_count s = increments (Barrier.threads s);
  inv_len : (length (Barrier.threads s) + pending (Barrier.driver s)
             <= length (Barrier.cfg_roles cfg))%nat
}.

(** [main] is still creating threads or waiting in the ready-wait loop, or
    has left on a failed [pthread_create]. *)
Definition driver_not_armed (d : Barrier.dpc) : bool :=
  match d with
  | Barrier.Creating _ | Barrier.ReadyWait | Barrier.Exited => true
  | _ => false
  end.

(* ------------------------------------------------------------------ *)
(** ** Further notions used by the properties *)

(** The CPUs of a mask among the first [ncpus], in increasing order: the
    CPUs the loop of [get_cpu_for_node] counts. *)
Definition cpus_of_mask (cpus ncpus : Z) : list Z :=
  filter (Z.testbit cpus) (zrange ncpus).

(** The CPUs of node [n]; none when [numa_node_to_cpus] fails. *)
Definition node_cpus (t : topology) (n : Z) : list Z :=
  match numa_node_to_cpus t n with
  | None => []
  | Some cpus => cpus_of_mask cpus (numa_num_configured_cpus t)
  end.

(** The [fuel] loop indices from [i] on. *)
Definition zrange_from (i : Z) (fuel : nat) : list Z :=
  map (fun k => i + Z.of_nat k) (seq 0 fuel).

(** Strictly increasing. *)
Fixpoint ascending (l : list Z) : Prop :=
  match l with
  | [] => True
  | x :: l' => Forall (fun y => x < y) l' /\ ascending l'
  end.

(** The number of spinners [main] asks for on one node and gets. *)
Definition spinners_on_node (t : topology) (spinners_per_node n : Z) : Z :=
  Z.min spinners_per_node (Z.of_nat (length (node_cpus t n))).

(** The nodes other than the worker's, ascending. *)
Definition remote_nodes (t : topology) : list Z :=
  filter (fun n => negb (n =? Bench3.WORKER_NODE))
         (zrange (numa_num_configured_nodes t)).

(** The number of consecutive [mmap] calls that succeed, from call number
    [start] on and among at most [fuel] calls. *)
Fixpoint successes (e : env) (start fuel : nat) : nat :=
  match fuel with
  | O => O
  | S fuel' =>
      if mmap_result e start =? MAP_FAILED then O
      else S (successes e (S start) fuel')
  end.

(** An [mmap] call that returned a region. *)
Definition is_mmap_ok (ev : event) : bool :=
  match ev with
  | EvMmap _ _ r => negb (r =? MAP_FAILED)
  | _ => false
  end.

(** A store through the region pointer. *)
Definition is_store (ev : event) : bool :=
  match ev with
  | EvStore _ _ => true
  | _ => false
  end.

(** What may occur inside the timed section of the workloads of
    microbenchmark4.c that map and unmap. *)
Definition is_map_cycle_step (ev : event) : bool :=
  match ev with
  | EvMmap _ _ _ | EvMunmap _ _ | EvStore _ _ | EvPerror _ => true
  | _ => false
  end.

(** One if the loop stopped before its [fuel] iterations, else zero. *)
Definition broke (k fuel : nat) : nat := if (k <? fuel)%nat then 1%nat else 0%nat.

(** The timed section: what happens after the first clock reading and
    before the second. *)
Definition between_clocks (tr : list event) : list event :=
  before is_clock (after is_clock tr).

(** [a] is not later than [b], for normalised time stamps. *)
Definition timespec_le (a b : timespec) : Prop :=
  tv_sec a < tv_sec b \/ (tv_sec a = tv_sec b /\ tv_nsec a <= tv_nsec b).

(** [clock_gettime] gives [0 <= tv_nsec < 1e9]. *)
Definition normalised (a : timespec) : Prop := 0 <= tv_nsec a < 1000000000.

(** Who can fail, and what [stop_spinners] tells. *)
Record stop_inv (cfg : Barrier.config) (s : Barrier.state) : Prop := {
  sinv_stop : Barrier.stop_spinners s = true ->
              Barrier.driver s = Barrier.JoinSpinners
              \/ Barrier.driver s = Barrier.Finished;
  sinv_joined : Barrier.driver s = Barrier.Stopping
                \/ Barrier.driver s = Barrier.JoinSpinners
                \/ Barrier.driver s = Barrier.Finished ->
                forall t, In t (Barrier.threads s) ->
                          Barrier.is_worker t = true -> Barrier.finished t = true;
  sinv_spinner : forall t, In t (Barrier.threads s) ->
                           Barrier.is_worker t = false ->
                           Barrier.t_pc t = Barrier.Returned ->
                           Barrier.stop_spinners s = true;
  sinv_failed : forall t, In t (Barrier.threads s) ->
                          Barrier.has_failed t = true ->
                          Barrier.is_worker t = true
                          /\ Barrier.cfg_prealloc cfg = true
}.

(** Every thread takes one step, in the order of creation. *)
Definition all_threads (n : nat) (ok : bool) : list Barrier.action :=
  map (fun i => Barrier.Thread i ok) (seq 0 n).

(** [main] creates its [n] threads and enters the wait loop; every
    participant sets up and increments; [main] leaves the loop and sets
    [go]; every participant sees [go]; the workers run and return; [main]
    joins them and sets [stop_spinners]; the spinners see it and return;
    [main] joins them. *)
Definition completing_schedule (n : nat) : list Barrier.action :=
  repeat (Barrier.Driver true) (S n)
  ++ all_threads n true
  ++ [Barrier.Driver true; Barrier.Driver true]
  ++ all_threads n true
  ++ all_threads n true
  ++ [Barrier.Driver true; Barrier.Driver true]
  ++ all_threads n true
  ++ [Barrier.Driver true].

(** The participants of [roles], all at position [pc]. *)
Definition uniform (pc : Barrier.role -> Barrier.tpc) (roles : list Barrier.role)
  : list Barrier.thread :=
  map (fun r => Barrier.mkThread r (pc r)) roles.

(** A step of a participant reads only [go] and [stop_spinners]. *)
Definition tstep (cfg : Barrier.config) (ok g st : bool) (t : Barrier.thread)
  : Barrier.thread * Z :=
  Barrier.thread_step cfg ok (Barrier.mkState 0 g st [] Barrier.Finished) t.

(** Where a participant stands once the workers have run: a spinner
    spins until it is told to stop. *)
Definition after_timed_loop (r : Barrier.role) : Barrier.tpc :=
  match r with
  | Barrier.Worker => Barrier.Returned
  | Barrier.Spinner => Barrier.Running
  end.

(** Where a participant stands at the end of the completing schedule. *)
Definition final_pc (stop : bool) : Barrier.role -> Barrier.tpc :=
  if stop then fun _ => Barrier.Returned else after_timed_loop.

(** ** microbenchmark2.c: the region size and what [main] prints of it *)
Module Bench2.

(** [size_kb = (size_t)atol(optarg)] (line 122). *)
Definition size_kb_of (atol_result : Z) : Z := atol_result mod 2 ^ 64.

(** [region_size = size_kb * 1024] in [size_t] (line 131). *)
Definition region_size_of (size_kb : Z) : Z := (size_kb * 1024) mod 2 ^ 64.

(** ["Pages in region"], [region_size / 4096] (line 146). *)
Definition pages_in_region (region_size : Z) : Z := region_size / 4096.

(** ["Page-tables covered"],
    [(region_size + (512 * 4096 - 1)) / (512 * 4096)] in [size_t]
    (line 147). *)
Definition page_tables_covered (region_size : Z) : Z :=
  ((region_size + (512 * 4096 - 1)) mod 2 ^ 64) / (512 * 4096).

(** ["Latency per op"], [(max_time * 1e6) / (total_ops / num_nodes)]
    (line 187): the inner division is that of [uint64_t], [num_nodes]
    converted. *)
Definition main_latency (num_nodes : Z) (t : Bench1.totals) : dbl :=
  fdiv (Bench1.max_time t * inject_Z 1000000)%Q
       (inject_Z (Bench1.total_ops t / (num_nodes mod 2 ^ 64))).

End Bench2.

(** The array [data] of microbenchmark1.c and microbenchmark2.c once
    every worker has been joined, for [num_ops] iterations on regions of
    [region_size] bytes. *)
Definition joined_data_with (num_ops region_size num_nodes : Z)
  (envs : Z -> env) : list Bench1.worker_data_t :=
  map (fun i => data (exec (Bench1.worker num_ops region_size)
                           (envs i) (Bench1.initial_data i)))
      (zrange num_nodes).

(** ** microbenchmark4.c: the operation names and the option loop *)
Module Bench4Main.
Import Bench4.

(** [op_name] (lines 55-62); the [default] branch is not reached from a
    value of the enumeration. *)
Definition op_name (op : op_type_t) : string :=
  match op with
  | OP_MPROTECT => "mprotect"
  | OP_MUNMAP => "munmap"
  | OP_MMAP_FULL => "mmap_full"
  end.

(** The [strcmp] chain of [case 'o'] (lines 261-273): [None] is the
    branch that prints ["Unknown operation"] and returns 1. *)
Definition parse_operation (optarg : string) : option op_type_t :=
  if String.eqb optarg "mprotect" then Some OP_MPROTECT
  else if String.eqb optarg "munmap" then Some OP_MUNMAP
  else if String.eqb optarg "mmap_full" then Some OP_MMAP_FULL
  else None.

(** What one call of [getopt_long] hands to the [switch]: ['o'] with its
    argument, ['s'] with the value [atoi] gives for its argument, ['h'],
    or anything else. *)
Inductive getopt_result :=
| Opt_o (optarg : string)
| Opt_s (atoi_result : Z)
| Opt_h
| Opt_other.

(** The globals the option loop sets. *)
Record options := mkOptions { operation : op_type_t; spinners_per_node : Z }.

(** [spinners_per_node = 8; operation = OP_MPROTECT;] (lines 248-249). *)
Definition default_options : options := mkOptions OP_MPROTECT 8.

(** The option loop (lines 259-282) over the successive results of
    [getopt_long]: [inl] is the exit status with which [main] returns from
    inside the loop, [inr] the globals with which it goes on. *)
Fixpoint parse_options (opts : list getopt_result) (o : options) : Z + options :=
  match opts with
  | [] => inr o
  | Opt_o optarg :: rest =>
      match parse_operation optarg with
      | Some op => parse_options rest (mkOptions op (spinners_per_node o))
      | None => inl 1
      end
  | Opt_s v :: rest => parse_options rest (mkOptions (operation o) v)
  | Opt_h :: _ => inl 0
  | Opt_other :: _ => inl 1
  end.

End Bench4Main.

(** The last operation named by a [-o] of the list, if any. *)
Fixpoint last_operation (opts : list Bench4Main.getopt_result)
  (dflt : Bench4.op_type_t) : Bench4.op_type_t :=
  match opts with
  | [] => dflt
  | Bench4Main.Opt_o a :: rest =>
      last_operation rest
        (match Bench4Main.parse_operation a with Some op => op | None => dflt end)
  | _ :: rest => last_operation rest dflt
  end.

(** The value of the last [-s] of the list, if any. *)
Fixpoint last_spinners (opts : list Bench4Main.getopt_result) (dflt : Z) : Z :=
  match opts with
  | [] => dflt
  | Bench4Main.Opt_s v :: rest => last_spinners rest v
  | _ :: rest => last_spinners rest dflt
  end.

(** An option that lets the loop go on. *)
Definition accepted (r : Bench4Main.getopt_result) : bool :=
  match r with
  | Bench4Main.Opt_o a =>
      match Bench4Main.parse_operation a with Some _ => true | None => false end
  | Bench4Main.Opt_s _ => true
  | Bench4Main.Opt_h | Bench4Main.Opt_other => false
  end.

(** The option [-h]. *)
Definition is_help (r : Bench4Main.getopt_result) : bool :=
  match r with Bench4Main.Opt_h => true | _ => false end.

(** The list from its first option that is not [accepted]. *)
Fixpoint from_rejected (opts : list Bench4Main.getopt_result)
  : list Bench4Main.getopt_result :=
  match opts with
  | [] => []
  | r :: rest => if accepted r then from_rejected rest else opts
  end.

(* ------------------------------------------------------------------ *)
(** ** A concrete machine, for running the definitions *)

(** Two nodes, four CPUs: CPUs 0 and 1 on node 0, CPUs 2 and 3 on node 1. *)
Definition example_topology : topology :=
  mkTopology true 2 4
    (fun n => if n =? 0 then Some 3 else if n =? 1 then Some 12 else None).

(** Every mmap succeeds at address 4096; the clock advances by one second
    per reading; [go] is seen at the second poll and [stop] at the fourth. *)
Definition example_env : env :=
  mkEnv example_topology (fun _ => 4096)
        (fun n => mkTimespec (Z.of_nat n) 0) 1 3.

(* ================================================================== *)
(** * Properties *)

(** ** Elapsed time *)

(** The elapsed time is the number of nanoseconds between the readings,
    over [1e9]. *)
Lemma elapsed_between_nanos a b :
  (elapsed_between a b ==
   (((tv_sec b - tv_sec a) * 1000000000 + (tv_nsec b - tv_nsec a)) # 1000000000))%Q.
Proof.
  unfold elapsed_between, Qeq, Qplus, Qdiv, Qmult, Qinv, inject_Z. cbn.
  ring.
Qed.



(** ** Loops of the thread monad *)

Lemma u64_add_range a b : 0 <= u64_add a b < 2 ^ 64.
Proof. unfold u64_add. apply Z.mod_pos_bound. reflexivity. Qed.

Lemma u64_add_small a b : 0 <= a + b < 2 ^ 64 -> u64_add a b = a + b.
Proof. intros H. unfold u64_add. apply Z.mod_small. exact H. Qed.

(** A loop whose body performs [evs], applies [f] to the record and never
    breaks runs [fuel] times. *)
Lemma for_from_steady D (evs : list event) (f : D -> D) (body : Z -> M D bool) :
  (forall i e s,
      body i e s = (true, mkSt (f (data s)) (trace s ++ evs) (mmaps s) (clocks s))) ->
  forall fuel i e s,
    for_from fuel i body e s
    = (tt, mkSt (Nat.iter fuel f (data s))
                (trace s ++ concat (repeat evs fuel)) (mmaps s) (clocks s)).
Proof.
  intros Hbody. induction fuel as [|fuel IH]; intros i e s.
  - simpl. unfold ret. rewrite app_nil_r. destruct s; reflexivity.
  - cbn [for_from]. unfold bind at 1. rewrite Hbody.
    rewrite IH. cbn [data trace mmaps clocks].
    rewrite Nat.iter_succ_r. cbn [repeat concat].
    rewrite <- !app_assoc. reflexivity.
Qed.

Lemma poll_go_from_run D k e (s : st D) :
  poll_go_from k e s
  = (tt, mkSt (data s)
              (trace s ++ concat (repeat [EvReadGo false; EvPause] k)
                       ++ [EvReadGo true])
              (mmaps s) (clocks s)).
Proof.
  revert s. induction k as [|k IH]; intros s.
  - reflexivity.
  - cbn [poll_go_from]. unfold bind, emit at 1 2. rewrite IH.
    cbn [data trace mmaps clocks repeat concat].
    rewrite <- !app_assoc. reflexivity.
Qed.

Lemma wait_for_go_run D e (s : st D) :
  wait_for_go e s
  = (tt, mkSt (data s) (trace s ++ go_poll_events e) (mmaps s) (clocks s)).
Proof. unfold wait_for_go, bind, ask. apply poll_go_from_run. Qed.

Lemma filter_concat_repeat_all (p : event -> bool) evs n :
  forallb p evs = true ->
  filter p (concat (repeat evs n)) = concat (repeat evs n).
Proof.
  intros H. induction n as [|n IH]; [reflexivity|].
  cbn [repeat concat]. rewrite filter_app, IH. f_equal.
  clear IH. induction evs as [|x evs IHe]; [reflexivity|].
  simpl in *. apply andb_true_iff in H as [Hx Hr]. rewrite Hx.
  f_equal. apply IHe. exact Hr.
Qed.

Lemma filter_concat_repeat_none (p : event -> bool) evs n :
  forallb (fun ev => negb (p ev)) evs = true ->
  filter p (concat (repeat evs n)) = [].
Proof.
  intros H. induction n as [|n IH]; [reflexivity|].
  cbn [repeat concat]. rewrite filter_app, IH, app_nil_r.
  clear IH. induction evs as [|x evs IHe]; [reflexivity|].
  simpl in *. apply andb_true_iff in H as [Hx Hr].
  apply negb_true_iff in Hx. rewrite Hx. apply IHe. exact Hr.
Qed.

Lemma bind_run D A B (m : M D A) (f : A -> M D B) e s :
  bind m f e s = f (fst (m e s)) e (snd (m e s)).
Proof. unfold bind. destruct (m e s). reflexivity. Qed.

Ltac run_step :=
  rewrite ?bind_run;
  cbn [get_data modify_data emit mmap clock_gettime ask ret fst snd
       data trace mmaps clocks].

(** ** Traces of the thread bodies *)

Lemma pin_to_node_run e n (s : st Bench1.worker_data_t) :
  Bench1.pin_to_node n e s
  = (tt, mkSt (data s) (trace s ++ pin_to_node_events e n) (mmaps s) (clocks s)).
Proof.
  unfold Bench1.pin_to_node, pin_to_node_events, bind, ask.
  destruct (numa_node_to_cpus (topo e) n); [reflexivity|].
  unfold ret. rewrite app_nil_r. destruct s; reflexivity.
Qed.

Lemma pin_to_node_first_cpu_run D e n (s : st D) :
  Bench3.pin_to_node_first_cpu n e s
  = (tt, mkSt (data s) (trace s ++ pin_first_cpu_events e n) (mmaps s) (clocks s)).
Proof.
  unfold Bench3.pin_to_node_first_cpu, pin_first_cpu_events, bind, ask.
  destruct (0 <=? Bench3.get_cpu_for_node (topo e) n 0); [reflexivity|].
  unfold ret. rewrite app_nil_r. destruct s; reflexivity.
Qed.

Lemma worker1_run N RS e d :
  mmap_result e 0%nat <> MAP_FAILED ->
  exec (Bench1.worker N RS) e d
  = mkSt (Bench1.set_elapsed (elapsed_between (clock e 0%nat) (clock e 1%nat))
            (Nat.iter (Z.to_nat N) (Bench1.add_ops 2)
               (Bench1.set_region (mmap_result e 0%nat) d)))
         (pin_to_node_events e (Bench1.node d)
          ++ [EvMmap 0 RS (mmap_result e 0%nat);
              EvMemset (mmap_result e 0%nat) 171 RS; EvReadyInc]
          ++ go_poll_events e
          ++ timed_toggle_events e (mmap_result e 0%nat) RS N)
         1 2.
Proof.
  intros Hok. set (r := mmap_result e 0%nat) in *.
  unfold exec, start_state, Bench1.worker.
  run_step. rewrite pin_to_node_run. run_step.
  fold r. destruct (Z.eqb_spec r MAP_FAILED) as [E|_]; [contradiction|].
  run_step. rewrite wait_for_go_run. run_step.
  unfold for_loop.
  rewrite (@for_from_steady _
             [EvMprotect r RS PROT_READ; EvMprotect r RS PROT_READ_WRITE]
             (Bench1.add_ops 2)).
  2:{ intros i e0 s0. unfold bind, emit, modify_data, ret. cbn.
      rewrite <- app_assoc. reflexivity. }
  run_step. unfold timed_toggle_events, toggle_events. f_equal.
  rewrite <- !app_assoc. reflexivity.
Qed.

Lemma worker1_fail N RS e d :
  mmap_result e 0%nat = MAP_FAILED ->
  exec (Bench1.worker N RS) e d
  = mkSt (Bench1.set_region MAP_FAILED d)
         (pin_to_node_events e (Bench1.node d)
          ++ [EvMmap 0 RS MAP_FAILED; EvPerror "mmap"])
         1 0.
Proof.
  intros Hf. unfold exec, start_state, Bench1.worker.
  run_step. rewrite pin_to_node_run. run_step.
  rewrite Hf. cbn [Z.eqb MAP_FAILED Pos.eqb]. run_step.
  f_equal. rewrite <- app_assoc. reflexivity.
Qed.

Lemma worker3_run N RS e d :
  mmap_result e 0%nat <> MAP_FAILED ->
  exec (Bench3.worker N RS) e d
  = mkSt (Bench3.set_elapsed (elapsed_between (clock e 0%nat) (clock e 1%nat))
            (Nat.iter (Z.to_nat N) (Bench3.add_ops 2)
               (Bench3.set_region (mmap_result e 0%nat) d)))
         (pin_first_cpu_events e Bench3.WORKER_NODE
          ++ [EvMmap 0 RS (mmap_result e 0%nat);
              EvMemset (mmap_result e 0%nat) 171 RS; EvReadyInc]
          ++ go_poll_events e
          ++ timed_toggle_events e (mmap_result e 0%nat) RS N)
         1 2.
Proof.
  intros Hok. set (r := mmap_result e 0%nat) in *.
  unfold exec, start_state, Bench3.worker.
  run_step. rewrite pin_to_node_first_cpu_run. run_step.
  fold r. destruct (Z.eqb_spec r MAP_FAILED) as [E|_]; [contradiction|].
  run_step. rewrite wait_for_go_run. run_step.
  unfold for_loop.
  rewrite (@for_from_steady _
             [EvMprotect r RS PROT_READ; EvMprotect r RS PROT_READ_WRITE]
             (Bench3.add_ops 2)).
  2:{ intros i e0 s0. unfold bind, emit, modify_data, ret. cbn.
      rewrite <- app_assoc. reflexivity. }
  run_step. unfold timed_toggle_events, toggle_events. f_equal.
  rewrite <- !app_assoc. reflexivity.
Qed.

Lemma worker3_fail N RS e d :
  mmap_result e 0%nat = MAP_FAILED ->
  exec (Bench3.worker N RS) e d
  = mkSt (Bench3.set_region MAP_FAILED d)
         (pin_first_cpu_events e Bench3.WORKER_NODE
          ++ [EvMmap 0 RS MAP_FAILED; EvPerror "mmap"])
         1 0.
Proof.
  intros Hf. unfold exec, start_state, Bench3.worker.
  run_step. rewrite pin_to_node_first_cpu_run. run_step.
  rewrite Hf. cbn [Z.eqb MAP_FAILED Pos.eqb]. run_step.
  f_equal. rewrite <- app_assoc. reflexivity.
Qed.

Lemma worker4_split N RS op e d :
  Bench4.worker N RS op e (start_state d)
  = match op with
    | Bench4.OP_MPROTECT => Bench4.do_mprotect_workload N RS
    | Bench4.OP_MUNMAP => Bench4.do_munmap_workload N RS
    | Bench4.OP_MMAP_FULL => Bench4.do_mmap_full_workload N RS
    end e (mkSt d (worker4_prologue e) 0 0).
Proof.
  unfold Bench4.worker, start_state, worker4_prologue.
  run_step. rewrite pin_to_node_first_cpu_run. run_step.
  rewrite wait_for_go_run. run_step.
  rewrite <- !app_assoc. reflexivity.
Qed.

Lemma do_mprotect_workload_run N RS e (s : st Bench3.worker_data_t) :
  mmap_result e (mmaps s) <> MAP_FAILED ->
  let r := mmap_result e (mmaps s) in
  Bench4.do_mprotect_workload N RS e s
  = (tt, mkSt (Bench3.set_elapsed
                 (elapsed_between (clock e (clocks s)) (clock e (S (clocks s))))
                 (Nat.iter (Z.to_nat N) (Bench3.add_ops 2)
                    (Bench3.set_region r (data s))))
              (trace s ++ [EvMmap 0 RS r; EvMemset r 171 RS]
               ++ [EvClock (clock e (clocks s))] ++ toggle_events r RS N
               ++ [EvClock (clock e (S (clocks s))); EvMunmap r RS])
              (S (mmaps s)) (S (S (clocks s)))).
Proof.
  intros Hok r. unfold Bench4.do_mprotect_workload.
  run_step. fold r.
  destruct (Z.eqb_spec r MAP_FAILED) as [E|_]; [contradiction|].
  run_step. unfold for_loop.
  rewrite (@for_from_steady _
             [EvMprotect r RS PROT_READ; EvMprotect r RS PROT_READ_WRITE]
             (Bench3.add_ops 2)).
  2:{ intros i e0 s0. unfold bind, emit, modify_data, ret. cbn.
      rewrite <- app_assoc. reflexivity. }
  run_step. unfold emit. cbn [data trace mmaps clocks].
  unfold toggle_events. f_equal. f_equal.
  rewrite <- !app_assoc. reflexivity.
Qed.

Lemma ops_iter_add1 k n (d : Bench1.worker_data_t) :
  0 <= Bench1.ops d < 2 ^ 64 -> 0 <= k ->
  Bench1.ops (Nat.iter n (Bench1.add_ops k) d)
  = (Bench1.ops d + k * Z.of_nat n) mod 2 ^ 64.
Proof.
  intros Hd Hk. induction n as [|n IH].
  - simpl. rewrite Z.mul_0_r, Z.add_0_r, Z.mod_small; [reflexivity|exact Hd].
  - rewrite Nat.iter_succ. cbn [Bench1.add_ops Bench1.ops]. rewrite IH.
    unfold u64_add. rewrite Zplus_mod_idemp_l. f_equal. lia.
Qed.

Lemma ops_iter_add3 k n (d : Bench3.worker_data_t) :
  0 <= Bench3.ops d < 2 ^ 64 -> 0 <= k ->
  Bench3.ops (Nat.iter n (Bench3.add_ops k) d)
  = (Bench3.ops d + k * Z.of_nat n) mod 2 ^ 64.
Proof.
  intros Hd Hk. induction n as [|n IH].
  - simpl. rewrite Z.mul_0_r, Z.add_0_r, Z.mod_small; [reflexivity|exact Hd].
  - rewrite Nat.iter_succ. cbn [Bench3.add_ops Bench3.ops]. rewrite IH.
    unfold u64_add. rewrite Zplus_mod_idemp_l. f_equal. lia.
Qed.

(** ** Protection-toggle workload *)

Lemma mprotect_pin_to_node e n :
  filter is_mprotect (pin_to_node_events e n) = [].
Proof.
  unfold pin_to_node_events.
  destruct (numa_node_to_cpus (topo e) n); reflexivity.
Qed.

Lemma mprotect_pin_first_cpu e n :
  filter is_mprotect (pin_first_cpu_events e n) = [].
Proof.
  unfold pin_first_cpu_events.
  destruct (0 <=? Bench3.get_cpu_for_node (topo e) n 0); reflexivity.
Qed.

Lemma mprotect_go_poll e : filter is_mprotect (go_poll_events e) = [].
Proof.
  unfold go_poll_events. rewrite filter_app.
  rewrite filter_concat_repeat_none; reflexivity.
Qed.

Lemma mprotect_toggle r len n :
  filter is_mprotect (toggle_events r len n) = toggle_events r len n.
Proof. unfold toggle_events. apply filter_concat_repeat_all. reflexivity. Qed.

Lemma mprotect_timed e r len n :
  filter is_mprotect (timed_toggle_events e r len n) = toggle_events r len n.
Proof.
  unfold timed_toggle_events. rewrite !filter_app, mprotect_toggle.
  cbn. apply app_nil_r.
Qed.

Lemma two_N_fits N : 0 <= N <= INT_MAX -> (0 + 2 * Z.of_nat (Z.to_nat N)) mod 2 ^ 64 = 2 * N.
Proof.
  intros H. unfold INT_MAX in H. rewrite Z2Nat.id by lia.
  apply Z.mod_small. change (2 ^ 64) with 18446744073709551616. lia.
Qed.

(** C1. For every iteration count [N] (an [int], [0 <= N <= INT_MAX]), a
    protection-toggle run whose region was mapped reports exactly [2 * N]
    completed operations: the mprotect calls of the run are [N] times the
    pair read-only, read-write, and the counter, started at 0, ends at
    [2 * N].  This holds for the worker of microbenchmark1.c/2.c, of
    microbenchmark3.c, and of microbenchmark4.c with the mprotect
    operation. *)
Theorem protect_toggle_completed_ops :
  forall (N RS : Z) (e : env)
         (d1 : Bench1.worker_data_t) (d3 d4 : Bench3.worker_data_t),
    0 <= N <= INT_MAX ->
    mmap_result e 0%nat <> MAP_FAILED ->
    Bench1.ops d1 = 0 -> Bench3.ops d3 = 0 -> Bench3.ops d4 = 0 ->
    let r := mmap_result e 0%nat in
    let s1 := exec (Bench1.worker N RS) e d1 in
    let s3 := exec (Bench3.worker N RS) e d3 in
    let s4 := exec (Bench4.worker N RS Bench4.OP_MPROTECT) e d4 in
    (Bench1.ops (data s1) = 2 * N
     /\ filter is_mprotect (trace s1) = toggle_events r RS N)
    /\ (Bench3.ops (data s3) = 2 * N
        /\ filter is_mprotect (trace s3) = toggle_events r RS N)
    /\ (Bench3.ops (data s4) = 2 * N
        /\ filter is_mprotect (trace s4) = toggle_events r RS N).
Proof.
  intros N RS e d1 d3 d4 HN Hok H1 H3 H4 r s1 s3 s4.
  assert (Hr : 0 <= 0 < 2 ^ 64) by (split; [lia | reflexivity]).
  repeat split.
  - subst s1. rewrite worker1_run by exact Hok.
    cbn [data Bench1.set_elapsed Bench1.ops].
    rewrite ops_iter_add1; cbn [Bench1.set_region Bench1.ops];
      rewrite ?H1; try lia.
    apply two_N_fits; exact HN.
  - subst s1. rewrite worker1_run by exact Hok. cbn [trace].
    rewrite !filter_app, mprotect_pin_to_node, mprotect_go_poll, mprotect_timed.
    reflexivity.
  - subst s3. rewrite worker3_run by exact Hok.
    cbn [data Bench3.set_elapsed Bench3.ops].
    rewrite ops_iter_add3; cbn [Bench3.set_region Bench3.ops];
      rewrite ?H3; try lia.
    apply two_N_fits; exact HN.
  - subst s3. rewrite worker3_run by exact Hok. cbn [trace].
    rewrite !filter_app, mprotect_pin_first_cpu, mprotect_go_poll, mprotect_timed.
    reflexivity.
  - subst s4. unfold exec. rewrite worker4_split.
    rewrite do_mprotect_workload_run by exact Hok.
    cbn [snd data Bench3.set_elapsed Bench3.ops mmaps].
    rewrite ops_iter_add3; cbn [Bench3.set_region Bench3.ops];
      rewrite ?H4; try lia.
    apply two_N_fits; exact HN.
  - subst s4. unfold exec. rewrite worker4_split.
    rewrite do_mprotect_workload_run by exact Hok.
    cbn [snd trace mmaps clocks]. unfold worker4_prologue.
    rewrite !filter_app, mprotect_pin_first_cpu, mprotect_go_poll, mprotect_toggle.
    cbn. rewrite app_nil_r. reflexivity.
Qed.

(** ** Unmap/remap workload *)

Lemma munmap_iteration_ok RS i e (s : st Bench3.worker_data_t) :
  mmap_result e (mmaps s) <> MAP_FAILED ->
  Bench4.munmap_iteration RS i e s
  = (true,
     mkSt (Bench3.add_ops 1 (Bench3.set_region (mmap_result e (mmaps s)) (data s)))
          (trace s ++ [EvMunmap (Bench3.region (data s)) RS;
                       EvMmap (Bench3.region (data s)) RS (mmap_result e (mmaps s))])
          (S (mmaps s)) (clocks s)).
Proof.
  intros Hok. unfold Bench4.munmap_iteration. run_step.
  destruct (Z.eqb_spec (mmap_result e (mmaps s)) MAP_FAILED) as [E|_];
    [contradiction|].
  run_step. unfold ret. rewrite <- app_assoc. reflexivity.
Qed.

Lemma munmap_iteration_fail RS i e (s : st Bench3.worker_data_t) :
  mmap_result e (mmaps s) = MAP_FAILED ->
  Bench4.munmap_iteration RS i e s
  = (false,
     mkSt (Bench3.set_region MAP_FAILED (data s))
          (trace s ++ [EvMunmap (Bench3.region (data s)) RS;
                       EvMmap (Bench3.region (data s)) RS MAP_FAILED;
                       EvPerror "mmap in loop"])
          (S (mmaps s)) (clocks s)).
Proof.
  intros Hf. unfold Bench4.munmap_iteration. run_step.
  rewrite Hf. cbn [Z.eqb MAP_FAILED Pos.eqb]. run_step.
  unfold ret. rewrite <- !app_assoc. reflexivity.
Qed.


Lemma iter_u64_succ k a :
  0 <= a < 2 ^ 64 ->
  Nat.iter k (fun x => u64_add x 1) a = (a + Z.of_nat k) mod 2 ^ 64.
Proof.
  intros Ha. induction k as [|k IH].
  - simpl. rewrite Z.add_0_r, Z.mod_small; [reflexivity|exact Ha].
  - rewrite Nat.iter_succ, IH. unfold u64_add.
    rewrite Zplus_mod_idemp_l. f_equal. lia.
Qed.






Lemma protect_toggle_completed_ops_witness :
  Bench1.ops (data (exec (Bench1.worker 3 4096) example_env
                         (Bench1.initial_data 0))) = 2 * 3.
Proof.
  refine (proj1 (proj1
    (@protect_toggle_completed_ops 3 4096 example_env
       (Bench1.initial_data 0) Bench3.initial_worker_data
       Bench3.initial_worker_data _ _ _ _ _))).
  - unfold INT_MAX. lia.
  - simpl. discriminate.
  - reflexivity.
  - reflexivity.
  - reflexivity.
Defined.

(** ** Failed pre-allocation *)



(** ** Order of set-up, ready increment and timed section *)

Lemma after_app_skip p l1 l2 :
  forallb (fun ev => negb (p ev)) l1 = true ->
  after p (l1 ++ l2) = after p l2.
Proof.
  induction l1 as [|x l1 IH]; intros H; [reflexivity|].
  simpl in *. apply andb_true_iff in H as [Hx Hr].
  apply negb_true_iff in Hx. rewrite Hx. apply IH. exact Hr.
Qed.

Lemma before_app_skip p l1 l2 :
  forallb (fun ev => negb (p ev)) l1 = true ->
  before p (l1 ++ l2) = l1 ++ before p l2.
Proof.
  induction l1 as [|x l1 IH]; intros H; [reflexivity|].
  simpl in *. apply andb_true_iff in H as [Hx Hr].
  apply negb_true_iff in Hx. rewrite Hx. f_equal. apply IH. exact Hr.
Qed.

Lemma forallb_concat_repeat (p : event -> bool) evs n :
  forallb p evs = true -> forallb p (concat (repeat evs n)) = true.
Proof.
  intros H. induction n as [|n IH]; [reflexivity|].
  cbn [repeat concat]. rewrite forallb_app, H, IH. reflexivity.
Qed.

Lemma pin_to_node_events_only_setup p e n :
  (forall cs, p (EvSetaffinity cs) = true) ->
  forallb p (pin_to_node_events e n) = true.
Proof.
  intros H. unfold pin_to_node_events.
  destruct (numa_node_to_cpus (topo e) n); cbn; rewrite ?H; reflexivity.
Qed.

Lemma pin_first_cpu_events_only_setup p e n :
  (forall cs, p (EvSetaffinity cs) = true) ->
  forallb p (pin_first_cpu_events e n) = true.
Proof.
  intros H. unfold pin_first_cpu_events.
  destruct (0 <=? Bench3.get_cpu_for_node (topo e) n 0); cbn; rewrite ?H;
    reflexivity.
Qed.

(** What follows the poll loop in a trace is what the thread does once it
    has seen [go]. *)
Lemma after_go_seen_polls e rest :
  after is_go_seen (go_poll_events e ++ rest) = rest.
Proof.
  unfold go_poll_events. rewrite <- app_assoc.
  rewrite after_app_skip; [reflexivity|].
  apply forallb_concat_repeat. reflexivity.
Qed.

Lemma go_polls_no_setup e :
  forallb (fun ev => negb (is_setup ev)) (go_poll_events e) = true.
Proof.
  unfold go_poll_events. rewrite forallb_app.
  rewrite forallb_concat_repeat; reflexivity.
Qed.

Lemma go_polls_no_clock e :
  forallb (fun ev => negb (is_clock ev)) (go_poll_events e) = true.
Proof.
  unfold go_poll_events. rewrite forallb_app.
  rewrite forallb_concat_repeat; reflexivity.
Qed.

(** A trace made of set-up, the ready increment, the poll loop and then a
    clock reading has its set-up before the increment and its timed section
    right after [go]. *)
Lemma ordered_trace_ok e pre rest t :
  forallb (fun ev => negb (is_ready_inc ev)) pre = true ->
  forallb (fun ev => negb (is_go_seen ev)) pre = true ->
  let tr := pre ++ [EvReadyInc] ++ go_poll_events e ++ EvClock t :: rest in
  setup_before_ready tr = true
  /\ timed_loop_follows_go tr = true
  /\ before is_ready_inc tr = pre.
Proof.
  intros Hpre Hgo tr. subst tr. unfold setup_before_ready, timed_loop_follows_go.
  rewrite after_app_skip by exact Hpre.
  rewrite before_app_skip by exact Hpre.
  rewrite existsb_app. cbn [app after before is_ready_inc existsb].
  rewrite orb_true_r, app_nil_r.
  rewrite before_app_skip by apply go_polls_no_clock.
  cbn [before is_clock]. rewrite app_nil_r, go_polls_no_setup.
  rewrite after_app_skip by exact Hgo.
  cbn [after is_go_seen]. rewrite after_go_seen_polls. repeat split.
Qed.

Lemma extends_ret D A (a : A) : extends (@ret D A a).
Proof. intros e s. exists []. cbn. rewrite app_nil_r. reflexivity. Qed.

Lemma extends_emit D ev : extends (@emit D ev).
Proof. intros e s. exists [ev]. reflexivity. Qed.

Lemma extends_modify D f : extends (@modify_data D f).
Proof. intros e s. exists []. cbn. rewrite app_nil_r. reflexivity. Qed.

Lemma extends_get D : extends (@get_data D).
Proof. intros e s. exists []. cbn. rewrite app_nil_r. reflexivity. Qed.

Lemma extends_mmap D hint len : extends (@mmap D hint len).
Proof. intros e s. eexists. reflexivity. Qed.

Lemma extends_clock D : extends (@clock_gettime D).
Proof. intros e s. eexists. reflexivity. Qed.

Lemma extends_bind D A B (m : M D A) (f : A -> M D B) :
  extends m -> (forall a, extends (f a)) -> extends (bind m f).
Proof.
  intros Hm Hf e s. rewrite bind_run.
  destruct (Hm e s) as [evs1 H1].
  destruct (Hf (fst (m e s)) e (snd (m e s))) as [evs2 H2].
  exists (evs1 ++ evs2). rewrite H2, H1, app_assoc. reflexivity.
Qed.

Lemma extends_if D A (b : bool) (m1 m2 : M D A) :
  extends m1 -> extends m2 -> extends (if b then m1 else m2).
Proof. destruct b; auto. Qed.

Lemma extends_for_from D (body : Z -> M D bool) :
  (forall i, extends (body i)) -> forall fuel i, extends (for_from fuel i body).
Proof.
  intros Hb. induction fuel as [|fuel IH]; intros i.
  - apply extends_ret.
  - cbn [for_from]. apply extends_bind; [apply Hb|].
    intros c. apply extends_if; [apply IH | apply extends_ret].
Qed.

Create HintDb extends_db.
#[local] Hint Resolve extends_ret extends_emit extends_modify extends_get
  extends_mmap extends_clock : extends_db.

Lemma spin_from_run k :
  forall e (s : st Bench3.spinner_data_t),
    Bench3.spin_from k e s
    = (tt, mkSt (Bench3.set_spin_count
                   (Nat.iter k (fun x => u64_add x 1) (Bench3.spin_count (data s)))
                   (data s))
                (trace s ++ spin_events (Bench3.spin_count (data s)) k)
                (mmaps s) (clocks s)).
Proof.
  induction k as [|k IH]; intros e s.
  - cbn. destruct s as [[] ? ? ?]; reflexivity.
  - cbn [Bench3.spin_from]. run_step. rewrite IH.
    cbn [data trace mmaps clocks Bench3.set_spin_count Bench3.spin_count
         Bench3.id Bench3.node Bench3.cpu spin_events].
    rewrite Nat.iter_succ_r. rewrite <- !app_assoc. reflexivity.
Qed.

Lemma spinner_run e d :
  exec Bench3.spinner e d
  = mkSt (Bench3.set_spin_count
            (Nat.iter (stop_polls e) (fun x => u64_add x 1) (Bench3.spin_count d)) d)
         ([EvSetaffinity (cpu_set_of (Bench3.cpu d))] ++ [EvReadyInc] ++ go_poll_events e
          ++ spin_events (Bench3.spin_count d) (stop_polls e))
         0 0.
Proof.
  unfold exec, start_state, Bench3.spinner, Bench3.pin_to_cpu.
  run_step. rewrite wait_for_go_run. run_step. rewrite spin_from_run.
  cbn [snd data trace mmaps clocks]. rewrite <- !app_assoc. reflexivity.
Qed.

Lemma spin_events_steps c k : forallb is_spin_step (spin_events c k) = true.
Proof. revert c. induction k as [|k IH]; intros c; cbn; auto. Qed.

Lemma spin_events_no p c k :
  (forall v, p (EvReadStop v) = false) ->
  (forall v, p (EvSpinCount v) = false) ->
  p EvPause = false ->
  forallb (fun ev => negb (p ev)) (spin_events c k) = true.
Proof.
  intros H1 H2 H3. revert c. induction k as [|k IH]; intros c; cbn.
  - rewrite H1. reflexivity.
  - rewrite H1, H2, H3, IH. reflexivity.
Qed.

(** The values the spin loop stores, when the counter does not wrap. *)
Lemma spin_values_events c k :
  0 <= c -> c + Z.of_nat k < 2 ^ 64 ->
  spin_values (spin_events c k)
  = map (fun j => c + 1 + Z.of_nat j) (seq 0 k).
Proof.
  revert c. induction k as [|k IH]; intros c Hc Hk; [reflexivity|].
  cbn [spin_events spin_values seq map].
  rewrite u64_add_small by lia.
  rewrite IH by lia. f_equal; [lia|].
  rewrite <- seq_shift, map_map. apply map_ext. intros j. lia.
Qed.

Lemma nondecreasing_affine c k :
  nondecreasing (map (fun j => c + Z.of_nat j) (seq 0 k)).
Proof.
  generalize 0%nat as a. induction k as [|k IH]; intros a; [exact I|].
  cbn [seq map nondecreasing]. destruct k as [|k]; [exact I|].
  split; [cbn; lia | apply (IH (S a))].
Qed.

(** ** The spinner *)

(** C8. A spinner binds itself to its CPU, increments [ready_count] once
    and polls [go].  Everything it does after the poll that sees [go] is a
    read of the stop flag, an increment of its own [spin_count] or a pause,
    up to the read that sees the stop flag.  In the whole run it makes no
    memory-management system call and its only write to shared state is
    the one ready increment, which precedes the poll loop.  The values it
    stores into [spin_count] never decrease (they are [1, 2, .., k] for [k]
    iterations; a [uint64_t] counter started at 0 does not wrap in fewer
    than [2^64] iterations). *)
Theorem spinner_only_spins :
  forall (e : env) (d : Bench3.spinner_data_t),
    Bench3.spin_count d = 0 ->
    Z.of_nat (stop_polls e) < 2 ^ 64 ->
    let s := exec Bench3.spinner e d in
    let tr := trace s in
    forallb is_spin_step (after is_go_seen tr) = true
    /\ after is_go_seen tr = spin_events 0 (stop_polls e)
    /\ forallb (fun ev => negb (is_mm_syscall ev)) tr = true
    /\ filter is_shared_write tr = [EvReadyInc]
    /\ filter is_shared_write (after is_ready_inc tr) = []
    /\ before is_ready_inc tr = [EvSetaffinity (cpu_set_of (Bench3.cpu d))]
    /\ spin_values tr = map (fun j => 1 + Z.of_nat j) (seq 0 (stop_polls e))
    /\ nondecreasing (spin_values tr)
    /\ Bench3.spin_count (data s) = Z.of_nat (stop_polls e)
    /\ mmaps s = 0%nat.
Proof.
  intros e d Hd Hk s tr. subst tr s. rewrite spinner_run, Hd.
  cbn [trace data mmaps Bench3.set_spin_count Bench3.spin_count].
  assert (Hafter : after is_go_seen
                     ([EvSetaffinity (cpu_set_of (Bench3.cpu d))] ++ [EvReadyInc]
                      ++ go_poll_events e ++ spin_events 0 (stop_polls e))
                   = spin_events 0 (stop_polls e)).
  { cbn [app after is_go_seen]. apply after_go_seen_polls. }
  assert (Hvals : spin_values
                    ([EvSetaffinity (cpu_set_of (Bench3.cpu d))] ++ [EvReadyInc]
                     ++ go_poll_events e ++ spin_events 0 (stop_polls e))
                  = map (fun j => 1 + Z.of_nat j) (seq 0 (stop_polls e))).
  { cbn [app spin_values]. unfold go_poll_events.
    assert (Hp : forall k l,
               spin_values ((concat (repeat [EvReadGo false; EvPause] k)
                             ++ [EvReadGo true]) ++ l) = spin_values l).
    { induction k as [|k IH]; intros l; [reflexivity|].
      cbn [repeat concat app spin_values]. apply IH. }
    rewrite Hp. rewrite spin_values_events by lia. reflexivity. }
  rewrite Hafter, Hvals. repeat split.
  - apply spin_events_steps.
  - cbn [app forallb is_mm_syscall negb andb]. rewrite forallb_app.
    unfold go_poll_events. rewrite forallb_app.
    rewrite forallb_concat_repeat by reflexivity.
    rewrite spin_events_no; reflexivity.
  - cbn [app filter is_shared_write]. f_equal. rewrite filter_app.
    unfold go_poll_events. rewrite filter_app.
    rewrite filter_concat_repeat_none by reflexivity.
    cbn [filter is_shared_write app].
    clear. generalize 0. induction (stop_polls e) as [|k IH]; intros c;
      [reflexivity|]. cbn. apply IH.
  - cbn [app after is_ready_inc]. rewrite filter_app.
    unfold go_poll_events. rewrite filter_app.
    rewrite filter_concat_repeat_none by reflexivity.
    cbn [filter is_shared_write app].
    clear. generalize 0. induction (stop_polls e) as [|k IH]; intros c;
      [reflexivity|]. cbn. apply IH.
  - apply (nondecreasing_affine 1).
  - rewrite iter_u64_succ by (split; [lia | reflexivity]).
    apply Z.mod_small. lia.
Qed.

Lemma spinner_only_spins_witness :
  spin_values (trace (exec Bench3.spinner example_env (Bench3.mkSpinner 0 1 2 0)))
  = [1; 2; 3].
Proof.
  refine (proj1 (proj2 (proj2 (proj2 (proj2 (proj2 (proj2
    (@spinner_only_spins example_env (Bench3.mkSpinner 0 1 2 0) _ _)))))))).
  - reflexivity.
  - reflexivity.
Defined.

(** ** Set-up and the barrier, per program *)

Ltac run_one :=
  rewrite bind_run;
  cbn [get_data modify_data emit mmap clock_gettime ask ret fst snd
       data trace mmaps clocks].

Ltac extends_steps :=
  repeat first
    [ apply extends_bind; [|intros ?]
    | apply extends_if
    | apply extends_for_from; intros ?
    | solve [auto with extends_db] ].

Lemma do_munmap_workload_prefix N RS e (s : st Bench3.worker_data_t) :
  mmap_result e (mmaps s) <> MAP_FAILED ->
  exists rest,
    trace (snd (Bench4.do_munmap_workload N RS e s))
    = trace s ++ prealloc_events RS (mmap_result e (mmaps s))
      ++ EvClock (clock e (clocks s)) :: rest.
Proof.
  intros Hok. unfold Bench4.do_munmap_workload.
  run_one. run_one.
  destruct (Z.eqb_spec (mmap_result e (mmaps s)) MAP_FAILED) as [E|_];
    [contradiction|].
  run_one. run_one.
  match goal with
  | |- context [trace (snd (?m e ?s1))] =>
      assert (Hx : extends m)
        by (unfold for_loop, Bench4.munmap_iteration; extends_steps);
      destruct (Hx e s1) as [rest Hrest]
  end.
  exists rest. rewrite Hrest. cbn [trace]. unfold prealloc_events.
  rewrite <- !app_assoc. reflexivity.
Qed.

Lemma do_mmap_full_workload_prefix N RS e (s : st Bench3.worker_data_t) :
  exists rest,
    trace (snd (Bench4.do_mmap_full_workload N RS e s))
    = trace s ++ EvClock (clock e (clocks s)) :: rest.
Proof.
  unfold Bench4.do_mmap_full_workload. run_one.
  match goal with
  | |- context [trace (snd (?m e ?s1))] =>
      assert (Hx : extends m)
        by (unfold for_loop, Bench4.mmap_full_iteration; extends_steps);
      destruct (Hx e s1) as [rest Hrest]
  end.
  exists rest. rewrite Hrest. cbn [trace].
  rewrite <- !app_assoc. reflexivity.
Qed.

Lemma before_none p l :
  forallb (fun ev => negb (p ev)) l = true -> before p l = l.
Proof.
  intros H. rewrite <- (app_nil_r l) at 1.
  rewrite before_app_skip by exact H. apply app_nil_r.
Qed.

Lemma before_ready_prologue e rest :
  before is_ready_inc (worker4_prologue e ++ rest)
  = pin_first_cpu_events e Bench3.WORKER_NODE.
Proof.
  unfold worker4_prologue. rewrite <- app_assoc.
  rewrite before_app_skip
    by (apply pin_first_cpu_events_only_setup; reflexivity).
  cbn. apply app_nil_r.
Qed.

Lemma after_go_prologue e rest :
  after is_go_seen (worker4_prologue e ++ rest) = rest.
Proof.
  unfold worker4_prologue. rewrite <- !app_assoc.
  rewrite after_app_skip
    by (apply pin_first_cpu_events_only_setup; reflexivity).
  cbn [app after is_go_seen]. apply after_go_seen_polls.
Qed.

(** C4, as the code has it.  In microbenchmark1.c, 2.c and 3.c the worker
    binds its affinity, maps and faults in its region, and only then
    increments [ready_count]; the operation that follows the poll that sees
    [go] is the start-time reading.  A spinner binds its affinity before
    its increment and performs no set-up after it.  In microbenchmark4.c
    the worker performs only the affinity binding before the increment:
    for the mprotect and munmap operations the region is mapped and
    faulted in after [go] is seen, immediately before the start-time
    reading (so still outside the timed section); for the mmap_full
    operation, which has no pre-allocation, the start-time reading follows
    [go] directly. *)
Theorem setup_order_by_program :
  forall (N RS : Z) (e : env)
         (d1 : Bench1.worker_data_t) (d3 d4 : Bench3.worker_data_t)
         (dsp : Bench3.spinner_data_t),
    mmap_result e 0%nat <> MAP_FAILED ->
    let r := mmap_result e 0%nat in
    let tr1 := trace (exec (Bench1.worker N RS) e d1) in
    let tr3 := trace (exec (Bench3.worker N RS) e d3) in
    let trs := trace (exec Bench3.spinner e dsp) in
    let tr4 := fun op => trace (exec (Bench4.worker N RS op) e d4) in
    (setup_before_ready tr1 = true
     /\ timed_loop_follows_go tr1 = true
     /\ before is_ready_inc tr1
        = pin_to_node_events e (Bench1.node d1) ++ prealloc_events RS r)
    /\ (setup_before_ready tr3 = true
        /\ timed_loop_follows_go tr3 = true
        /\ before is_ready_inc tr3
           = pin_first_cpu_events e Bench3.WORKER_NODE ++ prealloc_events RS r)
    /\ (setup_before_ready trs = true
        /\ before is_ready_inc trs
           = [EvSetaffinity (cpu_set_of (Bench3.cpu dsp))])
    /\ (forall op,
           before is_ready_inc (tr4 op)
           = pin_first_cpu_events e Bench3.WORKER_NODE)
    /\ (exists rest,
           after is_go_seen (tr4 Bench4.OP_MPROTECT)
           = prealloc_events RS r ++ EvClock (clock e 0%nat) :: rest)
    /\ (exists rest,
           after is_go_seen (tr4 Bench4.OP_MUNMAP)
           = prealloc_events RS r ++ EvClock (clock e 0%nat) :: rest)
    /\ (exists rest,
           after is_go_seen (tr4 Bench4.OP_MMAP_FULL)
           = EvClock (clock e 0%nat) :: rest).
Proof.
  intros N RS e d1 d3 d4 dsp Hok r tr1 tr3 trs tr4.
  assert (Hext : forall op, exists rest,
             tr4 op = worker4_prologue e ++ rest
             /\ trace (snd (match op with
                            | Bench4.OP_MPROTECT => Bench4.do_mprotect_workload N RS
                            | Bench4.OP_MUNMAP => Bench4.do_munmap_workload N RS
                            | Bench4.OP_MMAP_FULL => Bench4.do_mmap_full_workload N RS
                            end e (mkSt d4 (worker4_prologue e) 0 0)))
                = worker4_prologue e ++ rest).
  { intros op. subst tr4. cbv beta. unfold exec. rewrite worker4_split.
    assert (Hx : extends (match op with
                          | Bench4.OP_MPROTECT => Bench4.do_mprotect_workload N RS
                          | Bench4.OP_MUNMAP => Bench4.do_munmap_workload N RS
                          | Bench4.OP_MMAP_FULL => Bench4.do_mmap_full_workload N RS
                          end)).
    { destruct op;
        unfold Bench4.do_mprotect_workload, Bench4.do_munmap_workload,
               Bench4.do_mmap_full_workload, for_loop,
               Bench4.munmap_iteration, Bench4.mmap_full_iteration;
        extends_steps. }
    destruct (Hx e (mkSt d4 (worker4_prologue e) 0 0)) as [rest Hrest].
    exists rest. split; exact Hrest. }
  split; [|split; [|split; [|split; [|split; [|split]]]]].
  - subst tr1. rewrite worker1_run by exact Hok. cbn [trace].
    unfold timed_toggle_events. cbn [app].
    replace (pin_to_node_events e (Bench1.node d1)
             ++ EvMmap 0 RS (mmap_result e 0%nat)
                :: EvMemset (mmap_result e 0%nat) 171 RS :: EvReadyInc
                :: go_poll_events e
                ++ EvClock (clock e 0%nat)
                   :: toggle_events (mmap_result e 0%nat) RS N
                   ++ [EvClock (clock e 1%nat); EvMunmap (mmap_result e 0%nat) RS])
      with ((pin_to_node_events e (Bench1.node d1) ++ prealloc_events RS r)
            ++ [EvReadyInc] ++ go_poll_events e
            ++ EvClock (clock e 0%nat)
               :: toggle_events (mmap_result e 0%nat) RS N
               ++ [EvClock (clock e 1%nat); EvMunmap (mmap_result e 0%nat) RS])
      by (unfold prealloc_events; rewrite <- app_assoc; reflexivity).
    apply ordered_trace_ok; rewrite forallb_app;
      (rewrite pin_to_node_events_only_setup by reflexivity); reflexivity.
  - subst tr3. rewrite worker3_run by exact Hok. cbn [trace].
    unfold timed_toggle_events. cbn [app].
    replace (pin_first_cpu_events e Bench3.WORKER_NODE
             ++ EvMmap 0 RS (mmap_result e 0%nat)
                :: EvMemset (mmap_result e 0%nat) 171 RS :: EvReadyInc
                :: go_poll_events e
                ++ EvClock (clock e 0%nat)
                   :: toggle_events (mmap_result e 0%nat) RS N
                   ++ [EvClock (clock e 1%nat); EvMunmap (mmap_result e 0%nat) RS])
      with ((pin_first_cpu_events e Bench3.WORKER_NODE ++ prealloc_events RS r)
            ++ [EvReadyInc] ++ go_poll_events e
            ++ EvClock (clock e 0%nat)
               :: toggle_events (mmap_result e 0%nat) RS N
               ++ [EvClock (clock e 1%nat); EvMunmap (mmap_result e 0%nat) RS])
      by (unfold prealloc_events; rewrite <- app_assoc; reflexivity).
    apply ordered_trace_ok; rewrite forallb_app;
      (rewrite pin_first_cpu_events_only_setup by reflexivity); reflexivity.
  - subst trs. rewrite spinner_run. cbn [trace]. split; [|reflexivity].
    unfold setup_before_ready.
    cbn [app existsb is_ready_inc orb andb after].
    rewrite before_none.
    + rewrite forallb_app, go_polls_no_setup.
      rewrite spin_events_no; reflexivity.
    + rewrite forallb_app, go_polls_no_clock.
      rewrite spin_events_no; reflexivity.
  - intros op. destruct (Hext op) as (rest & -> & _).
    apply before_ready_prologue.
  - destruct (Hext Bench4.OP_MPROTECT) as (rest & -> & Hw).
    rewrite after_go_prologue.
    rewrite do_mprotect_workload_run in Hw by exact Hok.
    cbn [snd trace mmaps clocks] in Hw. apply app_inv_head in Hw.
    rewrite <- Hw. eexists. unfold prealloc_events. cbn [app]. reflexivity.
  - destruct (Hext Bench4.OP_MUNMAP) as (rest & -> & Hw).
    rewrite after_go_prologue.
    destruct (@do_munmap_workload_prefix N RS e (mkSt d4 (worker4_prologue e) 0 0))
      as [rest' Hp]; [exact Hok|].
    rewrite Hw in Hp. cbn [trace mmaps clocks] in Hp.
    apply app_inv_head in Hp. exists rest'. exact Hp.
  - destruct (Hext Bench4.OP_MMAP_FULL) as (rest & -> & Hw).
    rewrite after_go_prologue.
    destruct (@do_mmap_full_workload_prefix N RS e (mkSt d4 (worker4_prologue e) 0 0))
      as [rest' Hp].
    rewrite Hw in Hp. cbn [trace mmaps clocks] in Hp.
    apply app_inv_head in Hp. exists rest'. exact Hp.
Qed.

Lemma setup_order_by_program_witness :
  setup_before_ready
    (trace (exec (Bench1.worker 2 4096) example_env (Bench1.initial_data 1)))
  = true.
Proof.
  refine (proj1 (proj1
    (@setup_order_by_program 2 4096 example_env (Bench1.initial_data 1)
       Bench3.initial_worker_data Bench3.initial_worker_data
       (Bench3.mkSpinner 0 1 2 0) _))).
  simpl. discriminate.
Defined.

(** The claim of C4 fails for the worker of microbenchmark4.c running the
    mprotect operation on the example machine: its region is mapped and
    faulted in after the ready increment, between the poll that sees [go]
    and the start-time reading. *)
Lemma setup_before_ready_counterexample :
  let tr := trace (exec (Bench4.worker Bench4.NUM_OPS Bench4.REGION_SIZE
                           Bench4.OP_MPROTECT)
                        example_env Bench3.initial_worker_data) in
  setup_before_ready tr = false
  /\ timed_loop_follows_go tr = false
  /\ firstn 8 tr
     = [EvSetaffinity [0]; EvReadyInc; EvReadGo false; EvPause; EvReadGo true;
        EvMmap 0 65536 4096; EvMemset 4096 171 65536;
        EvClock (mkTimespec 0 0)].
Proof.
  unfold exec. rewrite worker4_split.
  rewrite do_mprotect_workload_run by (simpl; discriminate).
  cbn [snd trace]. vm_compute. repeat split.
Qed.

(** ** Aggregation in microbenchmark1.c and microbenchmark2.c *)

Lemma aggregate_total ds : forall acc,
  0 <= Bench1.total_ops acc < 2 ^ 64 ->
  Bench1.total_ops (fold_left Bench1.join_one ds acc)
  = (Bench1.total_ops acc + sum_of_ops ds) mod 2 ^ 64.
Proof.
  induction ds as [|d ds IH]; intros acc Hacc.
  - cbn. rewrite Z.add_0_r, Z.mod_small; [reflexivity|exact Hacc].
  - cbn [fold_left]. rewrite IH by apply u64_add_range.
    cbn [Bench1.join_one Bench1.total_ops]. unfold u64_add, sum_of_ops.
    cbn [map fold_right]. rewrite Zplus_mod_idemp_l. f_equal. lia.
Qed.

Lemma join_one_max acc d :
  (Bench1.max_time acc <= Bench1.max_time (Bench1.join_one acc d))%Q
  /\ (Bench1.elapsed_sec d <= Bench1.max_time (Bench1.join_one acc d))%Q
  /\ (Bench1.max_time (Bench1.join_one acc d) = Bench1.max_time acc
      \/ Bench1.max_time (Bench1.join_one acc d) = Bench1.elapsed_sec d).
Proof.
  cbn [Bench1.join_one Bench1.max_time].
  destruct (Qle_bool (Bench1.elapsed_sec d) (Bench1.max_time acc)) eqn:E.
  - apply Qle_bool_iff in E. repeat split; [apply Qle_refl | exact E | now left].
  - assert (H : ~ (Bench1.elapsed_sec d <= Bench1.max_time acc)%Q).
    { intros H. apply Qle_bool_iff in H. congruence. }
    apply Qnot_le_lt in H.
    repeat split; [apply Qlt_le_weak; exact H | apply Qle_refl | now right].
Qed.

Lemma aggregate_max ds : forall acc,
  let t := fold_left Bench1.join_one ds acc in
  (Bench1.max_time acc <= Bench1.max_time t)%Q
  /\ (forall d, In d ds -> (Bench1.elapsed_sec d <= Bench1.max_time t)%Q)
  /\ (Bench1.max_time t = Bench1.max_time acc
      \/ exists d, In d ds /\ Bench1.max_time t = Bench1.elapsed_sec d).
Proof.
  induction ds as [|d ds IH]; intros acc t; subst t.
  - cbn. repeat split; [apply Qle_refl | tauto | now left].
  - cbn [fold_left].
    destruct (IH (Bench1.join_one acc d)) as (Hle & Hall & Hin).
    destruct (join_one_max acc d) as (H1 & H2 & H3).
    repeat split.
    + eapply Qle_trans; eassumption.
    + intros d' [<- | Hd'].
      * eapply Qle_trans; eassumption.
      * apply Hall. exact Hd'.
    + destruct Hin as [Heq | (d' & Hd' & Heq)].
      * rewrite Heq. destruct H3 as [H3 | H3].
        -- left. exact H3.
        -- right. exists d. split; [now left | exact H3].
      * right. exists d'. split; [now right | exact Heq].
Qed.

Lemma worker1_ops N RS e d :
  0 <= N <= INT_MAX ->
  mmap_result e 0%nat <> MAP_FAILED ->
  Bench1.ops d = 0 ->
  Bench1.ops (data (exec (Bench1.worker N RS) e d)) = 2 * N.
Proof.
  intros HN Hok Hd. rewrite worker1_run by exact Hok.
  cbn [data Bench1.set_elapsed Bench1.ops].
  rewrite ops_iter_add1; cbn [Bench1.set_region Bench1.ops]; rewrite ?Hd;
    try lia.
  apply two_N_fits; exact HN.
Qed.

(** The quotient of two [double]s, the divisor positive, zero or the
    dividend zero too. *)
Lemma fdiv_cases (a b : Q) :
  ((0 < b)%Q -> fdiv a b = Finite (a / b)%Q)
  /\ ((b == 0)%Q -> (0 < a)%Q -> fdiv a b = PosInf)
  /\ ((b == 0)%Q -> (a == 0)%Q -> fdiv a b = NaN).
Proof.
  unfold fdiv. split; [|split].
  - intros Hb. destruct (Qeq_bool b 0) eqn:E; [|reflexivity].
    apply Qeq_bool_eq in E. rewrite E in Hb. exfalso. exact (Qlt_irrefl 0 Hb).
  - intros Hb Ha. rewrite (Qeq_eq_bool b 0 Hb).
    destruct (Qeq_bool a 0) eqn:E.
    + apply Qeq_bool_eq in E. rewrite E in Ha. exfalso. exact (Qlt_irrefl 0 Ha).
    + destruct (Qle_bool 0 a) eqn:E'; [reflexivity|].
      apply Qlt_le_weak, Qle_bool_iff in Ha. congruence.
  - intros Hb Ha. rewrite (Qeq_eq_bool b 0 Hb), (Qeq_eq_bool a 0 Ha).
    reflexivity.
Qed.

(** C6. [main] of microbenchmark1.c/2.c adds the operation counts of all
    workers (in [uint64_t]) and keeps the largest elapsed time seen,
    starting from 0.  The throughput it prints is the total divided by
    that maximum: the quotient of the two when the maximum is positive,
    and, no division trapping, infinite when the maximum is zero with
    operations counted and NaN when both are zero.  With 4 nodes and
    [NUM_OPS = 20000], workers whose regions were mapped contribute 40000
    operations each, the total is 160000 and the throughput 160000 over
    the largest of the four times. *)
Theorem aggregate_sum_and_max :
  forall (ds : list Bench1.worker_data_t) (envs : Z -> env),
    (forall i, mmap_result (envs i) 0%nat <> MAP_FAILED) ->
    let t := Bench1.main_aggregate ds in
    let t4 := Bench1.main_aggregate (joined_data 4 envs) in
    Bench1.total_ops t = sum_of_ops ds mod 2 ^ 64
    /\ (forall d, In d ds -> (Bench1.elapsed_sec d <= Bench1.max_time t)%Q)
    /\ (Bench1.max_time t = 0%Q
        \/ exists d, In d ds /\ Bench1.max_time t = Bench1.elapsed_sec d)
    /\ (0 <= Bench1.max_time t)%Q
    /\ ((0 < Bench1.max_time t)%Q ->
        Bench1.main_throughput t
        = Finite (inject_Z (sum_of_ops ds mod 2 ^ 64) / Bench1.max_time t)%Q)
    /\ ((Bench1.max_time t == 0)%Q ->
        (0 < sum_of_ops ds mod 2 ^ 64 -> Bench1.main_throughput t = PosInf)
        /\ (sum_of_ops ds mod 2 ^ 64 = 0 -> Bench1.main_throughput t = NaN))
    /\ map Bench1.ops (joined_data 4 envs) = [40000; 40000; 40000; 40000]
    /\ Bench1.total_ops t4 = 160000
    /\ ((0 < Bench1.max_time t4)%Q ->
        Bench1.main_throughput t4
        = Finite (inject_Z 160000 / Bench1.max_time t4)%Q).
Proof.
  intros ds envs Hok t t4.
  assert (Htot : forall l, Bench1.total_ops (Bench1.main_aggregate l)
                           = sum_of_ops l mod 2 ^ 64).
  { intros l. unfold Bench1.main_aggregate. rewrite aggregate_total.
    - reflexivity.
    - cbn. split; [lia | reflexivity]. }
  assert (H4 : map Bench1.ops (joined_data 4 envs) = [40000; 40000; 40000; 40000]).
  { unfold joined_data. change (zrange 4) with [0; 1; 2; 3].
    cbn [map]. cbv beta.
    rewrite !worker1_ops; try apply Hok; try reflexivity;
      unfold Bench1.NUM_OPS, INT_MAX; lia. }
  assert (Ht4 : Bench1.total_ops t4 = 160000).
  { subst t4. rewrite Htot. unfold sum_of_ops. rewrite H4. reflexivity. }
  destruct (aggregate_max ds (Bench1.mkTotals 0 0)) as (Hge & Hall & Hin).
  split; [apply Htot|]. split; [exact Hall|]. split; [exact Hin|].
  split; [exact Hge|].
  split; [|split; [|split; [exact H4|split; [exact Ht4|]]]].
  - intros Hpos. unfold Bench1.main_throughput. subst t. rewrite Htot.
    apply fdiv_cases. exact Hpos.
  - intros Hz. unfold Bench1.main_throughput. subst t. rewrite Htot. split.
    + intros Hp. apply fdiv_cases; [exact Hz|].
      change 0%Q with (inject_Z 0). rewrite <- Zlt_Qlt. exact Hp.
    + intros H0. rewrite H0. apply fdiv_cases; [exact Hz | reflexivity].
  - intros Hpos. unfold Bench1.main_throughput. rewrite Ht4.
    apply fdiv_cases. exact Hpos.
Qed.

(** Two workers, 40000 operations each, in half and in three quarters of
    a second: 80000 operations over 0.75 s. *)
Lemma aggregate_sum_and_max_witness :
  Bench1.main_throughput
    (Bench1.main_aggregate [Bench1.mkWorker 0 4096 (1 # 2) 40000;
                            Bench1.mkWorker 1 4096 (3 # 4) 40000])
  = Finite (inject_Z 80000 / (3 # 4))%Q.
Proof.
  refine (proj1 (proj2 (proj2 (proj2 (proj2
    (@aggregate_sum_and_max [Bench1.mkWorker 0 4096 (1 # 2) 40000;
                             Bench1.mkWorker 1 4096 (3 # 4) 40000]
       (fun _ => example_env) _))))) _).
  - intros i. simpl. discriminate.
  - reflexivity.
Defined.

(** ** Thread creation in microbenchmark3.c and microbenchmark4.c *)

Lemma slot_entries_app t slots1 : forall i slots2,
  slot_entries t i (slots1 ++ slots2)
  = slot_entries t i slots1
    ++ slot_entries t (i + Z.of_nat (length slots1)) slots2.
Proof.
  induction slots1 as [|[n s] slots1 IH]; intros i slots2.
  - cbn. rewrite Z.add_0_r. reflexivity.
  - cbn [app slot_entries length]. rewrite IH. f_equal. f_equal. f_equal. lia.
Qed.

Lemma slot_entries_length t slots : forall i,
  length (slot_entries t i slots) = length slots.
Proof.
  induction slots as [|[n s] slots IH]; intros i; [reflexivity|].
  cbn. rewrite IH. reflexivity.
Qed.

Lemma int_wrap_range z : INT_MIN <= int_wrap z <= INT_MAX.
Proof.
  unfold int_wrap, INT_MIN, INT_MAX.
  pose proof (Z.mod_pos_bound (z + 2 ^ 31) (2 ^ 32) ltac:(lia)). lia.
Qed.

Lemma int_wrap_small z : INT_MIN <= z <= INT_MAX -> int_wrap z = z.
Proof.
  unfold int_wrap, INT_MIN, INT_MAX. intros H.
  rewrite Z.mod_small by lia. lia.
Qed.

Section Creation.
Variable t : topology.
Variable spinners_per_node : Z.
Variable pthread_create_ok : Z -> bool.
Variable capacity : Z.

Let avail (n s : Z) : bool := 0 <=? Bench3.get_cpu_for_node t n s.

(** The inner loop over a list [l] of values of [s]. *)
Lemma inner_loop_result n l : forall c c',
  Bench3.for_each l (Bench3.try_spinner t pthread_create_ok capacity n) c
  = Bench3.Next c' ->
  Bench3.idx c' = Bench3.idx c + Z.of_nat (length (filter (avail n) l))
  /\ Bench3.created c'
     = Bench3.created c
       ++ slot_entries t (Bench3.idx c) (map (pair n) (filter (avail n) l))
  /\ (Bench3.idx c <= capacity -> Bench3.idx c' <= capacity).
Proof.
  induction l as [|s l IH]; intros c c' H.
  - cbn in H. injection H as <-. cbn. rewrite Z.add_0_r, app_nil_r. auto.
  - cbn [Bench3.for_each] in H. unfold Bench3.try_spinner in H at 1.
    cbn [filter]. rewrite Z.ltb_antisym in H.
    fold (avail n s) in H. destruct (avail n s).
    + cbn [negb] in H.
      destruct (Z.leb_spec capacity (Bench3.idx c)) as [|Hcap]; [discriminate|].
      destruct (pthread_create_ok (Bench3.idx c)); [|discriminate].
      apply IH in H. cbn [Bench3.idx Bench3.created] in H.
      destruct H as (Hi & Hc & Hb). split; [|split].
      * rewrite Hi. cbn [length]. lia.
      * rewrite Hc. cbn [map slot_entries]. rewrite <- app_assoc. reflexivity.
      * intros _. apply Hb. lia.
    + cbn [negb] in H. apply IH. exact H.
Qed.

Lemma inner_loop_succeeds n l : forall c,
  (forall i, pthread_create_ok i = true) ->
  Bench3.idx c + Z.of_nat (length (filter (avail n) l)) <= capacity ->
  exists c',
    Bench3.for_each l (Bench3.try_spinner t pthread_create_ok capacity n) c
    = Bench3.Next c'.
Proof.
  induction l as [|s l IH]; intros c Hok Hcap.
  - eexists. reflexivity.
  - cbn [Bench3.for_each]. unfold Bench3.try_spinner at 1.
    cbn [filter] in Hcap. rewrite Z.ltb_antisym. fold (avail n s).
    fold (avail n s) in Hcap. destruct (avail n s); cbn [negb].
    + cbn [length] in Hcap.
      destruct (Z.leb_spec capacity (Bench3.idx c)) as [|_]; [lia|].
      rewrite Hok. apply IH; [exact Hok|]. cbn [Bench3.idx]. lia.
    + apply IH; assumption.
Qed.

(** The inner loop leaves [main] exactly when a [pthread_create] it
    makes fails, and overruns the arrays when it comes to a CPU with all
    their entries used. *)
Lemma inner_loop_status n l : forall c,
  match Bench3.for_each l (Bench3.try_spinner t pthread_create_ok capacity n) c with
  | Bench3.Next c' =>
      forall i, Bench3.idx c <= i < Bench3.idx c' -> pthread_create_ok i = true
  | Bench3.Exit status =>
      status = 1
      /\ exists i, Bench3.idx c <= i
                   < Bench3.idx c + Z.of_nat (length (filter (avail n) l))
                   /\ pthread_create_ok i = false
  | Bench3.Overrun =>
      capacity < Bench3.idx c + Z.of_nat (length (filter (avail n) l))
  end.
Proof.
  induction l as [|s l IH]; intros c.
  - cbn. intros i Hi. lia.
  - cbn [Bench3.for_each filter]. unfold Bench3.try_spinner at 1.
    rewrite Z.ltb_antisym. fold (avail n s). destruct (avail n s); cbn [negb].
    + destruct (Z.leb_spec capacity (Bench3.idx c)) as [Hfull|_];
        [cbn [length]; lia|].
      destruct (pthread_create_ok (Bench3.idx c)) eqn:Eok.
      * specialize (IH (Bench3.mkCreation (Bench3.idx c + 1)
                          (Bench3.created c
                           ++ [Bench3.mkSpinner (Bench3.idx c) n
                                 (Bench3.get_cpu_for_node t n s) 0]))).
        destruct (Bench3.for_each l _ _) as [c'|status|]; cbn [Bench3.idx] in IH.
        -- intros i Hi. destruct (Z.eq_dec i (Bench3.idx c)) as [->|Hne];
             [exact Eok | apply IH; lia].
        -- destruct IH as [Hst [i [Hi Hf]]]. split; [exact Hst|].
           exists i. cbn [length]. split; [lia | exact Hf].
        -- cbn [length]. lia.
      * split; [reflexivity|].
        exists (Bench3.idx c). cbn [length]. split; [lia | exact Eok].
    + apply IH.
Qed.

(** The slots of the outer loop over a list [nodes] of node numbers. *)
Let slots_of (nodes : list Z) : list (Z * Z) :=
  flat_map (fun n => if n =? Bench3.WORKER_NODE then []
                     else map (pair n) (cpu_slots t spinners_per_node n))
           nodes.

Let outer_body (n : Z) (c : Bench3.creation) : Bench3.outcome Bench3.creation :=
  if n =? Bench3.WORKER_NODE then Bench3.Next c
  else Bench3.for_each (zrange spinners_per_node)
         (Bench3.try_spinner t pthread_create_ok capacity n) c.

Lemma outer_loop_result nodes : forall c c',
  Bench3.for_each nodes outer_body c = Bench3.Next c' ->
  Bench3.idx c' = Bench3.idx c + Z.of_nat (length (slots_of nodes))
  /\ Bench3.created c'
     = Bench3.created c ++ slot_entries t (Bench3.idx c) (slots_of nodes)
  /\ (Bench3.idx c <= capacity -> Bench3.idx c' <= capacity).
Proof.
  induction nodes as [|n nodes IH]; intros c c' H.
  - cbn in H. injection H as <-. cbn. rewrite Z.add_0_r, app_nil_r. auto.
  - cbn [Bench3.for_each] in H. unfold outer_body in H at 1.
    unfold slots_of. cbn [flat_map]. fold (slots_of nodes).
    destruct (n =? Bench3.WORKER_NODE).
    + cbn [app]. apply IH. exact H.
    + destruct (Bench3.for_each (zrange spinners_per_node)
                  (Bench3.try_spinner t pthread_create_ok capacity n) c)
        as [c1| |] eqn:E1; [|discriminate|discriminate].
      apply inner_loop_result in E1. destruct E1 as (Hi1 & Hc1 & Hb1).
      apply IH in H. destruct H as (Hi & Hc & Hb).
      change (filter (avail n) (zrange spinners_per_node))
        with (cpu_slots t spinners_per_node n) in Hi1, Hc1.
      split; [|split].
      * rewrite Hi, Hi1, length_app, length_map. lia.
      * rewrite Hc, Hc1, slot_entries_app, Hi1, length_map, <- app_assoc.
        reflexivity.
      * intros H0. apply Hb, Hb1, H0.
Qed.

Lemma outer_loop_succeeds nodes : forall c,
  (forall i, pthread_create_ok i = true) ->
  Bench3.idx c + Z.of_nat (length (slots_of nodes)) <= capacity ->
  exists c', Bench3.for_each nodes outer_body c = Bench3.Next c'.
Proof.
  induction nodes as [|n nodes IH]; intros c Hok Hcap.
  - eexists. reflexivity.
  - cbn [Bench3.for_each]. unfold outer_body at 1.
    unfold slots_of in Hcap. cbn [flat_map] in Hcap. fold (slots_of nodes) in Hcap.
    destruct (n =? Bench3.WORKER_NODE); [apply IH; assumption|].
    rewrite length_app, length_map in Hcap.
    destruct (@inner_loop_succeeds n (zrange spinners_per_node) c Hok)
      as [c1 E1].
    { change (filter (avail n) (zrange spinners_per_node))
        with (cpu_slots t spinners_per_node n). lia. }
    rewrite E1. apply inner_loop_result in E1. destruct E1 as (Hi1 & _ & _).
    change (filter (avail n) (zrange spinners_per_node))
      with (cpu_slots t spinners_per_node n) in Hi1.
    apply IH; [exact Hok | lia].
Qed.

Lemma outer_loop_status nodes : forall c,
  match Bench3.for_each nodes outer_body c with
  | Bench3.Next c' =>
      forall i, Bench3.idx c <= i < Bench3.idx c' -> pthread_create_ok i = true
  | Bench3.Exit status =>
      status = 1 /\ exists i, Bench3.idx c <= i /\ pthread_create_ok i = false
  | Bench3.Overrun =>
      capacity < Bench3.idx c + Z.of_nat (length (slots_of nodes))
  end.
Proof.
  induction nodes as [|n nodes IH]; intros c.
  - cbn. intros i Hi. lia.
  - cbn [Bench3.for_each]. unfold outer_body at 1.
    unfold slots_of. cbn [flat_map]. fold (slots_of nodes).
    destruct (n =? Bench3.WORKER_NODE); [apply IH|].
    rewrite length_app, length_map.
    pose proof (inner_loop_status n (zrange spinners_per_node) c) as Hin.
    change (filter (avail n) (zrange spinners_per_node))
      with (cpu_slots t spinners_per_node n) in Hin.
    destruct (Bench3.for_each (zrange spinners_per_node) _ c)
      as [c1|status|] eqn:E1.
    + apply inner_loop_result in E1. destruct E1 as (Hi1 & _ & _).
      change (filter (avail n) (zrange spinners_per_node))
        with (cpu_slots t spinners_per_node n) in Hi1.
      specialize (IH c1).
      destruct (Bench3.for_each nodes outer_body c1) as [c'|status|].
      * intros i Hi. destruct (Z_lt_le_dec i (Bench3.idx c1));
          [apply Hin | apply IH]; lia.
      * destruct IH as [Hst [i [Hi Hf]]]. split; [exact Hst|].
        exists i. split; [lia | exact Hf].
      * lia.
    + destruct Hin as [Hst [i [Hi Hf]]]. split; [exact Hst|].
      exists i. split; [lia | exact Hf].
    + lia.
Qed.

(** The creation loop creates one spinner per slot and counts them. *)
Lemma create_spinners_result c :
  Bench3.create_spinners t spinners_per_node pthread_create_ok capacity
  = Bench3.Next c ->
  Bench3.idx c = Z.of_nat (length (spinner_slots t spinners_per_node))
  /\ Bench3.created c = slot_entries t 0 (spinner_slots t spinners_per_node)
  /\ (0 <= capacity -> Bench3.idx c <= capacity).
Proof.
  intros H. apply outer_loop_result in H. exact H.
Qed.

Lemma create_spinners_succeeds :
  (forall i, pthread_create_ok i = true) ->
  Z.of_nat (length (spinner_slots t spinners_per_node)) <= capacity ->
  exists c,
    Bench3.create_spinners t spinners_per_node pthread_create_ok capacity
    = Bench3.Next c.
Proof. intros Hok Hcap. apply outer_loop_succeeds; [exact Hok | exact Hcap]. Qed.

Lemma create_spinners_status :
  match Bench3.create_spinners t spinners_per_node pthread_create_ok capacity with
  | Bench3.Next c =>
      forall i, 0 <= i < Bench3.idx c -> pthread_create_ok i = true
  | Bench3.Exit status =>
      status = 1 /\ exists i, 0 <= i /\ pthread_create_ok i = false
  | Bench3.Overrun =>
      capacity < Z.of_nat (length (spinner_slots t spinners_per_node))
  end.
Proof. exact (outer_loop_status _ (Bench3.mkCreation 0 [])). Qed.
End Creation.

Lemma zrange_length n : length (zrange n) = Z.to_nat n.
Proof. unfold zrange. rewrite length_map, length_seq. reflexivity. Qed.

Lemma zrange_In x n : In x (zrange n) <-> 0 <= x < n.
Proof.
  unfold zrange. rewrite in_map_iff. split.
  - intros (k & <- & Hk). apply in_seq in Hk. lia.
  - intros H. exists (Z.to_nat x). split; [lia|]. apply in_seq. lia.
Qed.

Lemma zrange_head n :
  1 <= n -> zrange n = 0 :: map Z.of_nat (seq 1 (Z.to_nat n - 1)).
Proof.
  intros H. unfold zrange.
  replace (Z.to_nat n) with (S (Z.to_nat n - 1)) at 1 by lia.
  reflexivity.
Qed.

Lemma flat_map_length_le A B (f : A -> list B) l k :
  (forall x, In x l -> (length (f x) <= k)%nat) ->
  (length (flat_map f l) <= length l * k)%nat.
Proof.
  induction l as [|x l IH]; intros H; [cbn; lia|].
  cbn [flat_map length]. rewrite length_app.
  specialize (H x (or_introl eq_refl)) as Hx.
  assert (Hl : (length (flat_map f l) <= length l * k)%nat).
  { apply IH. intros y Hy. apply H. now right. }
  lia.
Qed.

Lemma flat_map_length_eq A B (f : A -> list B) l k :
  (forall x, In x l -> length (f x) = k) ->
  length (flat_map f l) = (length l * k)%nat.
Proof.
  induction l as [|x l IH]; intros H; [reflexivity|].
  cbn [flat_map length]. rewrite length_app.
  rewrite (H x (or_introl eq_refl)), IH; [lia|].
  intros y Hy. apply H. now right.
Qed.

Lemma filter_all A (p : A -> bool) l :
  (forall x, In x l -> p x = true) -> filter p l = l.
Proof.
  induction l as [|x l IH]; intros H; [reflexivity|].
  cbn. rewrite (H x (or_introl eq_refl)). f_equal.
  apply IH. intros y Hy. apply H. now right.
Qed.

(** At most [spinners_per_node] spinners per remote node. *)
Lemma spinner_slots_le t S :
  0 <= S -> 1 <= numa_num_configured_nodes t ->
  Z.of_nat (length (spinner_slots t S)) <= S * (numa_num_configured_nodes t - 1).
Proof.
  intros HS HM. unfold spinner_slots. rewrite zrange_head by exact HM.
  cbn [flat_map]. change (0 =? Bench3.WORKER_NODE) with true. cbn [app].
  match goal with
  | |- Z.of_nat (length (flat_map ?f ?l)) <= _ =>
      pose proof (@flat_map_length_le _ _ f l (Z.to_nat S)) as H
  end.
  rewrite length_map, length_seq in H.
  lapply H; [intros Hle; nia|].
  intros n _. destruct (n =? Bench3.WORKER_NODE); [cbn; lia|].
  rewrite length_map. unfold cpu_slots.
  etransitivity; [apply filter_length_le|]. rewrite zrange_length. lia.
Qed.

(** Exactly [spinners_per_node] per remote node when every remote node has
    that many CPUs. *)
Lemma spinner_slots_full t S :
  0 <= S -> 1 <= numa_num_configured_nodes t ->
  (forall n s, 1 <= n < numa_num_configured_nodes t -> 0 <= s < S ->
               0 <= Bench3.get_cpu_for_node t n s) ->
  Z.of_nat (length (spinner_slots t S)) = S * (numa_num_configured_nodes t - 1).
Proof.
  intros HS HM Hall. unfold spinner_slots. rewrite zrange_head by exact HM.
  cbn [flat_map]. change (0 =? Bench3.WORKER_NODE) with true. cbn [app].
  rewrite (@flat_map_length_eq _ _ _ _ (Z.to_nat S)).
  - rewrite length_map, length_seq. nia.
  - intros n Hn. apply in_map_iff in Hn as (k & <- & Hk). apply in_seq in Hk.
    destruct (Z.eqb_spec (Z.of_nat k) Bench3.WORKER_NODE) as [E|_];
      [unfold Bench3.WORKER_NODE in E; lia|].
    rewrite length_map. unfold cpu_slots. rewrite filter_all.
    + apply zrange_length.
    + intros s Hs. apply zrange_In in Hs. apply Z.leb_le. apply Hall; lia.
Qed.

(** What [main] holds at the ready-wait loop, for a count [S >= 0]. *)
Lemma initial_total_range t S :
  INT_MIN <= Bench3.initial_total_spinners t S <= INT_MAX.
Proof. apply int_wrap_range. Qed.

(** What the launch is, from the total [main] computes first. *)
Lemma main_create_threads_next t S ok l :
  Bench3.main_create_threads t S ok = Bench3.Next l ->
  let total := Bench3.initial_total_spinners t S in
  (0 < total ->
   Bench3.spinner_data l = slot_entries t 0 (spinner_slots t S)
   /\ Bench3.total_spinners l = Z.of_nat (length (Bench3.spinner_data l))
   /\ Bench3.expected_ready l
      = int_wrap (Z.of_nat (length (Bench3.spinner_data l)) + 1)
   /\ Z.of_nat (length (Bench3.spinner_data l)) <= total)
  /\ (total <= 0 ->
      Bench3.spinner_data l = []
      /\ Bench3.total_spinners l = total
      /\ Bench3.expected_ready l = total + 1).
Proof.
  intros H total. unfold Bench3.main_create_threads in H. fold total in H.
  destruct (negb (numa_available t)); [discriminate|].
  destruct (Z.ltb_spec 0 total) as [Hpos|Hneg].
  - split; [intros _ | lia].
    destruct (Bench3.create_spinners t S ok total) as [c| |] eqn:Ec;
      [|discriminate|discriminate].
    apply create_spinners_result in Ec. destruct Ec as (Hi & Hc & Hb).
    cbn [Bench3.spinner_data] in H.
    destruct (ok (Z.of_nat (length (Bench3.created c)))); [|discriminate].
    injection H as <-. cbn [Bench3.spinner_data Bench3.total_spinners
                            Bench3.expected_ready].
    rewrite Hc, slot_entries_length, <- Hi.
    repeat split; try reflexivity. apply Hb. lia.
  - split; [lia | intros _].
    cbn [Bench3.spinner_data length] in H.
    destruct (ok (Z.of_nat 0)); [|discriminate].
    injection H as <-. cbn [Bench3.spinner_data Bench3.total_spinners
                            Bench3.expected_ready].
    repeat split. apply int_wrap_small.
    pose proof (initial_total_range t S) as Hr. fold total in Hr.
    unfold INT_MIN, INT_MAX in *. lia.
Qed.

(** A product that fits an [int] is computed as it is. *)
Lemma initial_total_exact t S :
  0 <= S -> 1 <= numa_num_configured_nodes t ->
  S * (numa_num_configured_nodes t - 1) <= INT_MAX ->
  Bench3.initial_total_spinners t S = S * (numa_num_configured_nodes t - 1).
Proof.
  intros HS HM Hfit. unfold Bench3.initial_total_spinners.
  apply int_wrap_small. unfold INT_MIN. nia.
Qed.

Lemma main_create_threads_launch t S ok l :
  0 <= S -> 1 <= numa_num_configured_nodes t ->
  S * (numa_num_configured_nodes t - 1) < INT_MAX ->
  Bench3.main_create_threads t S ok = Bench3.Next l ->
  Bench3.spinner_data l = slot_entries t 0 (spinner_slots t S)
  /\ Bench3.total_spinners l = Z.of_nat (length (Bench3.spinner_data l))
  /\ Bench3.expected_ready l = Z.of_nat (length (Bench3.spinner_data l)) + 1.
Proof.
  intros HS HM Hfit H. apply main_create_threads_next in H.
  rewrite initial_total_exact in H by (assumption || lia).
  cbv zeta in H. destruct H as [Hpos Hzero].
  destruct (Z.lt_ge_cases 0 (S * (numa_num_configured_nodes t - 1))) as [Hp|Hz].
  - destruct (Hpos Hp) as (Hd & Ht & He & Hle).
    split; [exact Hd|]. split; [exact Ht|]. rewrite He.
    apply int_wrap_small. unfold INT_MIN, INT_MAX in *. lia.
  - destruct (Hzero ltac:(lia)) as (Hd & Ht & He).
    pose proof (spinner_slots_le t HS HM) as Hle.
    assert (Hs : spinner_slots t S = []).
    { destruct (spinner_slots t S); [reflexivity|]. cbn [length] in Hle. lia. }
    rewrite Hs, Hd, Ht, He. cbn. repeat split; nia.
Qed.

(** The array, when the product fits an [int]. *)
Lemma main_create_threads_data t S ok l :
  0 <= S -> 1 <= numa_num_configured_nodes t ->
  S * (numa_num_configured_nodes t - 1) <= INT_MAX ->
  Bench3.main_create_threads t S ok = Bench3.Next l ->
  Bench3.spinner_data l = slot_entries t 0 (spinner_slots t S).
Proof.
  intros HS HM Hfit H. apply main_create_threads_next in H.
  rewrite initial_total_exact in H by assumption.
  cbv zeta in H. destruct H as [Hpos Hzero].
  destruct (Z.lt_ge_cases 0 (S * (numa_num_configured_nodes t - 1))) as [Hp|Hz].
  - apply (Hpos Hp).
  - destruct (Hzero ltac:(lia)) as (Hd & _ & _).
    pose proof (spinner_slots_le t HS HM) as Hle.
    destruct (spinner_slots t S); [exact Hd|]. cbn [length] in Hle. lia.
Qed.

(** The array is that of the slots, or empty. *)
Lemma main_create_threads_entries t S ok l :
  Bench3.main_create_threads t S ok = Bench3.Next l ->
  Bench3.spinner_data l = slot_entries t 0 (spinner_slots t S)
  \/ Bench3.spinner_data l = [].
Proof.
  intros H. apply main_create_threads_next in H. cbv zeta in H.
  destruct H as [Hpos Hzero].
  destruct (Z.lt_ge_cases 0 (Bench3.initial_total_spinners t S)) as [Hp|Hz].
  - left. apply (Hpos Hp).
  - right. apply (Hzero ltac:(lia)).
Qed.

Lemma main_create_threads_succeeds t S ok :
  0 <= S -> 1 <= numa_num_configured_nodes t ->
  S * (numa_num_configured_nodes t - 1) <= INT_MAX ->
  numa_available t = true -> (forall i, ok i = true) ->
  exists l, Bench3.main_create_threads t S ok = Bench3.Next l.
Proof.
  intros HS HM Hfit Ha Hok. unfold Bench3.main_create_threads.
  rewrite Ha. cbn [negb]. rewrite initial_total_exact by assumption.
  destruct (0 <? S * (numa_num_configured_nodes t - 1)).
  - destruct (@create_spinners_succeeds t S ok
                (S * (numa_num_configured_nodes t - 1)) Hok) as [c ->].
    { apply spinner_slots_le; assumption. }
    cbn [Bench3.spinner_data]. rewrite Hok. eexists. reflexivity.
  - cbn [Bench3.spinner_data]. rewrite Hok. eexists. reflexivity.
Qed.

(** For every value of [spinners_per_node], negative ones included, the
    count [main] waits for never exceeds the threads it created. *)
Lemma expected_ready_upper t S ok l :
  Bench3.main_create_threads t S ok = Bench3.Next l ->
  Bench3.expected_ready l <= 1 + Z.of_nat (length (Bench3.spinner_data l)).
Proof.
  intros H. apply main_create_threads_next in H. cbv zeta in H.
  destruct H as [Hpos Hzero].
  destruct (Z.lt_ge_cases 0 (Bench3.initial_total_spinners t S)) as [Hp|Hz].
  - destruct (Hpos Hp) as (_ & _ & He & Hle). rewrite He.
    pose proof (initial_total_range t S) as Hr.
    destruct (Z.eq_dec (Z.of_nat (length (Bench3.spinner_data l))) INT_MAX)
      as [Heq|Hne].
    + rewrite Heq. vm_compute. discriminate.
    + rewrite int_wrap_small; unfold INT_MIN, INT_MAX in *; lia.
  - destruct (Hzero ltac:(lia)) as (Hd & _ & He). rewrite He, Hd. cbn. lia.
Qed.

(** With a first total that is not negative, [main] waits for the
    threads it created, the worker included. *)
Lemma expected_ready_exact t S ok l :
  Bench3.main_create_threads t S ok = Bench3.Next l ->
  0 <= Bench3.initial_total_spinners t S < INT_MAX ->
  Bench3.expected_ready l = 1 + Z.of_nat (length (Bench3.spinner_data l)).
Proof.
  intros Hl Hr. apply main_create_threads_next in Hl. cbv zeta in Hl.
  destruct Hl as [Hpos Hzero].
  destruct (Z.eq_dec (Bench3.initial_total_spinners t S) 0) as [H0|Hn0].
  - destruct (Hzero ltac:(lia)) as (Hd & _ & He). rewrite Hd, He, H0. reflexivity.
  - destruct (Hpos ltac:(lia)) as (_ & _ & He & Hle). rewrite He.
    rewrite int_wrap_small; unfold INT_MIN, INT_MAX in *; lia.
Qed.

(** C9, as the code has it.  Whenever [main] of microbenchmark3.c/4.c
    reaches its ready-wait loop, the count it waits for is at most one plus
    the number of spinner threads it created, so it never waits for a
    participant that was not created.  The two are equal, and
    [total_spinners] is the number created, whenever the total [main]
    computes first, [spinners_per_node * (num_nodes - 1)] as an [int], is
    not negative (and below [INT_MAX]): the spinners created are then
    those of the pairs (node, s) at which the node has a CPU, a pair whose
    CPU is missing being skipped, and both counts are set to their number.
    When that total is negative, as for a negative [-s] value, the guard
    [total_spinners > 0] is not entered: no spinner is created, the counts
    keep their first values and the count waited for is not positive. *)
Theorem expected_ready_counts_created :
  forall (t : topology) (S : Z) (ok : Z -> bool) (l : Bench3.launch),
    Bench3.main_create_threads t S ok = Bench3.Next l ->
    let total := Bench3.initial_total_spinners t S in
    let made := Z.of_nat (length (Bench3.spinner_data l)) in
    Bench3.expected_ready l <= 1 + made
    /\ (0 <= total < INT_MAX ->
        Bench3.expected_ready l = 1 + made
        /\ Bench3.total_spinners l = made
        /\ made <= total
        /\ Barrier.cfg_expected (Barrier.bench3_config l)
           = Z.of_nat (length (Barrier.cfg_roles (Barrier.bench3_config l)))
        /\ Barrier.cfg_expected (Barrier.bench4_config l)
           = Z.of_nat (length (Barrier.cfg_roles (Barrier.bench4_config l))))
    /\ (0 < total ->
        Bench3.spinner_data l = slot_entries t 0 (spinner_slots t S))
    /\ (total <= 0 ->
        Bench3.spinner_data l = []
        /\ Bench3.total_spinners l = total
        /\ Bench3.expected_ready l = total + 1)
    /\ (total < 0 -> Bench3.expected_ready l < 1 + made).
Proof.
  intros t S ok l Hl total made.
  pose proof (expected_ready_upper t S ok Hl) as Hup.
  apply main_create_threads_next in Hl. fold total in Hl. cbv zeta in Hl.
  destruct Hl as [Hpos Hzero].
  split; [exact Hup|]. split; [|split; [|split]].
  - intros Hr.
    assert (He : Bench3.expected_ready l = 1 + made
                 /\ Bench3.total_spinners l = made /\ made <= total).
    { destruct (Z.eq_dec total 0) as [H0|Hn0].
      - destruct (Hzero ltac:(lia)) as (Hd & Ht & He).
        subst made. rewrite Hd, Ht, He, H0. cbn. lia.
      - destruct (Hpos ltac:(lia)) as (_ & Ht & He & Hle).
        fold made in Ht, He, Hle. rewrite He.
        rewrite int_wrap_small; unfold INT_MIN, INT_MAX in *; lia. }
    destruct He as (He & Ht & Hle).
    assert (Hcfg : Bench3.expected_ready l
                   = Z.of_nat (length (map (fun _ => Barrier.Spinner)
                                           (Bench3.spinner_data l)
                                       ++ [Barrier.Worker]))).
    { rewrite length_app, length_map, He. subst made. cbn [length]. lia. }
    repeat split; assumption.
  - intros Hp. apply (Hpos Hp).
  - exact Hzero.
  - intros Hn. destruct (Hzero ltac:(lia)) as (_ & _ & He). rewrite He. lia.
Qed.

Lemma expected_ready_counts_created_witness :
  Bench3.expected_ready
    (Bench3.mkLaunch 2 3 [Bench3.mkSpinner 0 1 2 0; Bench3.mkSpinner 1 1 3 0])
  = 1 + 2.
Proof.
  refine (proj1 (proj1 (proj2
    (@expected_ready_counts_created example_topology 3 (fun _ => true)
       (Bench3.mkLaunch 2 3
          [Bench3.mkSpinner 0 1 2 0; Bench3.mkSpinner 1 1 3 0]) _)) _)).
  - reflexivity.
  - vm_compute. split; [discriminate | reflexivity].
Defined.

(** The claim of C9 fails for a negative spinner count, which [atoi]
    lets through: with [-s -1] on two nodes [main] computes the total -1,
    skips the creation of spinners and waits for [-1 + 1 = 0]
    participants, not for the [0 + 1] that the worker alone makes. *)
Lemma expected_ready_counterexample :
  Bench3.main_create_threads small_topology (-1) (fun _ => true)
  = Bench3.Next (Bench3.mkLaunch (-1) 0 [])
  /\ Bench3.expected_ready (Bench3.mkLaunch (-1) 0 [])
     <> 1 + Z.of_nat (length (Bench3.spinner_data (Bench3.mkLaunch (-1) 0 []))).
Proof. split; [reflexivity | discriminate]. Qed.

(** ** The barrier *)

Lemma set_nth_length i t l : length (Barrier.set_nth i t l) = length l.
Proof.
  revert i. induction l as [|x l IH]; intros [|i]; cbn; auto.
Qed.

Lemma set_nth_In i t l x :
  In x (Barrier.set_nth i t l) -> x = t \/ In x l.
Proof.
  revert i. induction l as [|y l IH]; intros [|i]; cbn; try tauto.
  - intros [<- | H]; auto.
  - intros [<- | H]; auto. destruct (IH i H); auto.
Qed.

Lemma nth_error_set_nth i t l x :
  nth_error l i = Some x -> nth_error (Barrier.set_nth i t l) i = Some t.
Proof.
  revert i. induction l as [|y l IH]; intros [|i]; cbn; try discriminate; auto.
Qed.

Lemma increments_cons x l :
  increments (x :: l) = (if Barrier.incremented x then 1 else 0) + increments l.
Proof. reflexivity. Qed.

Lemma failures_cons x l :
  failures (x :: l) = (if Barrier.has_failed x then 1 else 0) + failures l.
Proof. reflexivity. Qed.

Lemma increments_set_nth i t t' l :
  nth_error l i = Some t ->
  increments (Barrier.set_nth i t' l)
  = increments l
    - (if Barrier.incremented t then 1 else 0)
    + (if Barrier.incremented t' then 1 else 0).
Proof.
  revert i. induction l as [|y l IH]; intros [|i];
    cbn [nth_error Barrier.set_nth]; try discriminate.
  - intros [= ->]. rewrite !increments_cons. lia.
  - intros H. rewrite !increments_cons, (IH i H). lia.
Qed.

Lemma increments_app l1 l2 : increments (l1 ++ l2) = increments l1 + increments l2.
Proof.
  induction l1 as [|x l1 IH]; [reflexivity|].
  cbn [app]. rewrite !increments_cons, IH. lia.
Qed.

(** A participant cannot both have incremented and have failed. *)
Lemma increments_failures_le l :
  0 <= increments l /\ 0 <= failures l
  /\ increments l + failures l <= Z.of_nat (length l).
Proof.
  induction l as [|[r pc] l IH].
  - cbn. lia.
  - rewrite increments_cons, failures_cons. cbn [length].
    unfold Barrier.incremented, Barrier.has_failed. cbn [Barrier.t_pc].
    destruct pc; lia.
Qed.

Lemma failures_positive l :
  existsb Barrier.has_failed l = true -> 1 <= failures l.
Proof.
  induction l as [|x l IH]; cbn [existsb]; [discriminate|].
  rewrite failures_cons. pose proof (increments_failures_le l) as Hle.
  destruct (Barrier.has_failed x); cbn [orb]; [lia|].
  intros H. apply IH in H. lia.
Qed.

(** What one step of a participant changes. *)
Lemma thread_step_facts cfg ok s t :
  let t' := fst (Barrier.thread_step cfg ok s t) in
  let inc := snd (Barrier.thread_step cfg ok s t) in
  inc = (if Barrier.incremented t' then 1 else 0)
        - (if Barrier.incremented t then 1 else 0)
  /\ 0 <= inc
  /\ (Barrier.in_main_loop t' = true ->
      Barrier.in_main_loop t = true
      \/ (Barrier.t_pc t = Barrier.Polling /\ Barrier.go s = true))
  /\ (Barrier.has_failed t = true -> t' = t)
  /\ (Barrier.has_failed t' = true -> Barrier.has_failed t = false ->
      Barrier.t_role t = Barrier.Worker /\ Barrier.t_pc t = Barrier.Setup
      /\ Barrier.cfg_prealloc cfg = true /\ ok = false /\ inc = 0).
Proof.
  destruct t as [r pc]. unfold Barrier.thread_step. cbn [Barrier.t_pc Barrier.t_role].
  destruct pc, r; cbn;
    try (destruct (Barrier.cfg_prealloc cfg), ok; cbn);
    try (destruct (Barrier.go s); cbn);
    try (destruct (Barrier.stop_spinners s); cbn);
    repeat split; intros; try discriminate; try lia; auto.
Qed.

Lemma barrier_inv_init cfg : barrier_inv cfg (Barrier.init cfg).
Proof.
  constructor; cbn; try discriminate; try tauto; try lia.
Qed.

Lemma barrier_inv_driver cfg ok s :
  barrier_inv cfg s -> barrier_inv cfg (Barrier.driver_step cfg ok s).
Proof.
  intros [Hgo Harm Hpast Hmain Hcount Hlen].
  unfold Barrier.driver_step.
  destruct (Barrier.driver s) as [[|r todo]| | | | | | |] eqn:Ed;
    repeat match goal with
           | |- context [if ?b then _ else _] => destruct b eqn:?
           end;
    (constructor;
     cbn [Barrier.ready_count Barrier.go Barrier.driver Barrier.threads
          Barrier.with_driver past_arming pending length] in *;
     rewrite ?Ed; cbn [past_arming pending length];
     intros; try discriminate; try congruence; eauto; try lia).
  - match goal with
    | H : In _ (_ ++ _) |- _ => apply in_app_or in H as [H | [<- | []]]
    end; [eauto | discriminate].
  - rewrite increments_app, Hcount. cbn. lia.
  - rewrite length_app. cbn [length]. lia.
Qed.

Lemma barrier_inv_thread cfg i ok s :
  barrier_inv cfg s -> barrier_inv cfg (Barrier.step cfg (Barrier.Thread i ok) s).
Proof.
  intros Hinv. pose proof Hinv as [Hgo Harm Hpast Hmain Hcount Hlen].
  cbn [Barrier.step].
  destruct (nth_error (Barrier.threads s) i) as [t|] eqn:Et; [|exact Hinv].
  pose proof (thread_step_facts cfg ok s t) as (Hinc & Hpos & Hm & _ & _).
  destruct (Barrier.thread_step cfg ok s t) as [t' inc]. cbn [fst snd] in *.
  constructor; cbn [Barrier.ready_count Barrier.go Barrier.driver Barrier.threads].
  - intros H. specialize (Hgo H). lia.
  - intros H. specialize (Harm H). lia.
  - exact Hpast.
  - intros x Hx Hxm. apply set_nth_In in Hx as [-> | Hx]; [|eauto].
    destruct (Hm Hxm) as [Hold | [_ Hg]]; [|exact Hg].
    apply (Hmain t); [|exact Hold]. eapply nth_error_In; exact Et.
  - rewrite (increments_set_nth _ _ _ Et), Hcount, Hinc. lia.
  - rewrite set_nth_length. exact Hlen.
Qed.

Lemma barrier_inv_step cfg a s :
  barrier_inv cfg s -> barrier_inv cfg (Barrier.step cfg a s).
Proof.
  destruct a as [ok | i ok].
  - apply barrier_inv_driver.
  - apply barrier_inv_thread.
Qed.

Lemma barrier_inv_run cfg sched : forall s,
  barrier_inv cfg s -> barrier_inv cfg (Barrier.run cfg sched s).
Proof.
  induction sched as [|a sched IH]; intros s H; [exact H|].
  cbn [Barrier.run fold_left]. apply IH. apply barrier_inv_step. exact H.
Qed.

Lemma run_app cfg sched1 sched2 s :
  Barrier.run cfg (sched1 ++ sched2) s
  = Barrier.run cfg sched2 (Barrier.run cfg sched1 s).
Proof. unfold Barrier.run. apply fold_left_app. Qed.

(** [ready_count] never decreases and [go] is never reset. *)
Lemma step_monotone cfg a s :
  Barrier.ready_count s <= Barrier.ready_count (Barrier.step cfg a s)
  /\ (Barrier.go s = true -> Barrier.go (Barrier.step cfg a s) = true).
Proof.
  destruct a as [ok | i ok]; cbn [Barrier.step].
  - unfold Barrier.driver_step.
    destruct (Barrier.driver s) as [[|r todo]| | | | | | |]; cbn;
      repeat match goal with
             | |- context [if ?b then _ else _] => destruct b; cbn
             end; split; auto; lia.
  - destruct (nth_error (Barrier.threads s) i) as [t|]; [|split; auto; lia].
    pose proof (thread_step_facts cfg ok s t) as (_ & Hpos & _).
    destruct (Barrier.thread_step cfg ok s t) as [t' inc]. cbn in *.
    split; auto; lia.
Qed.

(** A worker that failed stays failed. *)
Lemma worker_failed_step cfg a s :
  Barrier.worker_failed s = true ->
  Barrier.worker_failed (Barrier.step cfg a s) = true.
Proof.
  unfold Barrier.worker_failed. intros H.
  destruct a as [ok | i ok]; cbn [Barrier.step].
  - unfold Barrier.driver_step.
    destruct (Barrier.driver s) as [[|r todo]| | | | | | |]; cbn;
      repeat match goal with
             | |- context [if ?b then _ else _] => destruct b; cbn
             end; auto.
    rewrite existsb_app, H. reflexivity.
  - destruct (nth_error (Barrier.threads s) i) as [t|] eqn:Et; [|exact H].
    pose proof (thread_step_facts cfg ok s t) as (_ & _ & _ & Hf & _).
    destruct (Barrier.thread_step cfg ok s t) as [t' inc].
    cbn [fst snd Barrier.threads] in *.
    apply existsb_exists in H as (x & Hx & Hxf).
    apply existsb_exists.
    destruct (Barrier.has_failed t) eqn:Eft.
    + exists t'. split; [|rewrite (Hf eq_refl); exact Eft].
      eapply nth_error_In. eapply nth_error_set_nth. exact Et.
    + exists x. split; [|exact Hxf].
      clear - Hx Et Eft Hxf. revert i Et.
      induction (Barrier.threads s) as [|y l IH]; intros [|i] Et;
        cbn in *; try discriminate.
      * injection Et as ->. destruct Hx as [<- | Hx]; [congruence | auto].
      * destruct Hx as [<- | Hx]; auto.
Qed.

Lemma worker_failed_run cfg sched : forall s,
  Barrier.worker_failed s = true ->
  Barrier.worker_failed (Barrier.run cfg sched s) = true.
Proof.
  induction sched as [|a sched IH]; intros s H; [exact H|].
  cbn [Barrier.run fold_left]. apply IH. apply worker_failed_step. exact H.
Qed.

Lemma nth_error_set_nth_other i j t l :
  i <> j -> nth_error (Barrier.set_nth j t l) i = nth_error l i.
Proof.
  revert i j. induction l as [|y l IH]; intros [|i] [|j] H; cbn; auto;
    try contradiction; try (apply IH; congruence).
Qed.

(** [main] never touches the position of a participant. *)
Lemma driver_step_threads cfg ok s i t :
  nth_error (Barrier.threads s) i = Some t ->
  nth_error (Barrier.threads (Barrier.driver_step cfg ok s)) i = Some t.
Proof.
  intros H. unfold Barrier.driver_step.
  destruct (Barrier.driver s) as [[|r todo]| | | | | | |]; cbn;
    repeat match goal with
           | |- context [if ?b then _ else _] => destruct b; cbn
           end; auto.
  rewrite nth_error_app1; [exact H|].
  apply nth_error_Some. congruence.
Qed.

(** [go] is set by [main] only, in the step after the wait loop. *)
Lemma go_set_by_driver cfg a s :
  Barrier.go s = false -> Barrier.go (Barrier.step cfg a s) = true ->
  exists ok, a = Barrier.Driver ok /\ Barrier.driver s = Barrier.Arming.
Proof.
  intros H0 H1. destruct a as [ok | i ok]; cbn [Barrier.step] in H1.
  - exists ok. split; [reflexivity|]. unfold Barrier.driver_step in H1.
    destruct (Barrier.driver s) as [[|r todo]| | | | | | |]; cbn in H1;
      repeat match type of H1 with
             | context [if ?b then _ else _] => destruct b; cbn in H1
             end; congruence.
  - destruct (nth_error (Barrier.threads s) i) as [t|]; [|congruence].
    destruct (Barrier.thread_step cfg ok s t) as [t' inc]. cbn in H1. congruence.
Qed.

(** C3.  In every state the barrier can reach, under any interleaving and
    for each of the four programs (any [cfg]): if [go] is set, the ready
    counter has reached the count [main] expects; a participant that has
    begun its main loop implies both.  [go] is set by [main] alone, in the
    step after its wait loop, with the counter at or above the expected
    count; a participant passes from outside its main loop into it only
    from the poll loop and only at a poll that reads [go] set; and the
    counter never decreases. *)
Theorem no_main_loop_before_ready :
  forall (cfg : Barrier.config) (sched : list Barrier.action)
         (a : Barrier.action),
    let s := Barrier.run cfg sched (Barrier.init cfg) in
    let s' := Barrier.step cfg a s in
    (Barrier.go s = true -> Barrier.cfg_expected cfg <= Barrier.ready_count s)
    /\ (forall t, In t (Barrier.threads s) -> Barrier.in_main_loop t = true ->
                  Barrier.go s = true
                  /\ Barrier.cfg_expected cfg <= Barrier.ready_count s)
    /\ (Barrier.go s = false -> Barrier.go s' = true ->
        exists ok, a = Barrier.Driver ok
                   /\ Barrier.driver s = Barrier.Arming
                   /\ Barrier.cfg_expected cfg <= Barrier.ready_count s)
    /\ (forall i t t',
           nth_error (Barrier.threads s) i = Some t ->
           nth_error (Barrier.threads s') i = Some t' ->
           Barrier.in_main_loop t = false ->
           Barrier.in_main_loop t' = true ->
           Barrier.t_pc t = Barrier.Polling
           /\ Barrier.go s = true
           /\ Barrier.cfg_expected cfg <= Barrier.ready_count s)
    /\ Barrier.ready_count s <= Barrier.ready_count s'.
Proof.
  intros cfg sched a s s'.
  assert (Hinv : barrier_inv cfg s)
    by (apply barrier_inv_run, barrier_inv_init).
  destruct Hinv as [Hgo Harm Hpast Hmain Hcount Hlen].
  split; [exact Hgo|]. split; [|split; [|split]].
  - intros t Ht Hm. split; [eauto|]. apply Hgo. eauto.
  - intros H0 H1. destruct (go_set_by_driver cfg a s H0 H1) as (ok & -> & Hd).
    exists ok. auto.
  - intros i t t' Ht Ht' Hout Hin. subst s'.
    destruct a as [ok | j ok].
    + cbn [Barrier.step] in Ht'.
      rewrite (driver_step_threads cfg ok s i Ht) in Ht'. congruence.
    + cbn [Barrier.step] in Ht'.
      destruct (Nat.eq_dec i j) as [<- | Hne].
      * rewrite Ht in Ht'.
        pose proof (thread_step_facts cfg ok s t) as (_ & _ & Hm & _).
        destruct (Barrier.thread_step cfg ok s t) as [t1 inc].
        cbn [fst snd Barrier.threads] in *.
        rewrite (nth_error_set_nth _ _ _ Ht) in Ht'. injection Ht' as ->.
        destruct (Hm Hin) as [Hold | [Hp Hg]]; [congruence|]. auto.
      * destruct (nth_error (Barrier.threads s) j) as [tj|];
          [|congruence].
        destruct (Barrier.thread_step cfg ok s tj) as [t1 inc].
        cbn [Barrier.threads] in Ht'.
        rewrite nth_error_set_nth_other in Ht' by exact Hne. congruence.
  - apply step_monotone.
Qed.

(** A run of microbenchmark3.c's barrier on the example machine with one
    spinner per node: after this schedule the spinner spins, the worker is
    in its timed loop, and the counter stands at the expected 2. *)
Lemma no_main_loop_before_ready_witness :
  let cfg := Barrier.bench3_config
               (Bench3.mkLaunch 1 2 [Bench3.mkSpinner 0 1 2 0]) in
  let sched := [Barrier.Driver true; Barrier.Driver true; Barrier.Driver true;
                Barrier.Thread 0 true; Barrier.Thread 1 true;
                Barrier.Driver true; Barrier.Driver true;
                Barrier.Thread 0 true; Barrier.Thread 1 true] in
  let s := Barrier.run cfg sched (Barrier.init cfg) in
  Barrier.threads s
  = [Barrier.mkThread Barrier.Spinner Barrier.Running;
     Barrier.mkThread Barrier.Worker Barrier.Running]
  /\ Barrier.go s = true
  /\ Barrier.cfg_expected cfg <= Barrier.ready_count s.
Proof.
  intros cfg sched s. split; [reflexivity|].
  refine (proj1 (proj2 (@no_main_loop_before_ready cfg sched (Barrier.Driver true)))
            (Barrier.mkThread Barrier.Worker Barrier.Running) _ _).
  - right. left. reflexivity.
  - reflexivity.
Defined.

(** Once a worker has failed, the barrier cannot arm, provided [main]
    expects at least as many participants as it creates. *)
Lemma failed_worker_blocks cfg sched :
  (Barrier.cfg_roles cfg <> [] ->
   Z.of_nat (length (Barrier.cfg_roles cfg)) <= Barrier.cfg_expected cfg) ->
  let s := Barrier.run cfg sched (Barrier.init cfg) in
  Barrier.worker_failed s = true ->
  Barrier.go s = false
  /\ Barrier.ready_count s < Barrier.cfg_expected cfg
  /\ driver_not_armed (Barrier.driver s) = true
  /\ (forall t, In t (Barrier.threads s) -> Barrier.in_main_loop t = false).
Proof.
  intros Hexp s Hf.
  assert (Hinv : barrier_inv cfg s)
    by (apply barrier_inv_run, barrier_inv_init).
  destruct Hinv as [Hgo Harm Hpast Hmain Hcount Hlen].
  pose proof (failures_positive _ Hf) as Hpos.
  pose proof (increments_failures_le (Barrier.threads s)) as (Hi0 & _ & Hle).
  assert (Hlt : Barrier.ready_count s < Barrier.cfg_expected cfg).
  { assert (Hne : Barrier.cfg_roles cfg <> []).
    { intros E. rewrite E in Hlen. cbn [length] in Hlen. lia. }
    specialize (Hexp Hne). lia. }
  assert (Hg : Barrier.go s = false).
  { destruct (Barrier.go s); [|reflexivity]. specialize (Hgo eq_refl). lia. }
  split; [exact Hg|]. split; [exact Hlt|]. split.
  - destruct (Barrier.driver s) eqn:Ed; cbn in *; try reflexivity;
      try (specialize (Hpast eq_refl); congruence).
    specialize (Harm eq_refl). lia.
  - intros t Ht. destruct (Barrier.in_main_loop t) eqn:Em; [|reflexivity].
    specialize (Hmain t Ht Em). congruence.
Qed.

Lemma no_ready_inc_pin_to_node e n :
  existsb is_ready_inc (pin_to_node_events e n) = false.
Proof.
  unfold pin_to_node_events.
  destruct (numa_node_to_cpus (topo e) n); reflexivity.
Qed.

Lemma no_ready_inc_pin_first_cpu e n :
  existsb is_ready_inc (pin_first_cpu_events e n) = false.
Proof.
  unfold pin_first_cpu_events.
  destruct (0 <=? Bench3.get_cpu_for_node (topo e) n 0); reflexivity.
Qed.




(** C10, as the code has it.  In microbenchmark1.c and 2.c, and in
    microbenchmark3.c whenever the total [main] computes first,
    [spinners_per_node * (num_nodes - 1)] as an [int], is not negative (and
    below [INT_MAX]), a worker whose initial mapping fails returns without
    executing the ready increment: the increment is absent from its trace,
    and in the barrier its step leaves [ready_count] unchanged.  From any
    reachable state in which a worker has so failed, and whatever is
    scheduled afterwards, the worker stays failed, [ready_count] stays
    below the count [main] expects, [go] stays unset, [main] never gets
    past its ready-wait loop, and no participant is in its main loop. *)
Theorem failed_worker_blocks_barrier :
  forall (num_nodes : Z) (t : topology) (S : Z) (ok : Z -> bool)
         (l : Bench3.launch) (cfg : Barrier.config)
         (sched1 sched2 : list Barrier.action)
         (N RS : Z) (e : env)
         (d1 : Bench1.worker_data_t) (d3 : Bench3.worker_data_t),
    cfg = Barrier.bench1_config num_nodes
    \/ (cfg = Barrier.bench3_config l
        /\ Bench3.main_create_threads t S ok = Bench3.Next l
        /\ 0 <= Bench3.initial_total_spinners t S < INT_MAX) ->
    mmap_result e 0%nat = MAP_FAILED ->
    Barrier.worker_failed (Barrier.run cfg sched1 (Barrier.init cfg)) = true ->
    let s1 := Barrier.run cfg sched1 (Barrier.init cfg) in
    let s2 := Barrier.run cfg sched2 s1 in
    (existsb is_ready_inc (trace (exec (Bench1.worker N RS) e d1)) = false
     /\ existsb is_ready_inc (trace (exec (Bench3.worker N RS) e d3)) = false)
    /\ (forall s i,
           nth_error (Barrier.threads s) i
           = Some (Barrier.mkThread Barrier.Worker Barrier.Setup) ->
           let s' := Barrier.step cfg (Barrier.Thread i false) s in
           Barrier.ready_count s' = Barrier.ready_count s
           /\ nth_error (Barrier.threads s') i
              = Some (Barrier.mkThread Barrier.Worker Barrier.Failed))
    /\ Barrier.worker_failed s2 = true
    /\ Barrier.go s2 = false
    /\ Barrier.ready_count s2 < Barrier.cfg_expected cfg
    /\ driver_not_armed (Barrier.driver s2) = true
    /\ (forall p, In p (Barrier.threads s2) -> Barrier.in_main_loop p = false).
Proof.
  intros num_nodes t S ok l cfg sched1 sched2 N RS e d1 d3
         Hcfg Hmf Hf s1 s2.
  assert (Hpre : Barrier.cfg_prealloc cfg = true)
    by (destruct Hcfg as [-> | [-> _]]; reflexivity).
  assert (Hexp : Barrier.cfg_roles cfg <> [] ->
                 Z.of_nat (length (Barrier.cfg_roles cfg))
                 <= Barrier.cfg_expected cfg).
  { destruct Hcfg as [-> | (-> & Hl & Hr)];
      cbn [Barrier.bench1_config Barrier.bench3_config
           Barrier.cfg_roles Barrier.cfg_expected].
    - intros Hne. rewrite repeat_length.
      destruct (Z.to_nat num_nodes) eqn:E; [contradiction|]. lia.
    - intros _. rewrite (expected_ready_exact t S ok Hl Hr).
      rewrite length_app, length_map. cbn [length]. lia. }
  split; [split|split; [|split]].
  - rewrite worker1_fail by exact Hmf. cbn [trace].
    rewrite existsb_app, no_ready_inc_pin_to_node. reflexivity.
  - rewrite worker3_fail by exact Hmf. cbn [trace].
    rewrite existsb_app, no_ready_inc_pin_first_cpu. reflexivity.
  - intros s i Hi s'. subst s'. cbn [Barrier.step]. rewrite Hi.
    unfold Barrier.thread_step. cbn [Barrier.t_pc Barrier.t_role].
    rewrite Hpre. cbn [negb andb Barrier.ready_count Barrier.threads].
    split; [lia|]. eapply nth_error_set_nth. exact Hi.
  - subst s2. apply worker_failed_run. exact Hf.
  - assert (Hf2 : Barrier.worker_failed s2 = true)
      by (subst s2; apply worker_failed_run; exact Hf).
    subst s2 s1. rewrite <- run_app in *.
    apply (failed_worker_blocks cfg (sched1 ++ sched2) Hexp Hf2).
Qed.

(** The barrier of microbenchmark3.c on the example machine with one
    spinner per node: the worker's mapping fails once the spinner is
    ready; the spinner keeps polling, [main] stays in its wait loop and
    [go] stays unset. *)
Lemma failed_worker_blocks_barrier_witness :
  let l := Bench3.mkLaunch 1 2 [Bench3.mkSpinner 0 1 2 0] in
  let cfg := Barrier.bench3_config l in
  let sched1 := [Barrier.Driver true; Barrier.Driver true;
                 Barrier.Thread 0 true; Barrier.Thread 1 false] in
  let sched2 := [Barrier.Driver true; Barrier.Driver true;
                 Barrier.Thread 0 true; Barrier.Driver true] in
  let s2 := Barrier.run cfg sched2 (Barrier.run cfg sched1 (Barrier.init cfg)) in
  Barrier.threads s2
  = [Barrier.mkThread Barrier.Spinner Barrier.Polling;
     Barrier.mkThread Barrier.Worker Barrier.Failed]
  /\ Barrier.go s2 = false.
Proof.
  intros l cfg sched1 sched2 s2. split; [reflexivity|].
  refine (proj1 (proj2 (proj2 (proj2
    (@failed_worker_blocks_barrier 2 example_topology 1 (fun _ => true)
       l cfg sched1 sched2
       Bench3.NUM_OPS Bench3.REGION_SIZE
       (mkEnv example_topology (fun _ => MAP_FAILED)
              (fun n => mkTimespec (Z.of_nat n) 0) 1 3)
       (Bench1.initial_data 0) Bench3.initial_worker_data
       _ _ _))))).
  - right. split; [reflexivity|]. split; [reflexivity|].
    vm_compute. split; [discriminate | reflexivity].
  - reflexivity.
  - reflexivity.
Defined.

(** The claim of C10 fails in microbenchmark3.c for a negative spinner
    count: with [-s -1] on two nodes [main] waits for 0 participants, so
    it leaves its wait loop and sets [go] although the worker, whose
    mapping failed, never incremented [ready_count]. *)
Lemma failed_worker_counterexample :
  let l := Bench3.mkLaunch (-1) 0 [] in
  let cfg := Barrier.bench3_config l in
  let s := Barrier.run cfg
             [Barrier.Driver true; Barrier.Driver true;
              Barrier.Thread 0 false;
              Barrier.Driver true; Barrier.Driver true]
             (Barrier.init cfg) in
  Bench3.main_create_threads small_topology (-1) (fun _ => true) = Bench3.Next l
  /\ Barrier.worker_failed s = true
  /\ Barrier.ready_count s = 0
  /\ Barrier.cfg_expected cfg <= Barrier.ready_count s
  /\ Barrier.go s = true.
Proof.
  cbv zeta. split; [reflexivity|]. split; [reflexivity|].
  split; [reflexivity|]. split; [vm_compute; discriminate | reflexivity].
Qed.

(* ================================================================== *)
(** * Further properties of the code *)

(** ** The CPU chosen on a node *)

Lemma zrange_from_succ i fuel :
  zrange_from i (S fuel) = i :: zrange_from (i + 1) fuel.
Proof.
  unfold zrange_from. cbn [seq map]. f_equal; [lia|].
  rewrite <- seq_shift, map_map. apply map_ext. intros k. lia.
Qed.

Lemma zrange_from_zero n : zrange n = zrange_from 0 (Z.to_nat n).
Proof. unfold zrange, zrange_from. apply map_ext. intros k. lia. Qed.

Lemma scan_cpus_passed cpus index fuel : forall i count,
  index < count -> Bench3.scan_cpus cpus index fuel i count = -1.
Proof.
  induction fuel as [|fuel IH]; intros i count H; [reflexivity|].
  cbn [Bench3.scan_cpus]. destruct (Z.testbit cpus i).
  - destruct (Z.eqb_spec count index); [lia|]. apply IH. lia.
  - apply IH. exact H.
Qed.

Lemma scan_cpus_nth cpus index fuel : forall i count,
  count <= index ->
  Bench3.scan_cpus cpus index fuel i count
  = nth (Z.to_nat (index - count))
        (filter (Z.testbit cpus) (zrange_from i fuel)) (-1).
Proof.
  induction fuel as [|fuel IH]; intros i count H.
  - cbn. destruct (Z.to_nat (index - count)); reflexivity.
  - rewrite zrange_from_succ. cbn [Bench3.scan_cpus filter].
    destruct (Z.testbit cpus i).
    + destruct (Z.eqb_spec count index) as [->|Hne].
      * rewrite Z.sub_diag. reflexivity.
      * rewrite IH by lia.
        replace (Z.to_nat (index - count)) with (S (Z.to_nat (index - (count + 1))))
          by lia.
        reflexivity.
    + apply IH. exact H.
Qed.

Lemma get_cpu_for_node_nth t n index :
  0 <= index ->
  Bench3.get_cpu_for_node t n index = nth (Z.to_nat index) (node_cpus t n) (-1).
Proof.
  intros H. unfold Bench3.get_cpu_for_node, node_cpus.
  destruct (numa_node_to_cpus t n) as [cpus|].
  - rewrite scan_cpus_nth by exact H. rewrite Z.sub_0_r.
    unfold cpus_of_mask. rewrite zrange_from_zero. reflexivity.
  - destruct (Z.to_nat index); reflexivity.
Qed.

Lemma ascending_zrange_from fuel : forall i, ascending (zrange_from i fuel).
Proof.
  induction fuel as [|fuel IH]; intros i; [exact I|].
  rewrite zrange_from_succ. split; [|apply IH].
  apply Forall_forall. intros y Hy. unfold zrange_from in Hy.
  apply in_map_iff in Hy as (k & <- & _). lia.
Qed.

Lemma ascending_filter p l : ascending l -> ascending (filter p l).
Proof.
  induction l as [|x l IH]; intros H; [exact I|].
  destruct H as [Hx Hl]. cbn [filter]. destruct (p x).
  - split; [|apply IH; exact Hl].
    apply Forall_forall. intros y Hy. apply filter_In in Hy as [Hy _].
    rewrite Forall_forall in Hx. apply Hx. exact Hy.
  - apply IH. exact Hl.
Qed.

Lemma ascending_nth l : forall a b d,
  ascending l -> (a < b)%nat -> (b < length l)%nat -> nth a l d < nth b l d.
Proof.
  induction l as [|x l IH]; intros a b d H Hab Hb; [cbn in Hb; lia|].
  destruct H as [Hx Hl]. destruct b as [|b]; [lia|].
  cbn [length] in Hb. destruct a as [|a].
  - cbn [nth]. rewrite Forall_forall in Hx. apply Hx. apply nth_In. lia.
  - cbn [nth]. apply IH; [exact Hl | lia | lia].
Qed.

Lemma node_cpus_ascending t n : ascending (node_cpus t n).
Proof.
  unfold node_cpus. destruct (numa_node_to_cpus t n); [|exact I].
  unfold cpus_of_mask. apply ascending_filter.
  rewrite zrange_from_zero. apply ascending_zrange_from.
Qed.

Lemma node_cpus_In t n c :
  In c (node_cpus t n)
  <-> exists cpus, numa_node_to_cpus t n = Some cpus
                   /\ 0 <= c < numa_num_configured_cpus t
                   /\ Z.testbit cpus c = true.
Proof.
  unfold node_cpus. destruct (numa_node_to_cpus t n) as [cpus|].
  - unfold cpus_of_mask. rewrite filter_In, zrange_In. split.
    + intros [Hr Hb]. exists cpus. auto.
    + intros (cpus' & [= <-] & Hr & Hb). auto.
  - split; [intros []|]. intros (cpus & H & _). discriminate.
Qed.

(** The scan returns a CPU of the mask that exactly [index - count] CPUs of
    the mask precede. *)
Lemma scan_cpus_found cpus index fuel : forall i count c,
  Bench3.scan_cpus cpus index fuel i count = c -> 0 <= c -> 0 <= i ->
  i <= c < i + Z.of_nat fuel
  /\ Z.testbit cpus c = true
  /\ count + Z.of_nat (length (filter (Z.testbit cpus)
                                 (zrange_from i (Z.to_nat (c - i))))) = index.
Proof.
  induction fuel as [|fuel IH]; intros i count c H Hc Hi.
  - cbn in H. lia.
  - cbn [Bench3.scan_cpus] in H. destruct (Z.testbit cpus i) eqn:Eb.
    + destruct (Z.eqb_spec count index) as [->|Hne].
      * subst c. rewrite Z.sub_diag. cbn. repeat split; try lia. exact Eb.
      * apply IH in H; [|lia|lia]. destruct H as (Hr & Hb & Hn).
        repeat split; try lia; [exact Hb|].
        replace (Z.to_nat (c - i)) with (S (Z.to_nat (c - (i + 1)))) by lia.
        rewrite zrange_from_succ. cbn [filter]. rewrite Eb. cbn [length]. lia.
    + apply IH in H; [|lia|lia]. destruct H as (Hr & Hb & Hn).
      repeat split; try lia; [exact Hb|].
      replace (Z.to_nat (c - i)) with (S (Z.to_nat (c - (i + 1)))) by lia.
      rewrite zrange_from_succ. cbn [filter]. rewrite Eb. exact Hn.
Qed.

(** X1.  [get_cpu_for_node] picks the CPU it is asked for.  When the call
    for node [n] and [index] returns a CPU number [c >= 0], the node has a
    CPU mask, [c] is a configured CPU whose bit is set in it, exactly
    [index] CPUs of the mask are smaller than [c], and [c] is entry
    [index] of the node's CPUs taken in increasing order. *)
Theorem get_cpu_for_node_selects :
  forall (t : topology) (n index c : Z),
    Bench3.get_cpu_for_node t n index = c ->
    0 <= c ->
    exists cpus,
      numa_node_to_cpus t n = Some cpus
      /\ 0 <= c < numa_num_configured_cpus t
      /\ Z.testbit cpus c = true
      /\ Z.of_nat (length (filter (Z.testbit cpus) (zrange c))) = index
      /\ nth (Z.to_nat index) (node_cpus t n) (-1) = c.
Proof.
  intros t n index c H Hc.
  assert (Hidx : 0 <= index).
  { destruct (Z.lt_ge_cases index 0) as [Hneg|]; [|assumption].
    unfold Bench3.get_cpu_for_node in H.
    destruct (numa_node_to_cpus t n); [|lia].
    rewrite scan_cpus_passed in H by lia. lia. }
  pose proof (@get_cpu_for_node_nth t n index Hidx) as Hnth. rewrite H in Hnth.
  unfold Bench3.get_cpu_for_node in H.
  destruct (numa_node_to_cpus t n) as [cpus|] eqn:En; [|lia].
  apply scan_cpus_found in H; [|exact Hc|lia].
  destruct H as (Hr & Hb & Hn). exists cpus.
  rewrite Z.sub_0_r, <- zrange_from_zero in Hn.
  repeat split; try lia; auto.
Qed.

Lemma get_cpu_for_node_selects_witness :
  exists cpus,
    numa_node_to_cpus example_topology 1 = Some cpus
    /\ 0 <= 3 < numa_num_configured_cpus example_topology
    /\ Z.testbit cpus 3 = true
    /\ Z.of_nat (length (filter (Z.testbit cpus) (zrange 3))) = 1
    /\ nth (Z.to_nat 1) (node_cpus example_topology 1) (-1) = 3.
Proof.
  apply (@get_cpu_for_node_selects example_topology 1 1 3).
  - reflexivity.
  - lia.
Defined.

Lemma node_cpus_nonneg t n k :
  (k < length (node_cpus t n))%nat ->
  0 <= nth k (node_cpus t n) (-1) < numa_num_configured_cpus t.
Proof.
  intros Hk. assert (Hin : In (nth k (node_cpus t n) (-1)) (node_cpus t n))
    by (apply nth_In; exact Hk).
  apply node_cpus_In in Hin as (cpus & _ & Hr & _). exact Hr.
Qed.

(** Either there is no CPU at [index] and the result is -1, or [index]
    is below the number of CPUs of the node and the result is a CPU. *)
Lemma get_cpu_cases t n index :
  ((index < 0 \/ Z.of_nat (length (node_cpus t n)) <= index)
   /\ Bench3.get_cpu_for_node t n index = -1)
  \/ (0 <= index < Z.of_nat (length (node_cpus t n))
      /\ 0 <= Bench3.get_cpu_for_node t n index < numa_num_configured_cpus t).
Proof.
  destruct (Z.lt_ge_cases index 0) as [Hi|Hi].
  - left. split; [left; exact Hi|]. unfold Bench3.get_cpu_for_node.
    destruct (numa_node_to_cpus t n); [|reflexivity].
    apply scan_cpus_passed. lia.
  - rewrite (@get_cpu_for_node_nth t n index Hi).
    destruct (Nat.lt_ge_cases (Z.to_nat index) (length (node_cpus t n))) as [Hk|Hk].
    + right. split; [lia|]. apply node_cpus_nonneg. exact Hk.
    + left. split; [right; lia|]. apply nth_overflow. exact Hk.
Qed.

(** A CPU that [get_cpu_for_node] returns is one of the node. *)
Lemma get_cpu_in_node t n index :
  0 <= Bench3.get_cpu_for_node t n index ->
  In (Bench3.get_cpu_for_node t n index) (node_cpus t n).
Proof.
  intros H. destruct (get_cpu_cases t n index) as [[_ He]|[Hi _]]; [lia|].
  rewrite get_cpu_for_node_nth by lia. apply nth_In. lia.
Qed.

(** X2.  [get_cpu_for_node] returns -1 exactly when [index] is negative or
    not smaller than the number of CPUs of the node; any other result is a
    configured CPU number; a node for which [numa_node_to_cpus] fails has
    no CPU at any index. *)
Theorem get_cpu_for_node_fails :
  forall (t : topology) (n index : Z),
    (Bench3.get_cpu_for_node t n index = -1
     <-> index < 0 \/ Z.of_nat (length (node_cpus t n)) <= index)
    /\ (Bench3.get_cpu_for_node t n index = -1
        \/ 0 <= Bench3.get_cpu_for_node t n index < numa_num_configured_cpus t)
    /\ (numa_node_to_cpus t n = None -> Bench3.get_cpu_for_node t n index = -1).
Proof.
  intros t n index. split; [|split].
  - destruct (get_cpu_cases t n index) as [[Hi He]|[Hi Hr]].
    + split; [intros _; exact Hi | intros _; exact He].
    + split; intros; lia.
  - destruct (get_cpu_cases t n index) as [[_ He]|[_ Hr]];
      [left; exact He | right; exact Hr].
  - intros Hnone. unfold Bench3.get_cpu_for_node. rewrite Hnone. reflexivity.
Qed.

(** X3.  [get_cpu_for_node] is increasing in [index]: if a node has a CPU
    at index [s2] it has one at every smaller index [s1 >= 0], with a
    smaller number, so distinct indices never give the same CPU. *)
Theorem get_cpu_for_node_increasing :
  forall (t : topology) (n s1 s2 : Z),
    0 <= s1 < s2 ->
    0 <= Bench3.get_cpu_for_node t n s2 ->
    0 <= Bench3.get_cpu_for_node t n s1 < Bench3.get_cpu_for_node t n s2.
Proof.
  intros t n s1 s2 Hs H2.
  assert (Hlen : (Z.to_nat s2 < length (node_cpus t n))%nat).
  { destruct (get_cpu_cases t n s2) as [[_ He]|[Hi _]]; lia. }
  rewrite !get_cpu_for_node_nth in * by lia.
  split.
  - apply node_cpus_nonneg. lia.
  - apply ascending_nth; [apply node_cpus_ascending | lia | exact Hlen].
Qed.

Lemma get_cpu_for_node_increasing_witness :
  0 <= Bench3.get_cpu_for_node example_topology 1 0
    < Bench3.get_cpu_for_node example_topology 1 1.
Proof.
  apply (@get_cpu_for_node_increasing example_topology 1 0 1).
  - lia.
  - vm_compute. discriminate.
Defined.

(** ** Spinners per node *)

Lemma filter_lt_none fuel : forall i L,
  L <= i -> filter (fun s => s <? L) (zrange_from i fuel) = [].
Proof.
  induction fuel as [|fuel IH]; intros i L H; [reflexivity|].
  rewrite zrange_from_succ. cbn [filter].
  destruct (Z.ltb_spec i L); [lia|]. apply IH. lia.
Qed.

Lemma filter_lt_zrange_from fuel : forall i L,
  i <= L ->
  filter (fun s => s <? L) (zrange_from i fuel)
  = zrange_from i (Nat.min fuel (Z.to_nat (L - i))).
Proof.
  induction fuel as [|fuel IH]; intros i L H; [reflexivity|].
  rewrite zrange_from_succ. cbn [filter]. destruct (Z.ltb_spec i L) as [Hlt|Hge].
  - rewrite IH by lia.
    replace (Z.to_nat (L - i)) with (S (Z.to_nat (L - (i + 1)))) by lia.
    cbn [Nat.min]. rewrite zrange_from_succ. reflexivity.
  - rewrite filter_lt_none by lia.
    replace (Z.to_nat (L - i)) with O by lia. rewrite Nat.min_0_r. reflexivity.
Qed.

(** A CPU exists at index [s >= 0] of node [n] exactly when [s] is below
    the number of CPUs of the node. *)
Lemma cpu_available_iff t n s :
  0 <= s ->
  (0 <=? Bench3.get_cpu_for_node t n s) = (s <? Z.of_nat (length (node_cpus t n))).
Proof.
  intros Hs. destruct (get_cpu_cases t n s) as [[Hi He]|[Hi Hr]].
  - rewrite He. destruct (Z.ltb_spec s (Z.of_nat (length (node_cpus t n))));
      [lia | reflexivity].
  - destruct (Z.ltb_spec s (Z.of_nat (length (node_cpus t n)))); [|lia].
    apply Z.leb_le. lia.
Qed.

Lemma filter_ext_in_bool A (p q : A -> bool) l :
  (forall x, In x l -> p x = q x) -> filter p l = filter q l.
Proof.
  induction l as [|x l IH]; intros H; [reflexivity|].
  cbn [filter]. rewrite (H x (or_introl eq_refl)).
  rewrite IH; [reflexivity|]. intros y Hy. apply H. now right.
Qed.

Lemma cpu_slots_prefix t S n :
  0 <= S -> cpu_slots t S n = zrange (spinners_on_node t S n).
Proof.
  intros HS. unfold cpu_slots, spinners_on_node.
  rewrite (@filter_ext_in_bool _ _
             (fun s => s <? Z.of_nat (length (node_cpus t n)))).
  - rewrite !zrange_from_zero, filter_lt_zrange_from by lia.
    f_equal. lia.
  - intros s Hs. apply zrange_In in Hs. apply cpu_available_iff. lia.
Qed.

Lemma spinner_slots_count t S :
  0 <= S ->
  Z.of_nat (length (spinner_slots t S))
  = fold_right Z.add 0 (map (spinners_on_node t S) (remote_nodes t)).
Proof.
  intros HS. unfold spinner_slots, remote_nodes.
  induction (zrange (numa_num_configured_nodes t)) as [|n l IH]; [reflexivity|].
  cbn [flat_map filter]. rewrite length_app, Nat2Z.inj_add, IH.
  destruct (n =? Bench3.WORKER_NODE); cbn [negb map fold_right length].
  - lia.
  - rewrite length_map, cpu_slots_prefix, zrange_length by exact HS.
    unfold spinners_on_node. lia.
Qed.

Lemma ascending_NoDup l : ascending l -> NoDup l.
Proof.
  induction l as [|x l IH]; intros H; [constructor|].
  destruct H as [Hx Hl]. constructor; [|apply IH; exact Hl].
  intros Hin. rewrite Forall_forall in Hx. specialize (Hx x Hin). lia.
Qed.

Lemma zrange_NoDup n : NoDup (zrange n).
Proof.
  apply ascending_NoDup. rewrite zrange_from_zero. apply ascending_zrange_from.
Qed.

Lemma slot_entries_on_node t n slots : forall i,
  length (filter (fun d => Bench3.node d =? n) (slot_entries t i slots))
  = length (filter (fun p => fst p =? n) slots).
Proof.
  induction slots as [|[m s] slots IH]; intros i; [reflexivity|].
  cbn [slot_entries filter Bench3.node fst].
  destruct (m =? n); cbn [length]; rewrite IH; reflexivity.
Qed.

Lemma filter_node_pairs n m (l : list Z) :
  filter (fun p : Z * Z => fst p =? n) (map (pair m) l)
  = if m =? n then map (pair m) l else [].
Proof.
  induction l as [|s l IH]; cbn [map filter fst].
  - destruct (m =? n); reflexivity.
  - rewrite IH. destruct (m =? n); reflexivity.
Qed.

Lemma spinner_slots_on_node t S n :
  filter (fun p => fst p =? n) (spinner_slots t S)
  = if (negb (n =? Bench3.WORKER_NODE))
       && (0 <=? n) && (n <? numa_num_configured_nodes t)
    then map (pair n) (cpu_slots t S n) else [].
Proof.
  unfold spinner_slots.
  pose proof (zrange_NoDup (numa_num_configured_nodes t)) as Hnd.
  assert (Hin : (0 <=? n) && (n <? numa_num_configured_nodes t) = true
                <-> In n (zrange (numa_num_configured_nodes t))).
  { rewrite zrange_In, andb_true_iff, Z.leb_le, Z.ltb_lt. tauto. }
  rewrite <- andb_assoc.
  destruct ((0 <=? n) && (n <? numa_num_configured_nodes t)) eqn:Er.
  - assert (Hn : In n (zrange (numa_num_configured_nodes t))) by (apply Hin; reflexivity).
    clear Hin Er. rewrite andb_true_r.
    induction (zrange (numa_num_configured_nodes t)) as [|m l IH]; [destruct Hn|].
    apply NoDup_cons_iff in Hnd as [Hm Hnd]. cbn [flat_map]. rewrite filter_app.
    destruct Hn as [-> | Hn].
    + assert (Hrest : filter (fun p : Z * Z => fst p =? n)
                        (flat_map (fun n0 => if n0 =? Bench3.WORKER_NODE then []
                                             else map (pair n0) (cpu_slots t S n0)) l)
                      = []).
      { clear IH Hnd. induction l as [|k l IHl]; [reflexivity|].
        cbn [flat_map]. rewrite filter_app, IHl by (intros H; apply Hm; now right).
        rewrite app_nil_r. destruct (k =? Bench3.WORKER_NODE); [reflexivity|].
        rewrite filter_node_pairs.
        destruct (Z.eqb_spec k n) as [->|]; [|reflexivity].
        exfalso. apply Hm. now left. }
      rewrite Hrest, app_nil_r.
      destruct (n =? Bench3.WORKER_NODE); [reflexivity|].
      cbn [negb]. rewrite filter_node_pairs, Z.eqb_refl. reflexivity.
    + rewrite (IH Hnd Hn).
      assert (Hne : m <> n) by (intros ->; contradiction).
      destruct (m =? Bench3.WORKER_NODE); [reflexivity|].
      rewrite filter_node_pairs. destruct (Z.eqb_spec m n); [contradiction|].
      reflexivity.
  - rewrite andb_false_r.
    assert (Hn : ~ In n (zrange (numa_num_configured_nodes t))).
    { intros H. apply Hin in H. discriminate. }
    clear Hin Er Hnd.
    induction (zrange (numa_num_configured_nodes t)) as [|m l IH]; [reflexivity|].
    cbn [flat_map]. rewrite filter_app, IH by (intros H; apply Hn; now right).
    rewrite app_nil_r. destruct (m =? Bench3.WORKER_NODE); [reflexivity|].
    rewrite filter_node_pairs. destruct (Z.eqb_spec m n) as [->|]; [|reflexivity].
    exfalso. apply Hn. now left.
Qed.

(** X4.  When [main] of microbenchmark3.c/4.c gets as far as the wait
    loop, with a spinner count [S >= 0] whose product [S * (M - 1)] with
    the number of remote nodes fits an [int], it has created on every node
    other than the worker's [min(S, CPUs of the node)] spinners and none
    on the worker's node; the array [spinner_data] holds their sum. *)
Theorem spinners_created_per_node :
  forall (t : topology) (S : Z) (ok : Z -> bool) (l : Bench3.launch),
    0 <= S ->
    1 <= numa_num_configured_nodes t ->
    S * (numa_num_configured_nodes t - 1) <= INT_MAX ->
    Bench3.main_create_threads t S ok = Bench3.Next l ->
    Z.of_nat (length (Bench3.spinner_data l))
    = fold_right Z.add 0 (map (spinners_on_node t S) (remote_nodes t))
    /\ (forall n,
           Z.of_nat (length (filter (fun d => Bench3.node d =? n)
                                    (Bench3.spinner_data l)))
           = if (1 <=? n) && (n <? numa_num_configured_nodes t)
             then spinners_on_node t S n else 0).
Proof.
  intros t S ok l HS HM Hfit Hl.
  rewrite (main_create_threads_data t ok HS HM Hfit Hl). split.
  - rewrite slot_entries_length. apply spinner_slots_count. exact HS.
  - intros n. rewrite slot_entries_on_node, spinner_slots_on_node.
    unfold Bench3.WORKER_NODE.
    destruct (Z.eqb_spec n 0) as [->|Hn0]; cbn [negb andb].
    + reflexivity.
    + destruct (Z.leb_spec 0 n), (Z.leb_spec 1 n); try lia; cbn [andb];
        [|reflexivity].
      destruct (n <? numa_num_configured_nodes t); [|reflexivity].
      rewrite length_map, cpu_slots_prefix, zrange_length by exact HS.
      unfold spinners_on_node. lia.
Qed.

Lemma spinners_created_per_node_witness :
  Z.of_nat (length [Bench3.mkSpinner 0 1 2 0; Bench3.mkSpinner 1 1 3 0])
  = fold_right Z.add 0
      (map (spinners_on_node example_topology 2) (remote_nodes example_topology)).
Proof.
  refine (proj1
    (@spinners_created_per_node example_topology 2 (fun _ => true)
       (Bench3.mkLaunch 2 3 [Bench3.mkSpinner 0 1 2 0; Bench3.mkSpinner 1 1 3 0])
       _ _ _ _)).
  - lia.
  - simpl. lia.
  - simpl. unfold INT_MAX. lia.
  - reflexivity.
Defined.

(** ** The entries of [spinner_data] *)

Lemma slot_entries_ids t slots : forall i,
  map Bench3.id (slot_entries t i slots) = zrange_from i (length slots).
Proof.
  induction slots as [|[n s] slots IH]; intros i; [reflexivity|].
  cbn [slot_entries map length Bench3.id]. rewrite zrange_from_succ, IH.
  reflexivity.
Qed.

Lemma slot_entries_In t d slots : forall i,
  In d (slot_entries t i slots) ->
  exists n s, In (n, s) slots
              /\ Bench3.node d = n
              /\ Bench3.cpu d = Bench3.get_cpu_for_node t n s
              /\ Bench3.spin_count d = 0.
Proof.
  induction slots as [|[n s] slots IH]; intros i H; [destruct H|].
  cbn [slot_entries] in H. destruct H as [<- | H].
  - exists n, s. cbn. auto.
  - destruct (IH _ H) as (n' & s' & Hin & Hrest). exists n', s'.
    split; [now right | exact Hrest].
Qed.

Lemma slot_entries_pairs t slots : forall i,
  map (fun d => (Bench3.node d, Bench3.cpu d)) (slot_entries t i slots)
  = map (fun p => (fst p, Bench3.get_cpu_for_node t (fst p) (snd p))) slots.
Proof.
  induction slots as [|[n s] slots IH]; intros i; [reflexivity|].
  cbn [slot_entries map Bench3.node Bench3.cpu fst snd]. rewrite IH. reflexivity.
Qed.

Lemma spinner_slots_In t S n s :
  In (n, s) (spinner_slots t S) ->
  1 <= n < numa_num_configured_nodes t
  /\ 0 <= s < S
  /\ 0 <= Bench3.get_cpu_for_node t n s.
Proof.
  unfold spinner_slots. intros H. apply in_flat_map in H as (m & Hm & H).
  apply zrange_In in Hm.
  destruct (Z.eqb_spec m Bench3.WORKER_NODE) as [|Hne]; [destruct H|].
  apply in_map_iff in H as (s' & [= -> ->] & Hs).
  unfold cpu_slots in Hs. apply filter_In in Hs as [Hs Ha].
  apply zrange_In in Hs. apply Z.leb_le in Ha.
  unfold Bench3.WORKER_NODE in Hne. repeat split; lia.
Qed.

Lemma flat_map_NoDup (f : Z -> list (Z * Z)) nodes :
  NoDup nodes ->
  (forall n, NoDup (f n)) ->
  (forall n p, In p (f n) -> fst p = n) ->
  NoDup (flat_map f nodes).
Proof.
  intros Hnd Hf Hfst. induction nodes as [|n nodes IH]; [constructor|].
  apply NoDup_cons_iff in Hnd as [Hn Hnd]. cbn [flat_map].
  apply NoDup_app; [apply Hf | apply IH; exact Hnd |].
  intros p Hp Hq. apply in_flat_map in Hq as (m & Hm & Hq).
  apply Hfst in Hp. apply Hfst in Hq. subst. contradiction.
Qed.

Lemma spinner_slots_NoDup t S : NoDup (spinner_slots t S).
Proof.
  unfold spinner_slots. apply flat_map_NoDup.
  - apply zrange_NoDup.
  - intros n. destruct (n =? Bench3.WORKER_NODE); [constructor|].
    apply NoDup_map_NoDup_ForallPairs.
    + intros a b _ _ [= ->]. reflexivity.
    + unfold cpu_slots. apply NoDup_filter, zrange_NoDup.
  - intros n p Hp. destruct (n =? Bench3.WORKER_NODE); [destruct Hp|].
    apply in_map_iff in Hp as (s & <- & _). reflexivity.
Qed.

(** X5.  Whenever [main] gets as far as the wait loop, for any spinner
    count, the entries it has written into [spinner_data] are numbered
    0, 1, 2, .. in array order; each names a node other than the worker's
    and a configured CPU of that node, with [spin_count = 0]; no two
    entries name the same CPU of the same node; and the entries are at
    most as many as the arrays were allocated for. *)
Theorem spinner_data_well_formed :
  forall (t : topology) (S : Z) (ok : Z -> bool) (l : Bench3.launch),
    Bench3.main_create_threads t S ok = Bench3.Next l ->
    map Bench3.id (Bench3.spinner_data l)
    = zrange (Z.of_nat (length (Bench3.spinner_data l)))
    /\ (forall d, In d (Bench3.spinner_data l) ->
                  1 <= Bench3.node d < numa_num_configured_nodes t
                  /\ Bench3.node d <> Bench3.WORKER_NODE
                  /\ In (Bench3.cpu d) (node_cpus t (Bench3.node d))
                  /\ 0 <= Bench3.cpu d < numa_num_configured_cpus t
                  /\ Bench3.spin_count d = 0)
    /\ NoDup (map (fun d => (Bench3.node d, Bench3.cpu d))
                  (Bench3.spinner_data l))
    /\ (Bench3.spinner_data l <> [] ->
        Z.of_nat (length (Bench3.spinner_data l))
        <= Bench3.initial_total_spinners t S).
Proof.
  intros t S ok l Hl.
  assert (Hcap : Bench3.spinner_data l <> [] ->
                 Z.of_nat (length (Bench3.spinner_data l))
                 <= Bench3.initial_total_spinners t S).
  { intros Hne. pose proof (main_create_threads_next t S ok Hl) as Hn.
    cbv zeta in Hn. destruct Hn as [Hpos Hzero].
    destruct (Z.lt_ge_cases 0 (Bench3.initial_total_spinners t S)) as [Hp|Hz].
    - apply (Hpos Hp).
    - destruct (Hzero ltac:(lia)) as (Hd & _). contradiction. }
  destruct (main_create_threads_entries t S ok Hl) as [Hd | Hd].
  2:{ rewrite Hd in *. cbn. split; [reflexivity|].
      split; [intros d []|]. split; [constructor | exact Hcap]. }
  split; [|split; [|split; [|exact Hcap]]]; rewrite Hd.
  - rewrite slot_entries_ids, slot_entries_length, zrange_from_zero.
    f_equal. lia.
  - intros d Hin. apply slot_entries_In in Hin as (n & s & Hin & Hn & Hc & Hz).
    apply spinner_slots_In in Hin as (Hnr & Hsr & Hav).
    rewrite Hn, Hc. unfold Bench3.WORKER_NODE.
    destruct (get_cpu_cases t n s) as [[_ He]|[_ Hr]]; [lia|].
    repeat split; try lia.
    apply get_cpu_in_node. exact Hav.
  - rewrite slot_entries_pairs.
    apply NoDup_map_NoDup_ForallPairs; [|apply spinner_slots_NoDup].
    intros [n1 s1] [n2 s2] H1 H2. cbn [fst snd]. intros [= -> Hc].
    f_equal.
    apply spinner_slots_In in H1 as (_ & Hs1 & Ha1).
    apply spinner_slots_In in H2 as (_ & Hs2 & Ha2).
    destruct (get_cpu_cases t n2 s1) as [[_ He1]|[Hi1 _]]; [lia|].
    destruct (get_cpu_cases t n2 s2) as [[_ He2]|[Hi2 _]]; [lia|].
    rewrite !get_cpu_for_node_nth in Hc by lia.
    assert (Hnd : NoDup (node_cpus t n2))
      by (apply ascending_NoDup, node_cpus_ascending).
    rewrite NoDup_nth in Hnd. apply Hnd in Hc; lia.
Qed.

Lemma spinner_data_well_formed_witness :
  NoDup (map (fun d => (Bench3.node d, Bench3.cpu d))
             [Bench3.mkSpinner 0 1 2 0; Bench3.mkSpinner 1 1 3 0]).
Proof.
  refine (proj1 (proj2 (proj2
    (@spinner_data_well_formed example_topology 2 (fun _ => true)
       (Bench3.mkLaunch 2 3 [Bench3.mkSpinner 0 1 2 0; Bench3.mkSpinner 1 1 3 0])
       _)))).
  reflexivity.
Defined.

(** ** The spinners [main] creates *)

Lemma spinner_slots_In_iff t S n s :
  In (n, s) (spinner_slots t S)
  <-> 1 <= n < numa_num_configured_nodes t
      /\ 0 <= s < S
      /\ 0 <= Bench3.get_cpu_for_node t n s.
Proof.
  split; [apply spinner_slots_In|]. intros (Hn & Hs & Ha).
  unfold spinner_slots. apply in_flat_map. exists n.
  split; [apply zrange_In; lia|].
  destruct (Z.eqb_spec n Bench3.WORKER_NODE) as [He|_];
    [unfold Bench3.WORKER_NODE in He; lia|].
  apply in_map. unfold cpu_slots. apply filter_In.
  split; [apply zrange_In; exact Hs | apply Z.leb_le; exact Ha].
Qed.

(** C2, as the code has it.  For [S >= 0] spinners per node and [M >= 1]
    nodes with [S * (M - 1)] below [INT_MAX], [main] first computes (and
    prints) [S * (M - 1)] as the total.  When NUMA is available and no
    [pthread_create] fails it reaches its wait loop having created one
    spinner for each remote node [n] and each index [s < S] at which that
    node has a CPU, and no other: entry by entry, in loop order, the array
    [spinner_data] names the node and the CPU of such a pair, each pair
    once.  That makes [min(S, CPUs of the node)] spinners per remote node,
    at most [S * (M - 1)] in all, and exactly [S * (M - 1)] when every
    remote node has at least [S] CPUs.  [total_spinners] is set to the
    number created and the ready count [main] waits for to that number
    plus one. *)
Theorem spinner_threads_created :
  forall (t : topology) (S : Z) (ok : Z -> bool),
    0 <= S ->
    1 <= numa_num_configured_nodes t ->
    S * (numa_num_configured_nodes t - 1) < INT_MAX ->
    numa_available t = true ->
    (forall i, ok i = true) ->
    Bench3.initial_total_spinners t S = S * (numa_num_configured_nodes t - 1)
    /\ exists l,
         Bench3.main_create_threads t S ok = Bench3.Next l
         /\ map (fun d => (Bench3.node d, Bench3.cpu d)) (Bench3.spinner_data l)
            = map (fun p => (fst p, Bench3.get_cpu_for_node t (fst p) (snd p)))
                  (spinner_slots t S)
         /\ NoDup (spinner_slots t S)
         /\ (forall n s,
                In (n, s) (spinner_slots t S)
                <-> 1 <= n < numa_num_configured_nodes t
                    /\ 0 <= s < S
                    /\ 0 <= Bench3.get_cpu_for_node t n s)
         /\ Z.of_nat (length (Bench3.spinner_data l))
            = fold_right Z.add 0 (map (spinners_on_node t S) (remote_nodes t))
         /\ Z.of_nat (length (Bench3.spinner_data l))
            <= S * (numa_num_configured_nodes t - 1)
         /\ Bench3.total_spinners l = Z.of_nat (length (Bench3.spinner_data l))
         /\ Bench3.expected_ready l
            = Z.of_nat (length (Bench3.spinner_data l)) + 1
         /\ ((forall n s, 1 <= n < numa_num_configured_nodes t -> 0 <= s < S ->
                          0 <= Bench3.get_cpu_for_node t n s) ->
             Z.of_nat (length (Bench3.spinner_data l))
             = S * (numa_num_configured_nodes t - 1)
             /\ Bench3.expected_ready l
                = S * (numa_num_configured_nodes t - 1) + 1).
Proof.
  intros t S ok HS HM Hfit Ha Hok.
  split; [apply initial_total_exact; (assumption || lia)|].
  destruct (@main_create_threads_succeeds t S ok HS HM ltac:(lia) Ha Hok)
    as [l Hl].
  exists l. split; [exact Hl|].
  destruct (main_create_threads_launch t ok HS HM Hfit Hl) as (Hd & Ht & He).
  rewrite He, Ht, Hd, slot_entries_length.
  split; [apply slot_entries_pairs|].
  split; [apply spinner_slots_NoDup|].
  split; [intros n s; apply spinner_slots_In_iff|].
  split; [apply spinner_slots_count; exact HS|].
  split; [apply spinner_slots_le; assumption|].
  split; [reflexivity|]. split; [reflexivity|].
  intros Hall. rewrite spinner_slots_full by assumption. auto.
Qed.

Lemma spinner_threads_created_witness :
  exists l,
    Bench3.main_create_threads example_topology 2 (fun _ => true)
    = Bench3.Next l
    /\ map (fun d => (Bench3.node d, Bench3.cpu d)) (Bench3.spinner_data l)
       = [(1, 2); (1, 3)].
Proof.
  destruct (proj2 (@spinner_threads_created example_topology 2 (fun _ => true)
                     ltac:(lia) ltac:(simpl; lia)
                     ltac:(simpl; unfold INT_MAX; lia)
                     eq_refl (fun _ => eq_refl)))
    as (l & Hl & Hpairs & _).
  exists l. split; [exact Hl | exact Hpairs].
Defined.

(** The claim of C2 fails on a machine whose remote node has fewer CPUs than
    the requested count: with 2 nodes of one CPU each and 2 spinners per
    node, [main] creates 1 spinner, not [2 * (2 - 1) = 2], and waits for 2
    participants, not 3.  It also fails for a count whose product with the
    number of remote nodes does not fit an [int]: with 715827883 spinners
    per node on 4 nodes the total [main] computes is -2147483647, and it
    creates no spinner and waits for -2147483646 participants. *)
Lemma spinner_threads_counterexample :
  Bench3.main_create_threads small_topology 2 (fun _ => true)
  = Bench3.Next (Bench3.mkLaunch 1 2 [Bench3.mkSpinner 0 1 1 0])
  /\ 1 <> 2 * (numa_num_configured_nodes small_topology - 1)
  /\ 2 <> 2 * (numa_num_configured_nodes small_topology - 1) + 1
  /\ Bench3.main_create_threads four_node_topology 715827883 (fun _ => true)
     = Bench3.Next (Bench3.mkLaunch (-2147483647) (-2147483646) [])
  /\ 0 <> 715827883 * (numa_num_configured_nodes four_node_topology - 1).
Proof.
  split; [reflexivity|]. split; [discriminate|]. split; [discriminate|].
  split; [reflexivity | discriminate].
Qed.

(** ** Accounting of the unmap/remap and map-touch-unmap workloads *)

Lemma successes_le e fuel : forall start, (successes e start fuel <= fuel)%nat.
Proof.
  induction fuel as [|fuel IH]; intros start; cbn [successes]; [lia|].
  destruct (mmap_result e start =? MAP_FAILED); [lia|].
  specialize (IH (S start)). lia.
Qed.

Lemma munmap_loop_accounting RS e fuel :
  forall i (s : st Bench3.worker_data_t),
    Bench3.region (data s) <> MAP_FAILED ->
    let k := successes e (mmaps s) fuel in
    exists s' evs,
      for_from fuel i (Bench4.munmap_iteration RS) e s = (tt, s')
      /\ Bench3.ops (data s') = Nat.iter k (fun x => u64_add x 1) (Bench3.ops (data s))
      /\ Bench3.elapsed_sec (data s') = Bench3.elapsed_sec (data s)
      /\ (Bench3.region (data s') = MAP_FAILED <-> (k < fuel)%nat)
      /\ mmaps s' = (mmaps s + k + broke k fuel)%nat
      /\ clocks s' = clocks s
      /\ trace s' = trace s ++ evs
      /\ length (filter is_munmap evs) = (k + broke k fuel)%nat
      /\ length (filter is_mmap_ok evs) = k
      /\ forallb is_map_cycle_step evs = true.
Proof.
  induction fuel as [|fuel IH]; intros i s Hreg k; subst k.
  - exists s, []. cbn. rewrite app_nil_r. repeat split; auto; try lia;
      try contradiction.
  - cbn [successes for_from].
    destruct (Z.eqb_spec (mmap_result e (mmaps s)) MAP_FAILED) as [Hf|Hok].
    + rewrite bind_run, munmap_iteration_fail by exact Hf. cbn [fst snd].
      eexists. eexists. split; [reflexivity|].
      cbn [data trace mmaps clocks Bench3.set_region Bench3.ops
           Bench3.elapsed_sec Bench3.region Nat.iter].
      unfold broke. cbn.
      repeat split; auto; try lia.
    + rewrite bind_run, munmap_iteration_ok by exact Hok. cbn [fst snd].
      match goal with
      | |- context [for_from fuel (i + 1) _ e ?s1] =>
          destruct (IH (i + 1) s1) as (s' & evs & Hrun & Hops & Hel & Hr & Hm & Hc & Ht & Hu & Hmo & Hk)
      end.
      { cbn. exact Hok. }
      cbn [data trace mmaps clocks Bench3.add_ops Bench3.set_region
           Bench3.ops Bench3.elapsed_sec Bench3.region] in *.
      exists s'. eexists. split; [exact Hrun|].
      rewrite Ht, <- app_assoc.
      assert (Hb : broke (S (successes e (S (mmaps s)) fuel)) (S fuel)
                   = broke (successes e (S (mmaps s)) fuel) fuel) by reflexivity.
      rewrite Hb.
      split; [rewrite Nat.iter_succ_r; exact Hops|].
      split; [exact Hel|].
      split; [rewrite Hr; lia|].
      split; [lia|].
      split; [exact Hc|].
      split; [reflexivity|].
      rewrite !filter_app, !length_app, forallb_app, Hu, Hmo, Hk.
      cbn [filter is_munmap is_mmap_ok is_map_cycle_step length app forallb andb].
      destruct (Z.eqb_spec (mmap_result e (mmaps s)) MAP_FAILED); [contradiction|].
      cbn. repeat split; lia.
Qed.

Lemma mmap_full_iteration_ok RS i e (s : st Bench3.worker_data_t) :
  mmap_result e (mmaps s) <> MAP_FAILED ->
  Bench4.mmap_full_iteration RS i e s
  = (true,
     mkSt (Bench3.add_ops 1 (Bench3.set_region (mmap_result e (mmaps s)) (data s)))
          (trace s ++ [EvMmap 0 RS (mmap_result e (mmaps s));
                       EvStore (mmap_result e (mmaps s)) 171;
                       EvStore (mmap_result e (mmaps s) + (RS - 1)) 205;
                       EvMunmap (mmap_result e (mmaps s)) RS])
          (S (mmaps s)) (clocks s)).
Proof.
  intros Hok. unfold Bench4.mmap_full_iteration. run_step.
  destruct (Z.eqb_spec (mmap_result e (mmaps s)) MAP_FAILED) as [E|_];
    [contradiction|].
  run_step. unfold ret. rewrite <- !app_assoc. reflexivity.
Qed.

Lemma mmap_full_iteration_fail RS i e (s : st Bench3.worker_data_t) :
  mmap_result e (mmaps s) = MAP_FAILED ->
  Bench4.mmap_full_iteration RS i e s
  = (false,
     mkSt (Bench3.set_region MAP_FAILED (data s))
          (trace s ++ [EvMmap 0 RS MAP_FAILED; EvPerror "mmap in loop"])
          (S (mmaps s)) (clocks s)).
Proof.
  intros Hf. unfold Bench4.mmap_full_iteration. run_step.
  rewrite Hf. cbn [Z.eqb MAP_FAILED Pos.eqb]. run_step.
  unfold ret. rewrite <- !app_assoc. reflexivity.
Qed.

Lemma mmap_full_loop_accounting RS e fuel :
  forall i (s : st Bench3.worker_data_t),
    let k := successes e (mmaps s) fuel in
    exists s' evs,
      for_from fuel i (Bench4.mmap_full_iteration RS) e s = (tt, s')
      /\ Bench3.ops (data s') = Nat.iter k (fun x => u64_add x 1) (Bench3.ops (data s))
      /\ Bench3.elapsed_sec (data s') = Bench3.elapsed_sec (data s)
      /\ mmaps s' = (mmaps s + k + broke k fuel)%nat
      /\ clocks s' = clocks s
      /\ trace s' = trace s ++ evs
      /\ length (filter is_munmap evs) = k
      /\ length (filter is_mmap_ok evs) = k
      /\ length (filter is_store evs) = (2 * k)%nat
      /\ forallb is_map_cycle_step evs = true.
Proof.
  induction fuel as [|fuel IH]; intros i s k; subst k.
  - exists s, []. cbn. rewrite app_nil_r. repeat split; auto; try lia.
  - cbn [successes for_from].
    destruct (Z.eqb_spec (mmap_result e (mmaps s)) MAP_FAILED) as [Hf|Hok].
    + rewrite bind_run, mmap_full_iteration_fail by exact Hf. cbn [fst snd].
      eexists. eexists. split; [reflexivity|].
      cbn [data trace mmaps clocks Bench3.set_region Bench3.ops
           Bench3.elapsed_sec Nat.iter].
      unfold broke. cbn. repeat split; auto; try lia.
    + rewrite bind_run, mmap_full_iteration_ok by exact Hok. cbn [fst snd].
      match goal with
      | |- context [for_from fuel (i + 1) _ e ?s1] =>
          destruct (IH (i + 1) s1) as (s' & evs & Hrun & Hops & Hel & Hm & Hc & Ht & Hu & Hmo & Hst & Hk)
      end.
      cbn [data trace mmaps clocks Bench3.add_ops Bench3.set_region
           Bench3.ops Bench3.elapsed_sec] in *.
      exists s'. eexists. split; [exact Hrun|].
      rewrite Ht, <- app_assoc.
      assert (Hb : broke (S (successes e (S (mmaps s)) fuel)) (S fuel)
                   = broke (successes e (S (mmaps s)) fuel) fuel) by reflexivity.
      rewrite Hb.
      split; [rewrite Nat.iter_succ_r; exact Hops|].
      split; [exact Hel|].
      split; [lia|].
      split; [exact Hc|].
      split; [reflexivity|].
      rewrite !filter_app, !length_app, forallb_app, Hu, Hmo, Hst, Hk.
      cbn [filter is_munmap is_mmap_ok is_store is_map_cycle_step length app
           forallb andb].
      destruct (Z.eqb_spec (mmap_result e (mmaps s)) MAP_FAILED); [contradiction|].
      cbn. repeat split; lia.
Qed.

Lemma forallb_impl (p q : event -> bool) l :
  (forall ev, p ev = true -> q ev = true) ->
  forallb p l = true -> forallb q l = true.
Proof.
  intros H. induction l as [|x l IH]; [reflexivity|].
  cbn. intros Hl. apply andb_true_iff in Hl as [Hx Hl].
  rewrite (H x Hx), IH by exact Hl. reflexivity.
Qed.

Lemma map_cycle_no_clock evs :
  forallb is_map_cycle_step evs = true ->
  forallb (fun ev => negb (is_clock ev)) evs = true.
Proof. apply forallb_impl. intros []; cbn; congruence. Qed.

Lemma prologue_filter_none p e :
  (forall cs, p (EvSetaffinity cs) = false) ->
  p EvReadyInc = false -> (forall b, p (EvReadGo b) = false) -> p EvPause = false ->
  filter p (worker4_prologue e) = []
  /\ forallb (fun ev => negb (p ev)) (worker4_prologue e) = true.
Proof.
  intros H1 H2 H3 H4. unfold worker4_prologue, pin_first_cpu_events, go_poll_events.
  assert (Hpoll : forallb (fun ev => negb (p ev)) [EvReadGo false; EvPause] = true)
    by (cbn; rewrite H3, H4; reflexivity).
  split.
  - rewrite !filter_app, filter_concat_repeat_none by exact Hpoll.
    destruct (0 <=? _); cbn; rewrite ?H1, H2, H3; reflexivity.
  - rewrite !forallb_app, forallb_concat_repeat by exact Hpoll.
    destruct (0 <=? _); cbn; rewrite ?H1, H2, H3; reflexivity.
Qed.

(** State of the unmap/remap worker at the end, in terms of the number of
    remaps that succeed. *)
Lemma worker4_munmap_run N RS e d :
  mmap_result e 0%nat <> MAP_FAILED ->
  let k := successes e 1 (Z.to_nat N) in
  exists evs,
    exec (Bench4.worker N RS Bench4.OP_MUNMAP) e d
    = mkSt (Bench3.mkWorker
              (Bench3.region (data (exec (Bench4.worker N RS Bench4.OP_MUNMAP) e d)))
              (elapsed_between (clock e 0%nat) (clock e 1%nat))
              (Nat.iter k (fun x => u64_add x 1) (Bench3.ops d)))
           (worker4_prologue e
            ++ prealloc_events RS (mmap_result e 0%nat)
            ++ [EvClock (clock e 0%nat)] ++ evs ++ [EvClock (clock e 1%nat)]
            ++ (if (k <? Z.to_nat N)%nat then []
                else [EvMunmap (Bench3.region
                                  (data (exec (Bench4.worker N RS Bench4.OP_MUNMAP) e d)))
                               RS]))
           (1 + k + broke k (Z.to_nat N)) 2
    /\ (Bench3.region (data (exec (Bench4.worker N RS Bench4.OP_MUNMAP) e d))
        = MAP_FAILED <-> (k < Z.to_nat N)%nat)
    /\ length (filter is_munmap evs) = (k + broke k (Z.to_nat N))%nat
    /\ length (filter is_mmap_ok evs) = k
    /\ forallb is_map_cycle_step evs = true.
Proof.
  intros H0 k. unfold exec. rewrite worker4_split.
  unfold Bench4.do_munmap_workload.
  run_one. run_one.
  destruct (Z.eqb_spec (mmap_result e 0%nat) MAP_FAILED) as [E|_];
    [contradiction|].
  run_one. run_one. rewrite bind_run. unfold for_loop.
  match goal with
  | |- context [for_from _ 0 _ e ?s1] =>
      destruct (@munmap_loop_accounting RS e (Z.to_nat N) 0 s1)
        as (s' & evs & Hrun & Hops & Hel & Hr & Hm & Hc & Ht & Hu & Hmo & Hk)
  end.
  { cbn. exact H0. }
  cbn [data trace mmaps clocks Bench3.set_region Bench3.ops
       Bench3.elapsed_sec Bench3.region] in *.
  fold k in Hops, Hr, Hm, Hu, Hmo.
  rewrite Hrun. cbn [fst snd].
  run_one. run_one. run_one. rewrite Hc.
  cbn [Bench3.set_elapsed Bench3.region].
  exists evs.
  destruct s' as [[r' el' ops'] tr' m' c']. cbn [data trace mmaps clocks
    Bench3.region Bench3.ops Bench3.elapsed_sec] in *. subst.
  destruct (Z.eqb_spec r' MAP_FAILED) as [Ef|Ene].
  - assert (Hlt : (k < Z.to_nat N)%nat) by (apply Hr; exact Ef).
    apply Nat.ltb_lt in Hlt. rewrite Hlt. cbn [ret snd data].
    split; [|auto].
    f_equal. unfold prealloc_events. rewrite <- !app_assoc. reflexivity.
  - assert (Hge : (k <? Z.to_nat N)%nat = false).
    { apply Nat.ltb_ge. destruct (Nat.lt_ge_cases k (Z.to_nat N)) as [H|H]; [|exact H].
      apply Hr in H. contradiction. }
    rewrite Hge. cbn [emit snd data trace mmaps clocks Bench3.region].
    split; [|auto].
    f_equal. unfold prealloc_events. rewrite <- !app_assoc. reflexivity.
Qed.

Lemma between_clocks_split pre t0 evs rest :
  forallb (fun ev => negb (is_clock ev)) pre = true ->
  forallb (fun ev => negb (is_clock ev)) evs = true ->
  between_clocks (pre ++ [EvClock t0] ++ evs ++ EvClock rest :: nil) = evs.
Proof.
  intros Hpre Hevs. unfold between_clocks.
  rewrite after_app_skip by exact Hpre. cbn [app after is_clock].
  rewrite before_app_skip by exact Hevs. cbn. apply app_nil_r.
Qed.

Lemma between_clocks_general pre t0 evs t1 post :
  forallb (fun ev => negb (is_clock ev)) pre = true ->
  forallb (fun ev => negb (is_clock ev)) evs = true ->
  between_clocks (pre ++ [EvClock t0] ++ evs ++ [EvClock t1] ++ post) = evs
  /\ before is_clock (pre ++ [EvClock t0] ++ evs ++ [EvClock t1] ++ post) = pre
  /\ after is_clock (after is_clock (pre ++ [EvClock t0] ++ evs ++ [EvClock t1] ++ post))
     = post.
Proof.
  intros Hpre Hevs. unfold between_clocks.
  rewrite after_app_skip by exact Hpre. cbn [app after is_clock].
  rewrite !before_app_skip by assumption.
  rewrite after_app_skip by exact Hevs.
  cbn. rewrite !app_nil_r. auto.
Qed.

(** X6.  The unmap/remap workload of microbenchmark4.c, for any outcome of
    its [mmap] calls after a pre-allocation that succeeded.  With [k] the
    number of iterations before the first failing re-map, the worker adds
    [k] to [ops]; it reads the clock twice, also when the loop breaks; it
    makes [k + 1] successful mappings and as many [munmap] calls; its
    region is [MAP_FAILED] at the end exactly when the loop broke; the
    timed section holds only map, unmap, store and [perror] steps; and the
    pre-allocation lies before the first clock reading. *)
Theorem unmap_remap_accounting :
  forall (N RS : Z) (e : env) (d : Bench3.worker_data_t),
    0 <= Bench3.ops d < 2 ^ 64 ->
    mmap_result e 0%nat <> MAP_FAILED ->
    let s := exec (Bench4.worker N RS Bench4.OP_MUNMAP) e d in
    let k := successes e 1 (Z.to_nat N) in
    (k <= Z.to_nat N)%nat
    /\ Bench3.ops (data s) = (Bench3.ops d + Z.of_nat k) mod 2 ^ 64
    /\ Bench3.elapsed_sec (data s)
       = elapsed_between (clock e 0%nat) (clock e 1%nat)
    /\ clocks s = 2%nat
    /\ mmaps s = (1 + k + broke k (Z.to_nat N))%nat
    /\ (Bench3.region (data s) = MAP_FAILED <-> (k < Z.to_nat N)%nat)
    /\ length (filter is_mmap_ok (trace s)) = S k
    /\ length (filter is_munmap (trace s)) = S k
    /\ forallb is_map_cycle_step (between_clocks (trace s)) = true
    /\ before is_clock (trace s)
       = worker4_prologue e ++ prealloc_events RS (mmap_result e 0%nat).
Proof.
  intros N RS e d Hd H0 s k.
  destruct (@worker4_munmap_run N RS e d H0) as (evs & Hs & Hr & Hu & Hmo & Hk).
  fold s in Hs, Hr. fold k in Hs, Hr, Hu, Hmo.
  assert (Hpre : forallb (fun ev => negb (is_clock ev))
                   (worker4_prologue e ++ prealloc_events RS (mmap_result e 0%nat))
                 = true).
  { rewrite forallb_app.
    rewrite (proj2 (@prologue_filter_none is_clock e
                      ltac:(reflexivity) eq_refl ltac:(reflexivity) eq_refl)).
    reflexivity. }
  pose proof (map_cycle_no_clock _ Hk) as Hnc.
  split; [apply successes_le|].
  rewrite Hs. cbn [data trace mmaps clocks Bench3.ops Bench3.elapsed_sec
                   Bench3.region].
  rewrite iter_u64_succ by exact Hd.
  split; [reflexivity|]. split; [reflexivity|]. split; [reflexivity|].
  split; [reflexivity|].
  split; [rewrite Hs in Hr; cbn [data Bench3.region] in Hr; exact Hr|].
  rewrite (app_assoc (worker4_prologue e) (prealloc_events RS (mmap_result e 0%nat))).
  destruct (between_clocks_general
              (worker4_prologue e ++ prealloc_events RS (mmap_result e 0%nat))
              (clock e 0%nat) evs (clock e 1%nat)
              (if (k <? Z.to_nat N)%nat then []
               else [EvMunmap (Bench3.region (data s)) RS]) Hpre Hnc)
    as (Hb & Hbefore & _).
  rewrite Hs in Hb, Hbefore. cbn [data Bench3.region] in Hb, Hbefore.
  rewrite Hb, Hbefore.
  split; [|split; [|split; [exact Hk | reflexivity]]].
  - rewrite !filter_app, !length_app.
    rewrite (proj1 (@prologue_filter_none is_mmap_ok e
                      ltac:(reflexivity) eq_refl ltac:(reflexivity) eq_refl)).
    rewrite Hmo. unfold prealloc_events. cbn [filter is_mmap_ok length app].
    destruct (Z.eqb_spec (mmap_result e 0%nat) MAP_FAILED); [contradiction|].
    cbn [negb length]. destruct (k <? Z.to_nat N)%nat; cbn; lia.
  - rewrite !filter_app, !length_app.
    rewrite (proj1 (@prologue_filter_none is_munmap e
                      ltac:(reflexivity) eq_refl ltac:(reflexivity) eq_refl)).
    rewrite Hu. unfold prealloc_events, broke.
    cbn [filter is_munmap length app].
    destruct (k <? Z.to_nat N)%nat; cbn; lia.
Qed.

Lemma unmap_remap_accounting_witness :
  Bench3.ops
    (data (exec (Bench4.worker 5 4096 Bench4.OP_MUNMAP)
             (mkEnv example_topology
                    (fun n => if (n <=? 2)%nat then 4096 else MAP_FAILED)
                    (fun n => mkTimespec (Z.of_nat n) 0) 1 3)
             Bench3.initial_worker_data))
  = (0 + Z.of_nat 2) mod 2 ^ 64.
Proof.
  refine (proj1 (proj2
    (@unmap_remap_accounting 5 4096
       (mkEnv example_topology
              (fun n => if (n <=? 2)%nat then 4096 else MAP_FAILED)
              (fun n => mkTimespec (Z.of_nat n) 0) 1 3)
       Bench3.initial_worker_data _ _))).
  - simpl. split; [lia | reflexivity].
  - simpl. discriminate.
Defined.

Lemma worker4_mmap_full_run N RS e d :
  let k := successes e 0 (Z.to_nat N) in
  exists r evs,
    exec (Bench4.worker N RS Bench4.OP_MMAP_FULL) e d
    = mkSt (Bench3.mkWorker r
              (elapsed_between (clock e 0%nat) (clock e 1%nat))
              (Nat.iter k (fun x => u64_add x 1) (Bench3.ops d)))
           (worker4_prologue e ++ [EvClock (clock e 0%nat)] ++ evs
            ++ [EvClock (clock e 1%nat)] ++ [])
           (k + broke k (Z.to_nat N)) 2
    /\ length (filter is_munmap evs) = k
    /\ length (filter is_mmap_ok evs) = k
    /\ length (filter is_store evs) = (2 * k)%nat
    /\ forallb is_map_cycle_step evs = true.
Proof.
  intros k. unfold exec. rewrite worker4_split.
  unfold Bench4.do_mmap_full_workload.
  run_one. rewrite bind_run. unfold for_loop.
  match goal with
  | |- context [for_from _ 0 _ e ?s1] =>
      destruct (@mmap_full_loop_accounting RS e (Z.to_nat N) 0 s1)
        as (s' & evs & Hrun & Hops & Hel & Hm & Hc & Ht & Hu & Hmo & Hst & Hk)
  end.
  cbn [data trace mmaps clocks Bench3.ops Bench3.elapsed_sec] in *.
  fold k in Hops, Hm, Hu, Hmo, Hst.
  rewrite Hrun. cbn [fst snd]. run_one. rewrite Hc.
  destruct s' as [[r' el' ops'] tr' m' c']. cbn [data trace mmaps clocks
    Bench3.region Bench3.ops Bench3.elapsed_sec] in *. subst.
  exists r', evs. unfold modify_data. cbn [snd data trace mmaps clocks
    Bench3.set_elapsed Bench3.region Bench3.ops].
  split; [|auto]. f_equal. rewrite <- !app_assoc. reflexivity.
Qed.

(** X7.  The map-touch-unmap workload of microbenchmark4.c, for any outcome
    of its [mmap] calls.  With [k] the number of iterations before the
    first failing [mmap], the worker adds [k] to [ops], maps and unmaps [k]
    regions and stores twice into each; it reads the clock twice, also
    when the loop breaks; nothing is mapped before the first reading and
    nothing happens after the second. *)
Theorem map_touch_unmap_accounting :
  forall (N RS : Z) (e : env) (d : Bench3.worker_data_t),
    0 <= Bench3.ops d < 2 ^ 64 ->
    let s := exec (Bench4.worker N RS Bench4.OP_MMAP_FULL) e d in
    let k := successes e 0 (Z.to_nat N) in
    (k <= Z.to_nat N)%nat
    /\ Bench3.ops (data s) = (Bench3.ops d + Z.of_nat k) mod 2 ^ 64
    /\ Bench3.elapsed_sec (data s)
       = elapsed_between (clock e 0%nat) (clock e 1%nat)
    /\ clocks s = 2%nat
    /\ mmaps s = (k + broke k (Z.to_nat N))%nat
    /\ length (filter is_mmap_ok (trace s)) = k
    /\ length (filter is_munmap (trace s)) = k
    /\ length (filter is_store (trace s)) = (2 * k)%nat
    /\ forallb is_map_cycle_step (between_clocks (trace s)) = true
    /\ before is_clock (trace s) = worker4_prologue e
    /\ after is_clock (after is_clock (trace s)) = [].
Proof.
  intros N RS e d Hd s k.
  destruct (@worker4_mmap_full_run N RS e d) as (r & evs & Hs & Hu & Hmo & Hst & Hk).
  fold s in Hs. fold k in Hs, Hu, Hmo, Hst.
  assert (Hpre : forallb (fun ev => negb (is_clock ev)) (worker4_prologue e) = true)
    by apply (proj2 (@prologue_filter_none is_clock e
                       ltac:(reflexivity) eq_refl ltac:(reflexivity) eq_refl)).
  pose proof (map_cycle_no_clock _ Hk) as Hnc.
  split; [apply successes_le|].
  rewrite Hs. cbn [data trace mmaps clocks Bench3.ops Bench3.elapsed_sec].
  rewrite iter_u64_succ by exact Hd.
  destruct (between_clocks_general (worker4_prologue e) (clock e 0%nat) evs
              (clock e 1%nat) [] Hpre Hnc) as (Hb & Hbefore & Hafter).
  rewrite Hb, Hbefore, Hafter.
  repeat split; auto.
  - rewrite !filter_app, !length_app.
    rewrite (proj1 (@prologue_filter_none is_mmap_ok e
                      ltac:(reflexivity) eq_refl ltac:(reflexivity) eq_refl)).
    rewrite Hmo. cbn. lia.
  - rewrite !filter_app, !length_app.
    rewrite (proj1 (@prologue_filter_none is_munmap e
                      ltac:(reflexivity) eq_refl ltac:(reflexivity) eq_refl)).
    rewrite Hu. cbn. lia.
  - rewrite !filter_app, !length_app.
    rewrite (proj1 (@prologue_filter_none is_store e
                      ltac:(reflexivity) eq_refl ltac:(reflexivity) eq_refl)).
    rewrite Hst. cbn. lia.
Qed.

Lemma map_touch_unmap_accounting_witness :
  length (filter is_store
            (trace (exec (Bench4.worker 5 4096 Bench4.OP_MMAP_FULL)
                      (mkEnv example_topology
                             (fun n => if (n <=? 2)%nat then 4096 else MAP_FAILED)
                             (fun n => mkTimespec (Z.of_nat n) 0) 1 3)
                      Bench3.initial_worker_data)))
  = (2 * 3)%nat.
Proof.
  refine (proj1 (proj2 (proj2 (proj2 (proj2 (proj2 (proj2 (proj2
    (@map_touch_unmap_accounting 5 4096
       (mkEnv example_topology
              (fun n => if (n <=? 2)%nat then 4096 else MAP_FAILED)
              (fun n => mkTimespec (Z.of_nat n) 0) 1 3)
       Bench3.initial_worker_data _))))))))).
  simpl. split; [lia | reflexivity].
Defined.

Lemma toggle_no_clock r len n :
  forallb (fun ev => negb (is_clock ev)) (toggle_events r len n) = true.
Proof. unfold toggle_events. apply forallb_concat_repeat. reflexivity. Qed.

(** X8.  In the workers of microbenchmark1.c/2.c, microbenchmark3.c and
    microbenchmark4.c (mprotect), the events between the two clock
    readings are exactly the [N] protection toggles of the region; the
    only step after the second reading is the [munmap] of the region; and
    the only memory-management call before the first is the one [mmap]. *)
Theorem protect_toggle_timed_section :
  forall (N RS : Z) (e : env)
         (d1 : Bench1.worker_data_t) (d3 d4 : Bench3.worker_data_t),
    mmap_result e 0%nat <> MAP_FAILED ->
    let r := mmap_result e 0%nat in
    let tr1 := trace (exec (Bench1.worker N RS) e d1) in
    let tr3 := trace (exec (Bench3.worker N RS) e d3) in
    let tr4 := trace (exec (Bench4.worker N RS Bench4.OP_MPROTECT) e d4) in
    (between_clocks tr1 = toggle_events r RS N
     /\ after is_clock (after is_clock tr1) = [EvMunmap r RS]
     /\ filter is_mm_syscall (before is_clock tr1) = [EvMmap 0 RS r])
    /\ (between_clocks tr3 = toggle_events r RS N
        /\ after is_clock (after is_clock tr3) = [EvMunmap r RS]
        /\ filter is_mm_syscall (before is_clock tr3) = [EvMmap 0 RS r])
    /\ (between_clocks tr4 = toggle_events r RS N
        /\ after is_clock (after is_clock tr4) = [EvMunmap r RS]
        /\ filter is_mm_syscall (before is_clock tr4) = [EvMmap 0 RS r]).
Proof.
  intros N RS e d1 d3 d4 Hok r tr1 tr3 tr4.
  assert (Hpolls : filter is_mm_syscall (go_poll_events e) = []
                   /\ forallb (fun ev => negb (is_clock ev)) (go_poll_events e) = true).
  { split; [|apply go_polls_no_clock]. unfold go_poll_events.
    rewrite filter_app, filter_concat_repeat_none by reflexivity. reflexivity. }
  destruct Hpolls as [Hpf Hpc].
  assert (Hgen : forall pin,
             filter is_mm_syscall pin = [] ->
             forallb (fun ev => negb (is_clock ev)) pin = true ->
             let tr := pin ++ [EvMmap 0 RS r; EvMemset r 171 RS; EvReadyInc]
                       ++ go_poll_events e ++ timed_toggle_events e r RS N in
             between_clocks tr = toggle_events r RS N
             /\ after is_clock (after is_clock tr) = [EvMunmap r RS]
             /\ filter is_mm_syscall (before is_clock tr) = [EvMmap 0 RS r]).
  { intros pin Hf Hc tr. subst tr. unfold timed_toggle_events.
    rewrite !app_assoc.
    rewrite <- (app_assoc _ (toggle_events r RS N)).
    rewrite <- (app_assoc _ [EvClock (clock e 0%nat)]).
    destruct (between_clocks_general
                ((pin ++ [EvMmap 0 RS r; EvMemset r 171 RS; EvReadyInc])
                 ++ go_poll_events e)
                (clock e 0%nat) (toggle_events r RS N) (clock e 1%nat)
                [EvMunmap r RS]) as (Hb & Hbefore & Hafter).
    - rewrite !forallb_app, Hc, Hpc. reflexivity.
    - apply toggle_no_clock.
    - cbn [app] in *. rewrite Hb, Hafter, Hbefore.
      rewrite !filter_app, Hf, Hpf. auto. }
  split; [|split].
  - subst tr1. rewrite worker1_run by exact Hok. cbn [trace]. apply Hgen.
    + unfold pin_to_node_events. destruct (numa_node_to_cpus _ _); reflexivity.
    + apply pin_to_node_events_only_setup. reflexivity.
  - subst tr3. rewrite worker3_run by exact Hok. cbn [trace]. apply Hgen.
    + unfold pin_first_cpu_events. destruct (0 <=? _); reflexivity.
    + apply pin_first_cpu_events_only_setup. reflexivity.
  - subst tr4. unfold exec. rewrite worker4_split.
    rewrite do_mprotect_workload_run by exact Hok. cbn [snd trace mmaps clocks].
    fold r.
    destruct (between_clocks_general
                (worker4_prologue e ++ [EvMmap 0 RS r; EvMemset r 171 RS])
                (clock e 0%nat) (toggle_events r RS N) (clock e 1%nat)
                [EvMunmap r RS]) as (Hb & Hbefore & Hafter).
    + rewrite forallb_app.
      rewrite (proj2 (@prologue_filter_none is_clock e
                        ltac:(reflexivity) eq_refl ltac:(reflexivity) eq_refl)).
      reflexivity.
    + apply toggle_no_clock.
    + rewrite <- !app_assoc in *. cbn [app] in *.
      rewrite Hb, Hafter, Hbefore. rewrite filter_app.
      rewrite (proj1 (@prologue_filter_none is_mm_syscall e
                        ltac:(reflexivity) eq_refl ltac:(reflexivity) eq_refl)).
      auto.
Qed.

Lemma protect_toggle_timed_section_witness :
  between_clocks
    (trace (exec (Bench3.worker 2 4096) example_env Bench3.initial_worker_data))
  = toggle_events 4096 4096 2.
Proof.
  refine (proj1 (proj1 (proj2
    (@protect_toggle_timed_section 2 4096 example_env (Bench1.initial_data 0)
       Bench3.initial_worker_data Bench3.initial_worker_data _)))).
  simpl. discriminate.
Defined.

(** ** Elapsed time and the report *)

(** X9.  The elapsed time [(end.tv_sec - start.tv_sec) + (end.tv_nsec -
    start.tv_nsec) / 1e9] is never negative when the two readings are
    normalised and the second is not earlier than the first, although its
    nanosecond term may be; it is zero only for equal readings. *)
Theorem elapsed_nonnegative :
  forall (a b : timespec),
    normalised a -> normalised b -> timespec_le a b ->
    (0 <= elapsed_between a b)%Q
    /\ ((elapsed_between a b == 0)%Q <-> a = b)
    /\ (a <> b -> (0 < elapsed_between a b)%Q).
Proof.
  intros [sa na] [sb nb]. unfold normalised, timespec_le. cbn [tv_sec tv_nsec].
  intros Ha Hb Hle.
  set (n := (sb - sa) * 1000000000 + (nb - na)).
  assert (Hn : 0 <= n) by (unfold n; lia).
  assert (He : (elapsed_between (mkTimespec sa na) (mkTimespec sb nb)
                == (n # 1000000000))%Q) by apply elapsed_between_nanos.
  assert (Hz : n = 0 <-> mkTimespec sa na = mkTimespec sb nb).
  { unfold n. split.
    - intros H. assert (sa = sb /\ na = nb) as [-> ->] by lia. reflexivity.
    - intros [= -> ->]. lia. }
  split; [|split].
  - rewrite He. unfold Qle. cbn. lia.
  - rewrite He, <- Hz. unfold Qeq. cbn. lia.
  - intros Hne. rewrite He. unfold Qlt. cbn.
    assert (n <> 0) by (intros H; apply Hne, Hz, H). lia.
Qed.

Lemma elapsed_nonnegative_witness :
  (0 <= elapsed_between (mkTimespec 1 900000000) (mkTimespec 2 100000000))%Q.
Proof.
  refine (proj1
    (@elapsed_nonnegative (mkTimespec 1 900000000) (mkTimespec 2 100000000)
       _ _ _)).
  - unfold normalised. simpl. lia.
  - unfold normalised. simpl. lia.
  - left. simpl. lia.
Defined.

(** X10.  The report of microbenchmark3.c/4.c, by the class of the
    values it prints.  With operations completed and time elapsed,
    throughput and latency are finite and positive; with no time elapsed
    the throughput is infinite and the latency 0; with no operation the
    throughput is 0 and the latency infinite; with neither, both are
    NaN.  No division traps. *)
Theorem report_throughput_latency :
  forall (w : Bench3.worker_data_t),
    0 <= Bench3.ops w ->
    (0 <= Bench3.elapsed_sec w)%Q ->
    let r := Bench3.main_report w in
    Bench3.rep_ops r = Bench3.ops w
    /\ (0 < Bench3.ops w -> (0 < Bench3.elapsed_sec w)%Q ->
        exists th la,
          Bench3.rep_throughput r = Finite th
          /\ Bench3.rep_latency r = Finite la
          /\ (0 < th)%Q /\ (0 < la)%Q)
    /\ (0 < Bench3.ops w -> (Bench3.elapsed_sec w == 0)%Q ->
        Bench3.rep_throughput r = PosInf
        /\ exists la, Bench3.rep_latency r = Finite la /\ (la == 0)%Q)
    /\ (Bench3.ops w = 0 -> (0 < Bench3.elapsed_sec w)%Q ->
        (exists th, Bench3.rep_throughput r = Finite th /\ (th == 0)%Q)
        /\ Bench3.rep_latency r = PosInf)
    /\ (Bench3.ops w = 0 -> (Bench3.elapsed_sec w == 0)%Q ->
        Bench3.rep_throughput r = NaN /\ Bench3.rep_latency r = NaN).
Proof.
  intros [rg el ops]. cbn [Bench3.ops Bench3.elapsed_sec]. intros Hops Hel.
  cbv zeta. unfold Bench3.main_report. cbn [Bench3.rep_ops Bench3.rep_throughput
    Bench3.rep_latency Bench3.ops Bench3.elapsed_sec].
  assert (Hinj0 : forall z, Qeq_bool (inject_Z z) 0 = (z =? 0)).
  { intros z. unfold Qeq_bool, inject_Z. cbn. rewrite Z.mul_1_r. reflexivity. }
  assert (Hq : forall z, 0 < z -> (0 < inject_Z z)%Q)
    by (intros z H; unfold Qlt; cbn; lia).
  assert (Hqle : forall z, 0 <= z -> (0 <= inject_Z z)%Q)
    by (intros z H; unfold Qle; cbn; lia).
  split; [reflexivity|]. unfold fdiv. rewrite !Hinj0.
  split; [|split; [|split]].
  - intros Hp Hep.
    assert (Hne : ~ (el == 0)%Q) by (intros H; rewrite H in Hep; apply (Qlt_irrefl 0 Hep)).
    assert (Hb : Qeq_bool el 0 = false).
    { destruct (Qeq_bool el 0) eqn:E; [|reflexivity].
      apply Qeq_bool_iff in E. contradiction. }
    rewrite Hb. destruct (Z.eqb_spec ops 0); [lia|].
    eexists. eexists. split; [reflexivity|]. split; [reflexivity|].
    assert (Hopsq : (0 < inject_Z ops)%Q) by (apply Hq; exact Hp).
    assert (Hopsne : ~ (inject_Z ops == 0)%Q)
      by (intros H; rewrite H in Hopsq; apply (Qlt_irrefl 0 Hopsq)).
    split.
    + apply Qlt_shift_div_l; [exact Hep|]. rewrite Qmult_0_l. exact Hopsq.
    + apply Qlt_shift_div_l; [exact Hopsq|]. rewrite Qmult_0_l.
      apply Qmult_lt_0_compat; [exact Hep | reflexivity].
  - intros Hp Hez.
    assert (Hb : Qeq_bool el 0 = true) by (apply Qeq_bool_iff; exact Hez).
    rewrite Hb. destruct (Z.eqb_spec ops 0); [lia|].
    assert (Hle : Qle_bool 0 (inject_Z ops) = true).
    { apply Qle_bool_iff. apply Hqle. lia. }
    rewrite Hle. split; [reflexivity|]. eexists. split; [reflexivity|].
    rewrite Hez. field. intros H. specialize (Hq ops Hp).
    rewrite H in Hq. apply (Qlt_irrefl 0 Hq).
  - intros -> Hep. cbn [Z.eqb].
    assert (Hb : Qeq_bool el 0 = false).
    { destruct (Qeq_bool el 0) eqn:E; [|reflexivity].
      apply Qeq_bool_iff in E. rewrite E in Hep. destruct (Qlt_irrefl 0 Hep). }
    rewrite Hb. split.
    + eexists. split; [reflexivity|]. unfold Qdiv. apply Qmult_0_l.
    + assert (Hm : Qeq_bool (el * inject_Z 1000000) 0 = false).
      { destruct (Qeq_bool (el * inject_Z 1000000) 0) eqn:E; [|reflexivity].
        apply Qeq_bool_iff in E.
        assert (H : (0 < el * inject_Z 1000000)%Q)
          by (apply Qmult_lt_0_compat; [exact Hep | reflexivity]).
        rewrite E in H. destruct (Qlt_irrefl 0 H). }
      rewrite Hm.
      assert (Hle : Qle_bool 0 (el * inject_Z 1000000) = true).
      { apply Qle_bool_iff. apply Qmult_le_0_compat; [exact Hel | discriminate]. }
      rewrite Hle. reflexivity.
  - intros -> Hez. cbn [Z.eqb].
    assert (Hb : Qeq_bool el 0 = true) by (apply Qeq_bool_iff; exact Hez).
    rewrite Hb.
    assert (Hm : Qeq_bool (el * inject_Z 1000000) 0 = true).
    { apply Qeq_bool_iff. rewrite Hez. apply Qmult_0_l. }
    rewrite Hm. split; reflexivity.
Qed.

(** 40000 operations in a fifth of a second. *)
Lemma report_throughput_latency_witness :
  exists th la,
    Bench3.rep_throughput (Bench3.main_report (Bench3.mkWorker 4096 (1 # 5) 40000))
    = Finite th
    /\ Bench3.rep_latency (Bench3.main_report (Bench3.mkWorker 4096 (1 # 5) 40000))
       = Finite la
    /\ (0 < th)%Q /\ (0 < la)%Q.
Proof.
  refine (proj1 (proj2
    (@report_throughput_latency (Bench3.mkWorker 4096 (1 # 5) 40000) _ _))
    _ _).
  - simpl. lia.
  - simpl. discriminate.
  - simpl. lia.
  - reflexivity.
Defined.

(** ** Affinity binding *)

Lemma first_cpu_head cpus ncpus :
  Bench1.first_cpu cpus ncpus
  = match cpus_of_mask cpus ncpus with
    | [] => []
    | c :: _ => cpu_set_of c
    end.
Proof. reflexivity. Qed.

Lemma cpu_set_of_cases c :
  (0 <= c < CPU_SETSIZE /\ cpu_set_of c = [c])
  \/ ((c < 0 \/ CPU_SETSIZE <= c) /\ cpu_set_of c = []).
Proof.
  unfold cpu_set_of.
  destruct (Z.leb_spec 0 c), (Z.ltb_spec c CPU_SETSIZE); cbn [andb];
    [left | right | right | right]; split; auto; lia.
Qed.

(** X11.  [pin_to_node] of microbenchmark1.c/2.c and
    [pin_to_node_first_cpu] of microbenchmark3.c/4.c leave the thread's
    record alone and call [sched_setaffinity] with the same set: the
    lowest-numbered CPU of the node alone when its number is below
    [CPU_SETSIZE], and the empty set when it is not, [CPU_SET] leaving the
    set alone then.  On a node without CPU the latter makes no call, while
    the former calls [sched_setaffinity] with an empty set, unless
    [numa_node_to_cpus] fails. *)
Theorem pin_to_node_binds_first_cpu :
  forall (n : Z) (e : env) (s1 : st Bench1.worker_data_t)
         (s3 : st Bench3.worker_data_t),
    let c := Bench3.get_cpu_for_node (topo e) n 0 in
    let t1 := trace (snd (Bench1.pin_to_node n e s1)) in
    let t3 := trace (snd (Bench3.pin_to_node_first_cpu n e s3)) in
    data (snd (Bench1.pin_to_node n e s1)) = data s1
    /\ data (snd (Bench3.pin_to_node_first_cpu n e s3)) = data s3
    /\ (0 <= c < CPU_SETSIZE ->
        t1 = trace s1 ++ [EvSetaffinity [c]]
        /\ t3 = trace s3 ++ [EvSetaffinity [c]])
    /\ (CPU_SETSIZE <= c ->
        t1 = trace s1 ++ [EvSetaffinity []]
        /\ t3 = trace s3 ++ [EvSetaffinity []])
    /\ (c < 0 -> t3 = trace s3
                 /\ t1 = trace s1
                         ++ match numa_node_to_cpus (topo e) n with
                            | None => []
                            | Some _ => [EvSetaffinity []]
                            end).
Proof.
  intros n e s1 s3. cbv zeta.
  rewrite pin_to_node_run, pin_to_node_first_cpu_run. cbn [snd data trace].
  unfold pin_to_node_events, pin_first_cpu_events.
  assert (Hc : Bench3.get_cpu_for_node (topo e) n 0
               = nth 0 (node_cpus (topo e) n) (-1))
    by (apply get_cpu_for_node_nth; lia).
  rewrite Hc. clear Hc. unfold node_cpus.
  split; [reflexivity|]. split; [reflexivity|].
  destruct (numa_node_to_cpus (topo e) n) as [cpus|].
  - rewrite first_cpu_head.
    destruct (cpus_of_mask cpus (numa_num_configured_cpus (topo e)))
      as [|c0 rest] eqn:E; cbn [nth Nat.pred Z.to_nat].
    + cbn. unfold CPU_SETSIZE. split; [lia|]. split; [lia|].
      intros _. rewrite app_nil_r. auto.
    + assert (H0 : 0 <= c0).
      { assert (Hin : In c0 (cpus_of_mask cpus (numa_num_configured_cpus (topo e))))
          by (rewrite E; now left).
        unfold cpus_of_mask in Hin. apply filter_In in Hin as [Hin _].
        apply zrange_In in Hin. lia. }
      destruct (Z.leb_spec 0 c0); [|lia].
      destruct (cpu_set_of_cases c0) as [[Hr ->] | [Hr ->]].
      * split; [auto|]. split; lia.
      * split; [lia|]. split; [auto | lia].
  - cbn. unfold CPU_SETSIZE. split; [lia|]. split; [lia|].
    intros _. rewrite app_nil_r. auto.
Qed.

(** ** More on the barrier *)

Lemma increments_full l :
  increments l = Z.of_nat (length l) ->
  forall t, In t l -> Barrier.incremented t = true.
Proof.
  induction l as [|x l IH]; intros H t Ht; [destruct Ht|].
  rewrite increments_cons in H. cbn [length] in H.
  pose proof (increments_failures_le l) as (H0 & H1 & H2).
  destruct (Barrier.incremented x) eqn:Ex; [|lia].
  destruct Ht as [<- | Ht]; [exact Ex|]. apply IH; [lia | exact Ht].
Qed.

(** X12.  Along every interleaving of [main] and the threads it creates,
    when it waits for all of them, [go] is set only once every thread has
    been created and has executed its ready increment, no worker has
    returned on a failed mapping, and [ready_count] equals the number of
    threads. *)
Theorem go_implies_all_ready :
  forall (cfg : Barrier.config) (sched : list Barrier.action),
    Z.of_nat (length (Barrier.cfg_roles cfg)) <= Barrier.cfg_expected cfg ->
    let s := Barrier.run cfg sched (Barrier.init cfg) in
    Barrier.go s = true ->
    length (Barrier.threads s) = length (Barrier.cfg_roles cfg)
    /\ Barrier.ready_count s = Z.of_nat (length (Barrier.cfg_roles cfg))
    /\ (forall t, In t (Barrier.threads s) -> Barrier.incremented t = true)
    /\ Barrier.worker_failed s = false
    /\ pending (Barrier.driver s) = 0%nat.
Proof.
  intros cfg sched Hexp s Hgo.
  assert (Hinv : barrier_inv cfg s)
    by (apply barrier_inv_run, barrier_inv_init).
  destruct Hinv as [Hg Harm Hpast Hmain Hcount Hlen].
  specialize (Hg Hgo).
  pose proof (increments_failures_le (Barrier.threads s)) as (H0 & H1 & H2).
  assert (Hfull : increments (Barrier.threads s)
                  = Z.of_nat (length (Barrier.threads s))) by lia.
  split; [lia|]. split; [lia|]. split; [apply increments_full; exact Hfull|].
  split; [|lia].
  unfold Barrier.worker_failed.
  destruct (existsb Barrier.has_failed (Barrier.threads s)) eqn:E; [|reflexivity].
  apply failures_positive in E. lia.
Qed.

Lemma go_implies_all_ready_witness :
  Barrier.ready_count
    (Barrier.run (Barrier.bench1_config 2) (completing_schedule 2)
       (Barrier.init (Barrier.bench1_config 2)))
  = 2.
Proof.
  refine (proj1 (proj2
    (@go_implies_all_ready (Barrier.bench1_config 2) (completing_schedule 2)
       _ _))).
  - simpl. lia.
  - reflexivity.
Defined.

Lemma stop_inv_init cfg : stop_inv cfg (Barrier.init cfg).
Proof.
  constructor; cbn; try discriminate; try tauto;
    try (intros [H | [H | H]]; discriminate).
Qed.

Lemma thread_step_more cfg ok s t :
  let t' := fst (Barrier.thread_step cfg ok s t) in
  Barrier.is_worker t' = Barrier.is_worker t
  /\ (Barrier.finished t = true -> t' = t)
  /\ (Barrier.is_worker t = false -> Barrier.t_pc t' = Barrier.Returned ->
      Barrier.t_pc t = Barrier.Returned \/ Barrier.stop_spinners s = true)
  /\ (Barrier.has_failed t' = true ->
      Barrier.has_failed t = true
      \/ (Barrier.is_worker t = true /\ Barrier.cfg_prealloc cfg = true)).
Proof.
  destruct t as [r pc]. unfold Barrier.thread_step.
  cbn [Barrier.t_pc Barrier.t_role].
  destruct pc, r; cbn;
    try (destruct (Barrier.cfg_prealloc cfg), ok; cbn);
    try (destruct (Barrier.go s); cbn);
    try (destruct (Barrier.stop_spinners s); cbn);
    repeat split; intros; try discriminate; auto.
Qed.

Lemma stop_inv_step cfg a s :
  stop_inv cfg s -> stop_inv cfg (Barrier.step cfg a s).
Proof.
  intros Hinv. pose proof Hinv as [Hstop Hjoin Hsp Hfail].
  destruct a as [ok | i ok]; cbn [Barrier.step].
  - unfold Barrier.driver_step.
    destruct (Barrier.driver s) as [[|r todo]| | | | | | |] eqn:Ed;
      repeat match goal with
             | |- context [if ?b then _ else _] => destruct b eqn:?
             end;
      try exact Hinv;
      (constructor;
       cbn [Barrier.ready_count Barrier.go Barrier.driver Barrier.threads
            Barrier.stop_spinners Barrier.with_driver] in *;
       [ intros H; try (specialize (Hstop H); destruct Hstop; congruence); auto
       | intros H t Ht Hw;
         try (destruct H as [H | [H | H]]; discriminate);
         try (apply Hjoin; auto; fail)
       | intros t Ht Hw Hp; eauto
       | intros t Ht Hf; eauto ]).
    all: try match goal with
         | H : In _ (_ ++ _) |- _ =>
             apply in_app_or in H as [H | [<- | []]]; [eauto | discriminate]
         end.
    all: try match goal with
         | Hall : forallb _ ?l = true,
           Ht : In ?t ?l, Hw : Barrier.is_worker ?t = true |- _ =>
             rewrite forallb_forall in Hall; specialize (Hall t Ht);
             rewrite Hw in Hall; exact Hall
         end.
  - destruct (nth_error (Barrier.threads s) i) as [t|] eqn:Et; [|exact Hinv].
    pose proof (@thread_step_more cfg ok s t) as (Hw & Hfin & Hret & Hf).
    destruct (Barrier.thread_step cfg ok s t) as [t' inc]. cbn [fst snd] in *.
    assert (Hin : In t (Barrier.threads s)) by (eapply nth_error_In; exact Et).
    constructor; cbn [Barrier.ready_count Barrier.go Barrier.driver
                      Barrier.threads Barrier.stop_spinners].
    + exact Hstop.
    + intros H x Hx Hxw. apply set_nth_In in Hx as [-> | Hx]; [|eauto].
      rewrite Hw in Hxw. specialize (Hjoin H t Hin Hxw).
      rewrite (Hfin Hjoin). exact Hjoin.
    + intros x Hx Hxw Hxp. apply set_nth_In in Hx as [-> | Hx]; [|eauto].
      rewrite Hw in Hxw. destruct (Hret Hxw Hxp) as [Hold | Hs]; [|exact Hs].
      eauto.
    + intros x Hx Hxf. apply set_nth_In in Hx as [-> | Hx]; [|eauto].
      rewrite Hw. destruct (Hf Hxf) as [Hold | Hp]; [|exact Hp].
      apply (Hfail t Hin Hold).
Qed.

Lemma stop_inv_run cfg sched : forall s,
  stop_inv cfg s -> stop_inv cfg (Barrier.run cfg sched s).
Proof.
  induction sched as [|a sched IH]; intros s H; [exact H|].
  cbn [Barrier.run fold_left]. apply IH. apply stop_inv_step. exact H.
Qed.

(** X13.  Along every interleaving, [stop_spinners] is set only after [go]
    and after every worker has returned; a spinner returns only after
    [stop_spinners] is set; and the only participant that returns without
    having passed the barrier is a worker of a program that maps its
    region before the ready increment. *)
Theorem stop_only_after_workers :
  forall (cfg : Barrier.config) (sched : list Barrier.action),
    let s := Barrier.run cfg sched (Barrier.init cfg) in
    (Barrier.stop_spinners s = true ->
     Barrier.go s = true
     /\ forall t, In t (Barrier.threads s) ->
                  Barrier.is_worker t = true -> Barrier.finished t = true)
    /\ (forall t, In t (Barrier.threads s) ->
                  Barrier.is_worker t = false ->
                  Barrier.t_pc t = Barrier.Returned ->
                  Barrier.stop_spinners s = true)
    /\ (forall t, In t (Barrier.threads s) ->
                  Barrier.has_failed t = true ->
                  Barrier.is_worker t = true /\ Barrier.cfg_prealloc cfg = true).
Proof.
  intros cfg sched s.
  assert (Hinv : barrier_inv cfg s)
    by (apply barrier_inv_run, barrier_inv_init).
  assert (Hsinv : stop_inv cfg s)
    by (apply stop_inv_run, stop_inv_init).
  destruct Hinv as [Hg Harm Hpast Hmain Hcount Hlen].
  destruct Hsinv as [Hstop Hjoin Hsp Hfail].
  split; [|split; [exact Hsp | exact Hfail]].
  intros H. specialize (Hstop H). split.
  - apply Hpast. destruct Hstop as [-> | ->]; reflexivity.
  - apply Hjoin. tauto.
Qed.

(** X14.  In microbenchmark4.c no worker returns before its ready
    increment, whatever the outcome of its [mmap] calls, and [ready_count]
    is at every moment the number of threads that have left their
    set-up. *)
Theorem bench4_worker_never_fails :
  forall (l : Bench3.launch) (sched : list Barrier.action),
    let cfg := Barrier.bench4_config l in
    let s := Barrier.run cfg sched (Barrier.init cfg) in
    Barrier.worker_failed s = false
    /\ Barrier.ready_count s
       = Z.of_nat (length (filter (fun t => negb (match Barrier.t_pc t with
                                                   | Barrier.Setup => true
                                                   | _ => false
                                                   end))
                                  (Barrier.threads s))).
Proof.
  intros l sched cfg s.
  assert (Hinv : barrier_inv cfg s)
    by (apply barrier_inv_run, barrier_inv_init).
  assert (Hsinv : stop_inv cfg s)
    by (apply stop_inv_run, stop_inv_init).
  destruct Hinv as [_ _ _ _ Hcount _].
  destruct Hsinv as [_ _ _ Hfail].
  assert (Hnf : forall t, In t (Barrier.threads s) -> Barrier.has_failed t = false).
  { intros t Ht. destruct (Barrier.has_failed t) eqn:E; [|reflexivity].
    destruct (Hfail t Ht E) as [_ Hp]. discriminate. }
  split.
  - unfold Barrier.worker_failed.
    destruct (existsb Barrier.has_failed (Barrier.threads s)) eqn:E; [|reflexivity].
    apply existsb_exists in E as (t & Ht & Hf). rewrite (Hnf t Ht) in Hf.
    discriminate.
  - rewrite Hcount. clear Hcount Hfail.
    induction (Barrier.threads s) as [|t ts IH]; [reflexivity|].
    rewrite increments_cons, IH by (intros x Hx; apply Hnf; now right).
    specialize (Hnf t (or_introl eq_refl)).
    cbn [filter]. unfold Barrier.incremented, Barrier.has_failed in *.
    destruct (Barrier.t_pc t); cbn [negb length]; try discriminate; lia.
Qed.

(** ** A schedule that completes the run *)

Lemma thread_step_tstep cfg ok s t :
  Barrier.thread_step cfg ok s t
  = tstep cfg ok (Barrier.go s) (Barrier.stop_spinners s) t.
Proof. reflexivity. Qed.

Lemma set_nth_middle pre x x' rest :
  Barrier.set_nth (length pre) x' (pre ++ x :: rest) = pre ++ x' :: rest.
Proof. induction pre as [|y pre IH]; cbn; [reflexivity|]. rewrite IH. reflexivity. Qed.

Lemma nth_error_middle (pre : list Barrier.thread) x rest :
  nth_error (pre ++ x :: rest) (length pre) = Some x.
Proof. induction pre as [|y pre IH]; cbn; auto. Qed.

Lemma run_threads_segment cfg ok g st d mid : forall pre post rc,
  Barrier.run cfg (map (fun i => Barrier.Thread i ok) (seq (length pre) (length mid)))
              (Barrier.mkState rc g st (pre ++ mid ++ post) d)
  = Barrier.mkState
      (rc + fold_right Z.add 0 (map (fun t => snd (tstep cfg ok g st t)) mid))
      g st
      (pre ++ map (fun t => fst (tstep cfg ok g st t)) mid ++ post) d.
Proof.
  induction mid as [|x mid IH]; intros pre post rc.
  - cbn. rewrite Z.add_0_r. reflexivity.
  - cbn [length seq map Barrier.run fold_left Barrier.step Barrier.threads app].
    rewrite nth_error_middle, thread_step_tstep.
    cbn [Barrier.go Barrier.stop_spinners Barrier.ready_count Barrier.driver].
    destruct (tstep cfg ok g st x) as [x' inc] eqn:Ex.
    rewrite set_nth_middle.
    change (pre ++ x' :: mid ++ post) with (pre ++ [x'] ++ mid ++ post).
    rewrite app_assoc.
    replace (S (length pre)) with (length (pre ++ [x']))
      by (rewrite length_app; cbn; lia).
    change (fold_left (fun s a => Barrier.step cfg a s) ?l ?s)
      with (Barrier.run cfg l s).
    rewrite IH. cbn [fold_right map fst snd]. rewrite <- app_assoc.
    cbn [app]. f_equal. lia.
Qed.

Lemma run_all_threads cfg ok g st d ths rc :
  Barrier.run cfg (all_threads (length ths) ok) (Barrier.mkState rc g st ths d)
  = Barrier.mkState
      (rc + fold_right Z.add 0 (map (fun t => snd (tstep cfg ok g st t)) ths))
      g st (map (fun t => fst (tstep cfg ok g st t)) ths) d.
Proof.
  pose proof (@run_threads_segment cfg ok g st d ths [] [] rc) as H.
  cbn [length app] in H. rewrite !app_nil_r in H. exact H.
Qed.

Lemma run_creation cfg todo : forall ths rc g st,
  Barrier.run cfg (repeat (Barrier.Driver true) (length todo))
              (Barrier.mkState rc g st ths (Barrier.Creating todo))
  = Barrier.mkState rc g st (ths ++ uniform (fun _ => Barrier.Setup) todo)
                    (Barrier.Creating []).
Proof.
  induction todo as [|r todo IH]; intros ths rc g st.
  - cbn. rewrite app_nil_r. reflexivity.
  - cbn [length repeat Barrier.run fold_left Barrier.step Barrier.driver_step
         Barrier.driver Barrier.ready_count Barrier.go Barrier.stop_spinners
         Barrier.threads].
    change (fold_left (fun s a => Barrier.step cfg a s) ?l ?s)
      with (Barrier.run cfg l s).
    rewrite IH. unfold uniform. cbn [map]. rewrite <- app_assoc. reflexivity.
Qed.

Lemma uniform_length pc roles : length (uniform pc roles) = length roles.
Proof. apply length_map. Qed.

Lemma uniform_step cfg g st pc pc' (inc : Barrier.role -> Z) roles :
  (forall r, tstep cfg true g st (Barrier.mkThread r (pc r))
             = (Barrier.mkThread r (pc' r), inc r)) ->
  map (fun t => fst (tstep cfg true g st t)) (uniform pc roles) = uniform pc' roles
  /\ fold_right Z.add 0 (map (fun t => snd (tstep cfg true g st t)) (uniform pc roles))
     = fold_right Z.add 0 (map inc roles).
Proof.
  intros H. unfold uniform. rewrite !map_map. split.
  - apply map_ext. intros r. rewrite H. reflexivity.
  - f_equal. apply map_ext. intros r. rewrite H. reflexivity.
Qed.

Lemma sum_const (A : Type) (l : list A) c :
  fold_right Z.add 0 (map (fun _ => c) l) = c * Z.of_nat (length l).
Proof. induction l as [|x l IH]; cbn [map fold_right length]; [lia|]. rewrite IH. lia. Qed.

Lemma run_cons cfg a sched s :
  Barrier.run cfg (a :: sched) s = Barrier.run cfg sched (Barrier.step cfg a s).
Proof. reflexivity. Qed.

Lemma forallb_uniform (p : Barrier.thread -> bool) pc roles :
  (forall r, p (Barrier.mkThread r (pc r)) = true) ->
  forallb p (uniform pc roles) = true.
Proof.
  intros H. unfold uniform. induction roles as [|r roles IH]; [reflexivity|].
  cbn. rewrite H, IH. reflexivity.
Qed.

Lemma run_uniform cfg g st d pc pc' inc rc roles :
  (forall r, tstep cfg true g st (Barrier.mkThread r (pc r))
             = (Barrier.mkThread r (pc' r), inc)) ->
  Barrier.run cfg (all_threads (length roles) true)
    (Barrier.mkState rc g st (uniform pc roles) d)
  = Barrier.mkState (rc + inc * Z.of_nat (length roles)) g st
      (uniform pc' roles) d.
Proof.
  intros H.
  replace (length roles) with (length (uniform pc roles)) at 1
    by apply uniform_length.
  rewrite run_all_threads.
  destruct (@uniform_step cfg g st pc pc' (fun _ => inc) roles H) as [Ht Hi].
  rewrite Ht, Hi, sum_const. reflexivity.
Qed.

Ltac driver_steps :=
  cbn [Barrier.run fold_left Barrier.step Barrier.driver_step Barrier.driver
       Barrier.with_driver Barrier.ready_count Barrier.go
       Barrier.stop_spinners Barrier.threads app];
  unfold Barrier.with_driver;
  cbn [Barrier.run fold_left Barrier.step Barrier.driver_step Barrier.driver
       Barrier.ready_count Barrier.go
       Barrier.stop_spinners Barrier.threads app].

Lemma completing_schedule_run (cfg : Barrier.config) :
  Barrier.cfg_expected cfg <= Z.of_nat (length (Barrier.cfg_roles cfg)) ->
  Barrier.run cfg (completing_schedule (length (Barrier.cfg_roles cfg)))
    (Barrier.init cfg)
  = Barrier.mkState (Z.of_nat (length (Barrier.cfg_roles cfg))) true
      (Barrier.cfg_stop cfg)
      (uniform (final_pc (Barrier.cfg_stop cfg)) (Barrier.cfg_roles cfg))
      Barrier.Finished.
Proof.
  intros Hexp. unfold completing_schedule, Barrier.init.
  set (rs := Barrier.cfg_roles cfg) in *.
  change (repeat (Barrier.Driver true) (S (length rs)))
    with (Barrier.Driver true :: repeat (Barrier.Driver true) (length rs)).
  rewrite repeat_cons, !run_app.
  rewrite run_creation. driver_steps.
  rewrite (@run_uniform cfg false false _ (fun _ => Barrier.Setup)
             (fun _ => Barrier.Polling) 1).
  2:{ intros r. unfold tstep, Barrier.thread_step. cbn.
      destruct r; [|reflexivity]. rewrite andb_false_r. reflexivity. }
  driver_steps.
  destruct (Z.ltb_spec (0 + 1 * Z.of_nat (length rs)) (Barrier.cfg_expected cfg))
    as [Hlt|_]; [lia|].
  driver_steps.
  rewrite (@run_uniform cfg true false _ (fun _ => Barrier.Polling)
             (fun _ => Barrier.Running) 0) by (intros r; reflexivity).
  rewrite (@run_uniform cfg true false _ (fun _ => Barrier.Running)
             after_timed_loop 0) by (intros r; destruct r; reflexivity).
  driver_steps.
  rewrite (@forallb_uniform _ after_timed_loop rs)
    by (intros r; destruct r; reflexivity).
  unfold final_pc. destruct (Barrier.cfg_stop cfg) eqn:Estop.
  - driver_steps.
    rewrite (@run_uniform cfg true true _ after_timed_loop
               (fun _ => Barrier.Returned) 0)
      by (intros r; destruct r; reflexivity).
    driver_steps.
    rewrite (@forallb_uniform _ (fun _ => Barrier.Returned) rs)
      by (intros r; reflexivity).
    driver_steps. f_equal. lia.
  - driver_steps.
    rewrite (@run_uniform cfg true false _ after_timed_loop
               after_timed_loop 0) by (intros r; destruct r; reflexivity).
    driver_steps. f_equal. lia.
Qed.

Lemma existsb_uniform (p : Barrier.thread -> bool) pc roles :
  (forall r, p (Barrier.mkThread r (pc r)) = false) ->
  existsb p (uniform pc roles) = false.
Proof.
  intros H. unfold uniform. induction roles as [|r roles IH]; [reflexivity|].
  cbn. rewrite H, IH. reflexivity.
Qed.

Lemma In_uniform pc roles t :
  In t (uniform pc roles) -> t = Barrier.mkThread (Barrier.t_role t) (pc (Barrier.t_role t)).
Proof.
  unfold uniform. intros H. apply in_map_iff in H.
  destruct H as [r [<- _]]. reflexivity.
Qed.

(** X15.  The protocol can run to its end.  When [main] waits for no more
    threads than it creates, the interleaving in which the participants
    take their steps in turn between those of [main] ends with [main] past
    its last join, [go] set, [ready_count] equal to the number of threads,
    no worker failed and every worker returned; [stop_spinners] is set
    exactly in the programs that have spinners, and there every thread has
    returned. *)
Theorem barrier_can_complete :
  forall (cfg : Barrier.config),
    Barrier.cfg_expected cfg <= Z.of_nat (length (Barrier.cfg_roles cfg)) ->
    let n := length (Barrier.cfg_roles cfg) in
    let s := Barrier.run cfg (completing_schedule n) (Barrier.init cfg) in
    Barrier.driver s = Barrier.Finished
    /\ Barrier.go s = true
    /\ Barrier.ready_count s = Z.of_nat n
    /\ Barrier.stop_spinners s = Barrier.cfg_stop cfg
    /\ map Barrier.t_role (Barrier.threads s) = Barrier.cfg_roles cfg
    /\ Barrier.worker_failed s = false
    /\ (forall t, In t (Barrier.threads s) ->
          Barrier.is_worker t = true -> Barrier.t_pc t = Barrier.Returned)
    /\ (Barrier.cfg_stop cfg = true ->
          forallb Barrier.finished (Barrier.threads s) = true).
Proof.
  intros cfg Hexp n s. subst s n. rewrite (completing_schedule_run cfg Hexp).
  cbn [Barrier.driver Barrier.go Barrier.ready_count Barrier.stop_spinners
       Barrier.threads Barrier.worker_failed].
  split; [reflexivity|]. split; [reflexivity|]. split; [reflexivity|].
  split; [reflexivity|]. split; [|split; [|split]].
  - unfold uniform. rewrite map_map. cbn. apply map_id.
  - apply existsb_uniform. intros r.
    unfold final_pc. destruct (Barrier.cfg_stop cfg), r; reflexivity.
  - intros t Hin Hw. apply In_uniform in Hin. rewrite Hin in Hw |- *.
    unfold final_pc. cbn in *.
    destruct (Barrier.cfg_stop cfg), (Barrier.t_role t);
      cbn in *; congruence.
  - intros ->. apply forallb_uniform. intros r. reflexivity.
Qed.

Lemma barrier_can_complete_witness :
  Barrier.driver
    (Barrier.run (Barrier.bench1_config 2) (completing_schedule 2)
       (Barrier.init (Barrier.bench1_config 2)))
  = Barrier.Finished.
Proof.
  refine (proj1 (@barrier_can_complete (Barrier.bench1_config 2) _)).
  simpl. lia.
Defined.

(** ** Totals and sizes of microbenchmark1.c and microbenchmark2.c *)

Lemma joined_ops N RS envs :
  0 <= N <= INT_MAX ->
  (forall i, mmap_result (envs i) 0%nat <> MAP_FAILED) ->
  forall l, map Bench1.ops
              (map (fun i => data (exec (Bench1.worker N RS)
                                        (envs i) (Bench1.initial_data i))) l)
            = map (fun _ => 2 * N) l.
Proof.
  intros HN Hok l. rewrite map_map. apply map_ext. intros i.
  apply worker1_ops; [exact HN | apply Hok | reflexivity].
Qed.

Lemma sum_map_const (c : Z) (l : list Z) :
  fold_right Z.add 0 (map (fun _ => c) l) = c * Z.of_nat (length l).
Proof.
  induction l as [|x l IH]; cbn [map fold_right length]; [lia|].
  rewrite IH. lia.
Qed.

Lemma node_iter_add_ops k n d :
  Bench1.node (Nat.iter n (Bench1.add_ops k) d) = Bench1.node d.
Proof. induction n as [|n IH]; [reflexivity | exact IH]. Qed.

(** X16.  [worker] and [main] of microbenchmark1.c/2.c together.  With
    [num_nodes] workers of [N] iterations whose regions were mapped,
    [data[i].node = i], every worker reports [2 * N] operations and the
    total is [2 * N * num_nodes], without wrap-around; the divisor
    [total_ops / num_nodes] of the latency microbenchmark2.c prints is
    [2 * N], the per-thread count. *)
Theorem total_ops_all_nodes :
  forall (N RS num_nodes : Z) (envs : Z -> env),
    0 <= N <= INT_MAX ->
    0 <= num_nodes <= INT_MAX ->
    (forall i, mmap_result (envs i) 0%nat <> MAP_FAILED) ->
    let ds := joined_data_with N RS num_nodes envs in
    let t := Bench1.main_aggregate ds in
    map Bench1.node ds = zrange num_nodes
    /\ (forall d, In d ds -> Bench1.ops d = 2 * N)
    /\ Bench1.total_ops t = 2 * N * num_nodes
    /\ Bench1.main_throughput t
       = fdiv (inject_Z (2 * N * num_nodes)) (Bench1.max_time t)
    /\ (1 <= num_nodes ->
        Bench1.total_ops t / (num_nodes mod 2 ^ 64) = 2 * N
        /\ Bench2.main_latency num_nodes t
           = fdiv (Bench1.max_time t * inject_Z 1000000)%Q
                  (inject_Z (2 * N))).
Proof.
  intros N RS m envs HN Hm Hok ds t.
  assert (Hops : map Bench1.ops ds = map (fun _ => 2 * N) (zrange m)).
  { apply joined_ops; assumption. }
  assert (Htot : Bench1.total_ops t = 2 * N * m).
  { subst t. unfold Bench1.main_aggregate. rewrite aggregate_total.
    - unfold sum_of_ops. rewrite Hops, sum_map_const, zrange_length by lia.
      cbn [Bench1.total_ops]. unfold INT_MAX in *.
      rewrite Z.mod_small; [lia|]. split; [nia|].
      assert (2 * N * m <= 2 * 2147483647 * 2147483647) by nia. lia.
    - cbn. split; [lia | reflexivity]. }
  split; [|split; [|split; [|split]]].
  - subst ds. unfold joined_data_with. rewrite map_map.
    rewrite <- (map_id (zrange m)) at 2. apply map_ext. intros i.
    rewrite worker1_run by apply Hok.
    cbn [data Bench1.set_elapsed Bench1.node]. rewrite node_iter_add_ops.
    reflexivity.
  - intros d Hd.
    assert (Hin : In (Bench1.ops d) (map Bench1.ops ds)) by (apply in_map; exact Hd).
    rewrite Hops in Hin. apply in_map_iff in Hin. destruct Hin as [_ [<- _]].
    reflexivity.
  - exact Htot.
  - unfold Bench1.main_throughput. rewrite Htot. reflexivity.
  - intros Hpos.
    assert (Hdiv : Bench1.total_ops t / (m mod 2 ^ 64) = 2 * N).
    { rewrite Htot, Z.mod_small by (unfold INT_MAX in *; lia).
      apply Z.div_mul. lia. }
    split; [exact Hdiv|]. unfold Bench2.main_latency. rewrite Hdiv.
    reflexivity.
Qed.

Lemma total_ops_all_nodes_witness :
  Bench1.total_ops
    (Bench1.main_aggregate (joined_data_with 3 4096 2 (fun _ => example_env)))
  = 2 * 3 * 2.
Proof.
  refine (proj1 (proj2 (proj2
    (@total_ops_all_nodes 3 4096 2 (fun _ => example_env) _ _ _)))).
  - unfold INT_MAX. lia.
  - unfold INT_MAX. lia.
  - intros i. simpl. discriminate.
Defined.

(** X17.  The sizes microbenchmark2.c prints, for any argument of [-s].
    The region size is a multiple of 1024; the page count is the region
    size divided by 4096, rounded down; the page-table count is the region
    size divided by [512 * 4096], rounded up, so the page tables cover the
    pages, as long as the addition does not wrap; a region size within
    [512 * 4096] of [2^64], as an argument between -2047 and -1 gives, is
    printed as covering 0 page tables. *)
Theorem region_pages_and_tables :
  forall (atol_result : Z),
    let size_kb := Bench2.size_kb_of atol_result in
    let rs := Bench2.region_size_of size_kb in
    let pages := Bench2.pages_in_region rs in
    let tables := Bench2.page_tables_covered rs in
    0 <= rs < 2 ^ 64
    /\ rs mod 1024 = 0
    /\ 4096 * pages <= rs < 4096 * (pages + 1)
    /\ (rs <= 2 ^ 64 - 512 * 4096 ->
        (512 * 4096) * (tables - 1) < rs <= (512 * 4096) * tables
        /\ pages <= 512 * tables
        /\ (tables = 0 <-> rs = 0))
    /\ (2 ^ 64 - 512 * 4096 < rs -> tables = 0 /\ 0 < pages)
    /\ (0 <= atol_result < 2 ^ 54 ->
        rs = 1024 * atol_result /\ pages = atol_result / 4)
    /\ (-2048 < atol_result < 0 ->
        rs = 2 ^ 64 + 1024 * atol_result /\ tables = 0).
Proof.
  intros a k rs pages tables.
  assert (Hk : 0 <= k < 2 ^ 64) by (apply Z.mod_pos_bound; lia).
  assert (Hrs : 0 <= rs < 2 ^ 64) by (apply Z.mod_pos_bound; lia).
  split; [exact Hrs|].
  assert (Hmod : rs mod 1024 = 0).
  { subst rs. unfold Bench2.region_size_of.
    change (2 ^ 64) with (1024 * 2 ^ 54).
    rewrite (Z.mul_comm k 1024), Zmult_mod_distr_l.
    rewrite Z.mul_comm. apply Z_mod_mult. }
  split; [exact Hmod|].
  assert (Hpages : 4096 * pages <= rs < 4096 * (pages + 1)).
  { subst pages. unfold Bench2.pages_in_region.
    pose proof (Z.mul_div_le rs 4096 ltac:(lia)).
    pose proof (Z.mul_succ_div_gt rs 4096 ltac:(lia)). lia. }
  split; [exact Hpages|].
  assert (Hwrap : 2 ^ 64 - 512 * 4096 < rs -> tables = 0 /\ 0 < pages).
  { intros Hbig. subst tables. unfold Bench2.page_tables_covered.
    change (512 * 4096 - 1) with 2097151. change (512 * 4096) with 2097152 in *.
    change (2 ^ 64) with 18446744073709551616 in *.
    assert (Hw : (rs + 2097151) mod 18446744073709551616
                 = rs + 2097151 - 18446744073709551616).
    { symmetry. apply Z.mod_unique with (q := 1); lia. }
    rewrite Hw. split; [apply Z.div_small; lia | lia]. }
  split; [|split; [exact Hwrap|split]].
  - intros Hfit. subst tables. unfold Bench2.page_tables_covered.
    change (512 * 4096 - 1) with 2097151. change (512 * 4096) with 2097152 in *.
    change (2 ^ 64) with 18446744073709551616 in *.
    rewrite (Z.mod_small (rs + 2097151)) by lia.
    pose proof (Z.mul_div_le (rs + 2097151) 2097152 ltac:(lia)).
    pose proof (Z.mul_succ_div_gt (rs + 2097151) 2097152 ltac:(lia)).
    set (q := (rs + 2097151) / 2097152) in *.
    split; [lia|]. split; [lia|]. split; intros; lia.
  - intros Hsmall.
    assert (Heq : rs = 1024 * a).
    { subst rs k. unfold Bench2.region_size_of, Bench2.size_kb_of.
      change (2 ^ 54) with 18014398509481984 in Hsmall.
      change (2 ^ 64) with 18446744073709551616.
      rewrite (Z.mod_small a) by lia. rewrite Z.mod_small; lia. }
    split; [exact Heq|]. subst pages. unfold Bench2.pages_in_region.
    rewrite Heq. change 4096 with (1024 * 4).
    rewrite Z.div_mul_cancel_l by lia. reflexivity.
  - intros Hneg.
    assert (Heq : rs = 2 ^ 64 + 1024 * a).
    { subst rs k. unfold Bench2.region_size_of, Bench2.size_kb_of.
      change (2 ^ 64) with 18446744073709551616.
      assert (Ha : a mod 18446744073709551616 = a + 18446744073709551616).
      { symmetry. apply Z.mod_unique with (q := -1); lia. }
      rewrite Ha. symmetry.
      apply Z.mod_unique with (q := 1023); lia. }
    split; [exact Heq|]. apply Hwrap. rewrite Heq.
    change (2 ^ 64) with 18446744073709551616. lia.
Qed.

(** ** Operation names and options of microbenchmark4.c *)

(** X18.  The names [op_name] gives are those the [-o] option accepts: an
    argument selects operation [op] exactly when it is [op_name op], and
    is rejected exactly when it is the name of no operation. *)
Theorem op_name_round_trip :
  forall (op : Bench4.op_type_t) (s : string),
    Bench4Main.parse_operation (Bench4Main.op_name op) = Some op
    /\ (Bench4Main.parse_operation s = Some op <-> s = Bench4Main.op_name op)
    /\ (Bench4Main.parse_operation s = None <->
        forall op', s <> Bench4Main.op_name op').
Proof.
  intros op s. split; [destruct op; reflexivity|].
  assert (Hiff : forall op0,
             Bench4Main.parse_operation s = Some op0 <-> s = Bench4Main.op_name op0).
  { intros op0. split.
    - unfold Bench4Main.parse_operation.
      destruct (String.eqb_spec s "mprotect") as [->|_];
        [intros [= <-]; reflexivity|].
      destruct (String.eqb_spec s "munmap") as [->|_];
        [intros [= <-]; reflexivity|].
      destruct (String.eqb_spec s "mmap_full") as [->|_];
        [intros [= <-]; reflexivity|].
      discriminate.
    - intros ->. destruct op0; reflexivity. }
  split; [apply Hiff|]. split.
  - intros Hnone op' Heq. apply Hiff in Heq. congruence.
  - intros Hno. destruct (Bench4Main.parse_operation s) as [op0|] eqn:E;
      [|reflexivity].
    exfalso. apply (Hno op0). apply (proj1 (Hiff op0)). reflexivity.
Qed.

(** X19.  The option loop of microbenchmark4.c.  It runs to its end
    exactly when every option is a [-s] or a [-o] naming an operation; the
    last [-o] and the last [-s] then win over earlier ones and over the
    defaults, [mprotect] and 8.  Otherwise [main] returns at the first
    other option, with status 0 if that is [-h] and 1 if not. *)
Theorem parse_options_result :
  forall (opts : list Bench4Main.getopt_result),
    match Bench4Main.parse_options opts Bench4Main.default_options with
    | inr o' =>
        forallb accepted opts = true
        /\ Bench4Main.operation o'
           = last_operation opts
               (Bench4Main.operation Bench4Main.default_options)
        /\ Bench4Main.spinners_per_node o'
           = last_spinners opts
               (Bench4Main.spinners_per_node Bench4Main.default_options)
    | inl status =>
        exists r rest,
          from_rejected opts = r :: rest
          /\ accepted r = false
          /\ status = (if is_help r then 0 else 1)
    end.
Proof.
  intros opts. generalize Bench4Main.default_options.
  induction opts as [|r opts IH]; intros o.
  - cbn. auto.
  - destruct r as [a|v| |].
    + cbn [Bench4Main.parse_options last_operation last_spinners forallb
           from_rejected accepted].
      destruct (Bench4Main.parse_operation a) as [op|] eqn:E.
      * specialize (IH (Bench4Main.mkOptions op (Bench4Main.spinners_per_node o))).
        destruct (Bench4Main.parse_options opts _); cbn in IH |- *; exact IH.
      * exists (Bench4Main.Opt_o a), opts. cbn. rewrite E. auto.
    + cbn [Bench4Main.parse_options last_operation last_spinners forallb
           from_rejected accepted].
      specialize (IH (Bench4Main.mkOptions (Bench4Main.operation o) v)).
      destruct (Bench4Main.parse_options opts _); cbn in IH |- *; exact IH.
    + cbn. exists Bench4Main.Opt_h, opts. auto.
    + cbn. exists Bench4Main.Opt_other, opts. auto.
Qed.

(** ** Exit status of thread creation *)


(** X21.  When NUMA is available and no [pthread_create] fails, [main]
    stores past the end of [spinner_data] whenever the total it allocated
    the arrays for is positive and smaller than the number of (node, s)
    pairs at which the loop finds a CPU.  A spinner count whose product
    with the number of remote nodes wraps around does that: 1431655766
    spinners per node on four nodes of one CPU each give the total 2 and
    three spinners to create. *)
Theorem thread_creation_overrun :
  forall (t : topology) (S : Z) (ok : Z -> bool),
    numa_available t = true ->
    (forall i, ok i = true) ->
    0 < Bench3.initial_total_spinners t S
      < Z.of_nat (length (spinner_slots t S)) ->
    Bench3.main_create_threads t S ok = Bench3.Overrun.
Proof.
  intros t S ok Ha Hok [Hpos Hlt]. unfold Bench3.main_create_threads.
  rewrite Ha. cbn [negb].
  destruct (Z.ltb_spec 0 (Bench3.initial_total_spinners t S)) as [_|]; [|lia].
  pose proof (create_spinners_status t S ok
                (Bench3.initial_total_spinners t S)) as Hst.
  destruct (Bench3.create_spinners t S ok _) as [c|status|] eqn:Ec.
  - apply create_spinners_result in Ec. destruct Ec as (Hi & _ & Hb). lia.
  - destruct Hst as [_ [i [_ Hf]]]. rewrite Hok in Hf. discriminate.
  - reflexivity.
Qed.

Lemma thread_creation_overrun_witness :
  Bench3.initial_total_spinners four_node_topology 1431655766 = 2
  /\ Bench3.main_create_threads four_node_topology 1431655766 (fun _ => true)
     = Bench3.Overrun.
Proof.
  split; [reflexivity|].
  apply (@thread_creation_overrun four_node_topology 1431655766 (fun _ => true)).
  - reflexivity.
  - reflexivity.
  - rewrite spinner_slots_count by lia. vm_compute. split; reflexivity.
Defined.
